(** * open-ports-and-programs: the classification / sort / render pipeline

    A shallow embedding of [open-ports-and-programs.py] (Python 3: the
    source uses f-strings, so ordering comparisons with [None] raise
    [TypeError]).

    - The external collaborators (psutil, socket, re, time) are the
      fields of an [Env] record: what one tick observes of the world.
      Within a tick they are functions, so a process does not exit
      between two lookups of the same tick, and
      [psutil.net_connections()] is taken to succeed.  How the
      operating system answers the wait that follows a tick is a field
      too; what [time.sleep] itself rejects is computed.
    - The singleton [OutputManager] is a record threaded through a state
      monad that also collects the trace of [print] statements and
      resolver calls and propagates exceptions.
    - A [dict] is an association list in insertion order, the order in
      which [items()] yields it; [sorted] is a stable sort on a key that
      may raise.
    - [process_connection] is written without its parameters [sort_by]
      and [foreign_address], which the source never reads. *)

From Stdlib Require Import List ZArith Lia Bool String Ascii DecimalString.
From Stdlib Require Import Sorting.Sorted Sorting.Permutation.
Import ListNotations.

Local Open Scope list_scope.
Local Open Scope string_scope.

(** ** Python values, strings and format strings *)

Module Py.

(** The exceptions the modelled code can raise by itself. *)
Inductive exn : Type :=
| TypeError
| ValueError
| IndexError
| UnboundLocalError
| OverflowError
| OSError.

Inductive result (A : Type) : Type :=
| Ok (a : A)
| Raise (e : exn).
Arguments Ok {A} a.
Arguments Raise {A} e.

(** The dynamically typed values that reach [format] and
    [set_max_program_len]: an [int], a [str] or [None]. *)
Inductive value : Type :=
| VInt (n : Z)
| VStr (s : string)
| VNone.

(** [str(n)] for an [int]. *)
Definition str_of_int (n : Z) : string :=
  NilZero.string_of_int (Z.to_int n).

(** [c * n] for a one-character string [c]. *)
Fixpoint replicate (n : nat) (c : ascii) : string :=
  match n with
  | O => EmptyString
  | S k => String c (replicate k c)
  end.

(** [s.ljust(w)], [s.rjust(w)]: what the format specs [:<w] and [:>w]
    do to a string; nothing is ever truncated. *)
Definition ljust (w : nat) (s : string) : string :=
  s ++ replicate (w - String.length s) " ".

Definition rjust (w : nat) (s : string) : string :=
  replicate (w - String.length s) " " ++ s.

(** [s.center(w, c)]: CPython puts [marg / 2 + (marg & w & 1)] fill
    characters on the left. *)
Definition center (w : nat) (c : ascii) (s : string) : string :=
  let n := String.length s in
  if Nat.leb w n then s
  else
    let marg := w - n in
    let left := Nat.div2 marg + (if Nat.odd marg && Nat.odd w then 1 else 0) in
    replicate left c ++ s ++ replicate (marg - left) c.

(** Truthiness of a [str] or [None]. *)
Definition truthy (o : option string) : bool :=
  match o with
  | Some s => negb (s =? "")
  | None => false
  end.

(** A format string as [str.format] reads it: literal text and
    automatically numbered replacement fields [{:<w}] / [{:>w}]. *)
Inductive align : Type := Left | Right.

Inductive segment : Type :=
| Lit (s : string)
| Field (a : align) (w : Z).

Definition fmt : Type := list segment.

Definition justify (a : align) (w : Z) (s : string) : string :=
  match a with
  | Left => ljust (Z.to_nat w) s
  | Right => rjust (Z.to_nat w) s
  end.

(** [format(v, spec)] with an alignment and a width: [None] rejects a
    non-empty format spec with a [TypeError]; a negative width is not
    a format spec at all ([ValueError]). *)
Definition format_value (a : align) (w : Z) (v : value) : result string :=
  match v with
  | VNone => Raise TypeError
  | VInt n =>
      if Z.ltb w 0 then Raise ValueError else Ok (justify a w (str_of_int n))
  | VStr s =>
      if Z.ltb w 0 then Raise ValueError else Ok (justify a w s)
  end.

(** [f.format(args...)]: fields consume the arguments in order; surplus
    arguments are ignored, a missing one raises [IndexError]. *)
Fixpoint format (f : fmt) (args : list value) : result string :=
  match f with
  | [] => Ok ""
  | Lit s :: f' =>
      match format f' args with
      | Ok r => Ok (s ++ r)
      | Raise e => Raise e
      end
  | Field a w :: f' =>
      match args with
      | [] => Raise IndexError
      | v :: args' =>
          match format_value a w v with
          | Ok x =>
              match format f' args' with
              | Ok r => Ok (x ++ r)
              | Raise e => Raise e
              end
          | Raise e => Raise e
          end
      end
  end.

(** *** Dictionaries keyed by port

    [d[k] = v] replaces the value in place when [k] is present and
    appends the pair otherwise, so [items()] lists the keys in the
    order of their first insertion. *)
Section Dict.
Context {V : Type}.

Definition dict : Type := list (Z * V).

Fixpoint setitem (k : Z) (v : V) (d : dict) : dict :=
  match d with
  | [] => [(k, v)]
  | (k', v') :: d' =>
      if Z.eqb k k' then (k, v) :: d' else (k', v') :: setitem k v d'
  end.

Fixpoint get (k : Z) (d : dict) : option V :=
  match d with
  | [] => None
  | (k', v') :: d' => if Z.eqb k k' then Some v' else get k d'
  end.

Definition items (d : dict) : list (Z * V) := d.

Definition keys (d : dict) : list Z := map fst d.
End Dict.
Arguments dict V : clear implicits.

(** *** [sorted(xs, key=...)]

    Python's sort is stable; the stable sorted permutation of a list
    is unique, so a stable insertion sort computes the same list. *)
Section Sorted.
Context {A K : Type}.
Variable leb : K -> K -> bool.
Variable key : A -> result K.

Fixpoint insert (x : K * A) (l : list (K * A)) : list (K * A) :=
  match l with
  | [] => [x]
  | y :: l' =>
      if leb (fst x) (fst y) then x :: y :: l' else y :: insert x l'
  end.

Fixpoint isort (l : list (K * A)) : list (K * A) :=
  match l with
  | [] => []
  | x :: l' => insert x (isort l')
  end.

(** The key function is called once per element, in order, before
    anything is compared; its first exception aborts the sort. *)
Fixpoint decorate (l : list A) : result (list (K * A)) :=
  match l with
  | [] => Ok []
  | x :: l' =>
      match key x with
      | Ok k =>
          match decorate l' with
          | Ok kl => Ok ((k, x) :: kl)
          | Raise e => Raise e
          end
      | Raise e => Raise e
      end
  end.

Definition sorted (l : list A) : result (list A) :=
  match decorate l with
  | Ok kl => Ok (map snd (isort kl))
  | Raise e => Raise e
  end.
End Sorted.

End Py.

Import Py.

(** ** The data model *)

(** What the code reads of a [psutil] connection record. *)
Module Psutil.
Record addr : Type := { ip : string; port : Z }.

Record sconn : Type := {
  laddr : addr;
  raddr : option addr;        (* [()] when there is no remote peer *)
  status : string;
  pid : option Z              (* [None] when the owner is not retrievable *)
}.
End Psutil.

(** A compiled regular expression, as its [search] predicate. *)
Definition pattern : Type := string -> bool.

(** What one tick observes of the world outside the program. *)
Record Env : Type := {
  net_connections : list Psutil.sconn;
  process_name : option Z -> option string;
      (* [psutil.Process(pid).name()]; [None] stands for [NoSuchProcess] *)
  getservbyport : Z -> option string;
      (* [socket.getservbyport]; [None] stands for any exception *)
  getfqdn : string -> string;
  str_sconn : Psutil.sconn -> string;         (* [str(connection)] *)
  re_compile : string -> pattern + string;    (* [inr msg] is [re.error] *)
  formatted_now : string;                     (* the time stamp of the title *)
  os_sleep : Z -> bool
      (* whether the operating system carries out a wait of that many
         seconds after the tick; [false] stands for [OSError] *)
}.

(** A value of the two mappings, [(pid, program, foreign_address)]. *)
Definition entry : Type := option Z * option string * option Psutil.addr.

Definition mapping : Type := dict entry.

(** The singleton [OutputManager]: its four attributes. *)
Record OutputManager : Type := {
  _bare : bool;
  _max_program_len : Z;
  _max_line_len : nat;
  _header_displayed : bool
}.

(** The class attributes, i.e. the state at the start of a run. *)
Definition OutputManager_init : OutputManager :=
  {| _bare := false; _max_program_len := 30;
     _max_line_len := 0; _header_displayed := false |}.

(** What the program does to the outside: the [print] statements, by
    call site, and the calls to the resolvers. *)
Inductive event : Type :=
| PrintError (msg : string)       (* [print(f'Error: {e}')] *)
| PrintBlank (n : nat)            (* [print('\n' * n, end='')] *)
| PrintState (s : string)         (* [print(centered_state)] *)
| PrintHeader (s : string)        (* [print(self._header)] *)
| PrintSeparator (s : string)     (* [print(self._separator)] *)
| PrintLine (s : string)          (* [print(line)] *)
| PrintStopped                    (* [print('\nMonitoring stopped.')] *)
| CallGetservbyport (port : Z)
| CallGetfqdn (ip : string).

Definition nl : string := String (ascii_of_nat 10) EmptyString.

(** The text an event leaves on standard output. *)
Definition stdout_of (ev : event) : string :=
  match ev with
  | PrintError msg => msg ++ nl
  | PrintBlank n => replicate n (ascii_of_nat 10)
  | PrintState s | PrintHeader s | PrintSeparator s | PrintLine s => s ++ nl
  | PrintStopped => nl ++ "Monitoring stopped." ++ nl
  | CallGetservbyport _ | CallGetfqdn _ => ""
  end.

Definition stdout (t : list event) : string :=
  fold_right (fun ev acc => stdout_of ev ++ acc) "" t.

(** ** The monad: [OutputManager] state, event trace, exceptions

    State changes and events made before an exception stay. *)
Definition M (A : Type) : Type :=
  OutputManager -> result A * OutputManager * list event.

Definition ret {A} (a : A) : M A := fun s => (Ok a, s, []).

Definition bind {A B} (m : M A) (f : A -> M B) : M B :=
  fun s =>
    match m s with
    | (Ok a, s1, t1) =>
        match f a s1 with
        | (r, s2, t2) => (r, s2, (t1 ++ t2)%list)
        end
    | (Raise e, s1, t1) => (Raise e, s1, t1)
    end.

Definition raise {A} (e : exn) : M A := fun s => (Raise e, s, []).

Definition emit (ev : event) : M unit := fun s => (Ok tt, s, [ev]).

Definition gets {A} (f : OutputManager -> A) : M A := fun s => (Ok (f s), s, []).

Definition modify (f : OutputManager -> OutputManager) : M unit :=
  fun s => (Ok tt, f s, []).

Definition lift {A} (r : result A) : M A := fun s => (r, s, []).

Notation "x <- m ;; k" := (bind m (fun x => k))
  (at level 61, m at next level, right associativity).
Notation "m ;;; k" := (bind m (fun _ => k))
  (at level 61, right associativity).

(** A [for] loop that threads an accumulator. *)
Fixpoint for_each {A B} (body : B -> A -> M A) (l : list B) (acc : A) : M A :=
  match l with
  | [] => ret acc
  | x :: l' => acc' <- body x acc ;; for_each body l' acc'
  end.

(** Projections of a run of the monad. *)
Definition result_of {A} (r : result A * OutputManager * list event) : result A :=
  fst (fst r).
Definition state_of {A} (r : result A * OutputManager * list event) : OutputManager :=
  snd (fst r).
Definition trace_of {A} (r : result A * OutputManager * list event) : list event :=
  snd r.

(** ** [class OutputManager] *)

Definition set_field_max_program_len (n : Z) (om : OutputManager) : OutputManager :=
  {| _bare := _bare om; _max_program_len := n;
     _max_line_len := _max_line_len om;
     _header_displayed := _header_displayed om |}.

Definition set_field_max_line_len (n : nat) (om : OutputManager) : OutputManager :=
  {| _bare := _bare om; _max_program_len := _max_program_len om;
     _max_line_len := n;
     _header_displayed := _header_displayed om |}.

Definition set_field_header_displayed (b : bool) (om : OutputManager) : OutputManager :=
  {| _bare := _bare om; _max_program_len := _max_program_len om;
     _max_line_len := _max_line_len om;
     _header_displayed := b |}.

Definition set_field_bare (b : bool) (om : OutputManager) : OutputManager :=
  {| _bare := b; _max_program_len := _max_program_len om;
     _max_line_len := _max_line_len om;
     _header_displayed := _header_displayed om |}.

(** ['{{:<6}} {{:<{}}} {{:<6}}'.format(self._max_program_len)]: three
    replacement fields. *)
Definition _formatter (om : OutputManager) : fmt :=
  [Field Left 6; Lit " "; Field Left (_max_program_len om); Lit " ";
   Field Left 6].

Definition _header (om : OutputManager) : result string :=
  format (_formatter om ++ [Lit " "; Field Right 20])%list
         [VStr "Port:"; VStr "Program"; VStr "PID";
          VStr "Svc Name / Foreign Addr"].

Definition _separator (om : OutputManager) : string :=
  replicate (_max_line_len om) "-".

Definition set_bare (bare : bool) : M unit := modify (set_field_bare bare).

(** A [str] argument is replaced by its length; the comparison with the
    current width raises [TypeError] on [None]. *)
Definition set_max_program_len (max_program_len : value) : M unit :=
  let max_program_len :=
    match max_program_len with
    | VStr s => VInt (Z.of_nat (String.length s))
    | v => v
    end in
  match max_program_len with
  | VInt n =>
      cur <- gets _max_program_len ;;
      if Z.gtb n cur then modify (set_field_max_program_len n) else ret tt
  | _ => raise TypeError
  end.

Definition value_of_name (o : option string) : value :=
  match o with Some s => VStr s | None => VNone end.

Definition value_of_pid (o : option Z) : value :=
  match o with Some n => VInt n | None => VNone end.

(** [output]: one report line.  The service name is looked up before
    the mode is examined. *)
Definition output (env : Env) (port : Z) (program : option string)
    (pid : option Z) (foreign_address : option Psutil.addr) (dns : bool)
  : M string :=
  let program := if truthy program then value_of_name program
                 else VStr "<unknown>" in
  let foreign_address_str :=
    match foreign_address with
    | Some a => Psutil.ip a ++ ":" ++ str_of_int (Psutil.port a)
    | None => ""
    end in
  foreign_address_str <-
    match foreign_address with
    | Some a =>
        if dns then
          emit (CallGetfqdn (Psutil.ip a)) ;;;
          ret (foreign_address_str ++ " (" ++ getfqdn env (Psutil.ip a) ++ ")")
        else ret foreign_address_str
    | None => ret foreign_address_str
    end ;;
  emit (CallGetservbyport port) ;;;
  let service_name :=
    match getservbyport env port with Some s => s | None => "" end in
  preformat <- gets _formatter ;;
  bare <- gets _bare ;;
  let args := [VInt port; program; value_of_pid pid; VStr foreign_address_str] in
  if bare then
    lift (format preformat args)
  else if negb (service_name =? "") && negb (foreign_address_str =? "") then
    lift (format (preformat ++ [Lit (ljust 10 ("SVC: " ++ service_name));
                                Lit " "; Field Right 40])%list args)
  else if negb (service_name =? "") && (foreign_address_str =? "") then
    lift (format (preformat ++ [Lit (ljust 20 ("SVC: " ++ service_name))])%list
                 args)
  else
    lift (format (preformat ++ [Field Right 40])%list args).

(** A sorted section: [(port, (pid, program, foreign_address))] pairs. *)
Definition section : Type := list (Z * entry).

Definition calculate_max_line_len (env : Env) (connections : section)
    (dns : bool) : M unit :=
  max_line_len <-
    for_each
      (fun (c : Z * entry) (max_line_len : nat) =>
         match c with
         | (port, (pid, program, foreign_address)) =>
             line <- output env port program pid foreign_address dns ;;
             ret (Nat.max max_line_len (String.length line))
         end)
      connections 0%nat ;;
  modify (set_field_max_line_len max_line_len).

Definition print_header (env : Env) (state : string)
    (bState bHeader bSeparator : bool) : M unit :=
  w <- gets _max_line_len ;;
  let centered_state :=
    center w "-" (state ++ " (" ++ formatted_now env ++ ")") in
  bare <- gets _bare ;;
  if bare then ret tt
  else
    (if bState then emit (PrintState centered_state) else ret tt) ;;;
    (if bHeader then
       h <- gets _header ;; h <- lift h ;; emit (PrintHeader h)
     else ret tt) ;;;
    (if bSeparator then
       sep <- gets _separator ;; emit (PrintSeparator sep)
     else ret tt).

Definition print_section (env : Env) (state : string) (connections : section)
    (lines_before lines_after : nat) (bState bHeader bSeparator dns : bool)
  : M unit :=
  calculate_max_line_len env connections false ;;;
  match connections with
  | [] => ret tt
  | _ :: _ =>
      displayed <- gets _header_displayed ;;
      flags <-
        (if negb displayed then
           modify (set_field_header_displayed true) ;;;
           ret (0%nat, true, true)
         else ret (lines_before, bHeader, bSeparator)) ;;
      match flags with
      | (lines_before, bHeader, bSeparator) =>
          emit (PrintBlank lines_before) ;;;
          bare <- gets _bare ;;
          (if negb bare then print_header env state bState bHeader bSeparator
           else ret tt) ;;;
          for_each
            (fun (c : Z * entry) (_ : unit) =>
               match c with
               | (port, (pid, program, foreign_address)) =>
                   line <- output env port program pid foreign_address dns ;;
                   emit (PrintLine line)
               end)
            connections tt ;;;
          emit (PrintBlank lines_after)
      end
  end.

(** ** The classifier and the sorter *)

Definition get_program_by_pid (env : Env) (pid : option Z) : option string :=
  process_name env pid.

Definition is_listen (c : Psutil.sconn) : bool :=
  Psutil.status c =? "LISTEN".

Definition entry_of (env : Env) (c : Psutil.sconn) : entry :=
  (Psutil.pid c, get_program_by_pid env (Psutil.pid c), Psutil.raddr c).

Definition process_connection (env : Env) (connection : Psutil.sconn)
    (listening_mapping non_listening_mapping : mapping) : mapping * mapping :=
  let port := Psutil.port (Psutil.laddr connection) in
  let pid := Psutil.pid connection in
  let foreign_address := Psutil.raddr connection in
  let program := get_program_by_pid env pid in
  if Psutil.status connection =? "LISTEN" then
    (setitem port (pid, program, foreign_address) listening_mapping,
     non_listening_mapping)
  else
    (listening_mapping,
     setitem port (pid, program, foreign_address) non_listening_mapping).

(** A local variable that an aborted [try] block may leave unassigned. *)
Inductive local (A : Type) : Type :=
| Unbound
| Bound (a : A).
Arguments Unbound {A}.
Arguments Bound {A} a.

Definition read_local {A} (x : local A) : M A :=
  match x with
  | Bound a => ret a
  | Unbound => raise UnboundLocalError
  end.

(** The [try: pattern = re.compile(regex) if regex else None] block:
    on [re.error] the message is printed and nothing is assigned. *)
Definition compile_pattern (env : Env) (regex : option string)
  : M (local (option pattern)) :=
  if truthy regex then
    match regex with
    | Some r =>
        match re_compile env r with
        | inl p => ret (Bound (Some p))
        | inr msg => emit (PrintError ("Error: " ++ msg)) ;;; ret Unbound
        end
    | None => ret (Bound None)
    end
  else ret (Bound None).

(** [pattern.search(x)] on a [str] or on [None]. *)
Definition search (p : pattern) (x : option string) : M bool :=
  match x with
  | Some s => ret (p s)
  | None => raise TypeError
  end.

(** The body of the loop over [all_connections]. *)
Definition classify_step (env : Env) (listening_only : bool)
    (pattern_var : local (option pattern))
    (connection : Psutil.sconn) (maps : mapping * mapping)
  : M (mapping * mapping) :=
  if listening_only && negb (is_listen connection) then ret maps
  else
    pat <- read_local pattern_var ;;
    skip <-
      match pat with
      | None => ret false
      | Some p =>
          m1 <- search p (Some (str_sconn env connection)) ;;
          if negb m1 then
            m2 <- search p (get_program_by_pid env (Psutil.pid connection)) ;;
            ret (negb m2)
          else ret false
      end ;;
    if (skip : bool) then ret maps
    else
      let maps' := process_connection env connection (fst maps) (snd maps) in
      set_max_program_len
        (value_of_name (get_program_by_pid env (Psutil.pid connection))) ;;;
      ret maps'.

Definition classify (env : Env) (listening_only : bool)
    (pattern_var : local (option pattern)) (all_connections : list Psutil.sconn)
  : M (mapping * mapping) :=
  for_each (classify_step env listening_only pattern_var) all_connections
           ([], []).

(** The sort keys.  [int(None)] raises [TypeError]. *)
Definition key_pid (x : Z * entry) : result Z :=
  match fst (fst (snd x)) with
  | Some n => Ok n
  | None => Raise TypeError
  end.

Definition key_port (x : Z * entry) : result Z := Ok (fst x).

Definition key_program (x : Z * entry) : result string :=
  Ok (if truthy (snd (fst (snd x)))
      then match snd (fst (snd x)) with Some s => s | None => "" end
      else "").

Definition sort_mapping (sort_by : string) (m : mapping)
  : result (list (Z * entry)) :=
  if sort_by =? "PID" then sorted Z.leb key_pid (items m)
  else if sort_by =? "Port" then sorted Z.leb key_port (items m)
  else if sort_by =? "Program" then sorted String.leb key_program (items m)
  else sorted Z.leb key_port (items m).

Definition get_port_program_mapping (env : Env) (sort_by : string)
    (bare listening_only dns : bool) (regex : option string)
  : M (mapping * mapping) :=
  set_bare bare ;;;
  pattern_var <- compile_pattern env regex ;;
  maps <- classify env listening_only pattern_var (net_connections env) ;;
  sorted_listening <- lift (sort_mapping sort_by (fst maps)) ;;
  sorted_non_listening <- lift (sort_mapping sort_by (snd maps)) ;;
  print_section env "LISTENING" sorted_listening 1 0 true false false dns ;;;
  (if negb listening_only then
     print_section env "NON-LISTENING" sorted_non_listening 1 0
                   true false false dns
   else ret tt) ;;;
  ret maps.

(** ** The command line and the refresh loop *)

Record Args : Type := {
  arg_pid : bool;                  (* [-i] *)
  arg_port : bool;                 (* [-p] *)
  arg_sort : option string;        (* [-s], as typed *)
  arg_bare : bool;
  arg_listening : bool;
  arg_dns : bool;
  arg_regex : option string;
  arg_continuous : option Z
}.

(** [-s] has [choices=['PID', 'Port', 'Program']] and
    [default='Program']; any other word makes the parser exit. *)
Definition parse_sort (typed : option string) : option string :=
  match typed with
  | None => Some "Program"
  | Some s =>
      if (s =? "PID") || (s =? "Port") || (s =? "Program") then Some s
      else None
  end.

(** [args.sort] after the shorthand flags have been applied. *)
Definition sort_of_args (a : Args) : option string :=
  match parse_sort (arg_sort a) with
  | Some s =>
      Some (if arg_pid a then "PID" else if arg_port a then "Port" else s)
  | None => None
  end.

(** [time.sleep(secs)] for an [int]: a negative length is a
    [ValueError]; the length is held as a signed 64-bit count of
    nanoseconds, and one that does not fit is an [OverflowError]; a
    length in range is handed to the operating system, which waits or
    refuses. *)
Definition sleep (env : Env) (secs : Z) : M unit :=
  if Z.ltb secs 0 then raise ValueError
  else if Z.ltb (2 ^ 63 - 1) (secs * 10 ^ 9) then raise OverflowError
  else if os_sleep env secs then ret tt
  else raise OSError.

(** The [while True] loop: one tick per observed world; without
    [-c] the loop stops after the first tick, with [-c] it waits and
    goes on until the interrupt, which arrives when [worlds] is used
    up. *)
Fixpoint refresh_loop (sort_by : string) (a : Args) (worlds : list Env)
  : M unit :=
  match worlds with
  | [] => emit PrintStopped
  | env :: worlds' =>
      get_port_program_mapping env sort_by (arg_bare a) (arg_listening a)
                               (arg_dns a) (arg_regex a) ;;;
      match arg_continuous a with
      | None => ret tt
      | Some secs => sleep env secs ;;; refresh_loop sort_by a worlds'
      end
  end.

Definition main (a : Args) (worlds : list Env)
  : option (result unit * OutputManager * list event) :=
  match sort_of_args a with
  | Some sort_by => Some (refresh_loop sort_by a worlds OutputManager_init)
  | None => None
  end.

(** ** The rest of the program: header length, time zone *)

(** [_header_len]: [len(self._header)]. *)
Definition _header_len (om : OutputManager) : result nat :=
  match _header om with
  | Ok h => Ok (String.length h)
  | Raise e => Raise e
  end.

(** [f"{n:02}"] for an [int]: at least two characters, padded with
    zeros on the left (a negative number already has two). *)
Definition zero_pad2 (n : Z) : string :=
  replicate (2 - String.length (str_of_int n)) "0" ++ str_of_int n.

(** [time.timezone if time.localtime().tm_isdst == 0 else time.altzone]:
    both are seconds west of UTC. *)
Definition local_timezone_offset (timezone altzone tm_isdst : Z) : Z :=
  if Z.eqb tm_isdst 0 then timezone else altzone.

(** The offset as [print_header] writes it into the title. *)
Definition timezone_offset_str (local_timezone_offset : Z) : string :=
  let timezone_hours := (Z.abs local_timezone_offset / 3600)%Z in
  let timezone_minutes := ((Z.abs local_timezone_offset / 60) mod 60)%Z in
  if Z.geb local_timezone_offset 0
  then "+" ++ zero_pad2 timezone_hours ++ ":" ++ zero_pad2 timezone_minutes
  else "-" ++ zero_pad2 timezone_hours ++ ":" ++ zero_pad2 timezone_minutes.

(** * The vocabulary of the properties *)

(** ** States, sorted lists *)

(** A relation between the state before and the state after that a
    computation keeps, whatever it returns or raises. *)
Definition preserves {A} (R : OutputManager -> OutputManager -> Prop)
    (m : M A) : Prop :=
  forall s, R s (state_of (m s)).

(** The order of a decorated list, ties between keys, the decoration
    by a key function that never raises, and the order it induces. *)
Definition key_le {A K} (leb : K -> K -> bool) (x y : K * A) : Prop :=
  leb (fst x) (fst y) = true.

Definition tie {K} (leb : K -> K -> bool) (a b : K) : bool :=
  leb a b && leb b a.

Definition decorated {A K} (f : A -> K) (l : list A) : list (K * A) :=
  map (fun x => (f x, x)) l.

Definition f_le {A K} (leb : K -> K -> bool) (f : A -> K) (x y : A) : Prop :=
  leb (f x) (f y) = true.

Definition width_le (s1 s2 : OutputManager) : Prop :=
  (_max_program_len s1 <= _max_program_len s2)%Z.

(** What can touch the width during a run: a width report, or a whole
    tick of the pipeline. *)
Inductive op : Type :=
| Report (v : value)
| Tick (env : Env) (sort_by : string) (bare listening_only dns : bool)
       (regex : option string).

Definition perform (o : op) : M unit :=
  match o with
  | Report v => set_max_program_len v
  | Tick env sort_by bare listening_only dns regex =>
      get_port_program_mapping env sort_by bare listening_only dns regex ;;;
      ret tt
  end.

(** The successive states of the [OutputManager] under a sequence of
    operations (an operation that raises leaves the state it reached). *)
Fixpoint history (ops : list op) (s : OutputManager) : list OutputManager :=
  match ops with
  | [] => [s]
  | o :: ops' => s :: history ops' (state_of (perform o s))
  end.

(** ** The loop of the classifier *)

(** The value [compile_pattern] leaves in the local variable
    [pattern]. *)
Definition pattern_after (env : Env) (regex : option string)
  : local (option pattern) :=
  match result_of (compile_pattern env regex OutputManager_init) with
  | Ok pv => pv
  | Raise _ => Unbound
  end.

Definition malformed (env : Env) (regex : option string) : Prop :=
  exists r msg, regex = Some r /\ r <> "" /\ re_compile env r = inr msg.

(** A connection that the listening-only test lets through. *)
Definition observed (listening_only : bool) (c : Psutil.sconn) : bool :=
  negb (listening_only && negb (is_listen c)).

(** What a width report does to the state. *)
Definition grow (n : Z) (s : OutputManager) : OutputManager :=
  if Z.gtb n (_max_program_len s) then set_field_max_program_len n s else s.

(** Whether the filter keeps a connection whose name is [nm]: no
    filter, or a match on the record's rendering, or on the name. *)
Definition keeps (env : Env) (pat : option pattern) (c : Psutil.sconn)
    (nm : string) : bool :=
  match pat with
  | None => true
  | Some p => p (str_sconn env c) || p nm
  end.

(** Name resolution succeeds for a connection, if the loop examines it. *)
Definition resolved (env : Env) (lo : bool) (c : Psutil.sconn) : Prop :=
  observed lo c = true -> get_program_by_pid env (Psutil.pid c) <> None.

(** The connections that get past both tests of the loop. *)
Definition retained (env : Env) (lo : bool) (pat : option pattern)
    (c : Psutil.sconn) : bool :=
  observed lo c &&
  match get_program_by_pid env (Psutil.pid c) with
  | Some nm => keeps env pat c nm
  | None => false
  end.

Definition route (env : Env) (maps : mapping * mapping) (c : Psutil.sconn)
  : mapping * mapping :=
  process_connection env c (fst maps) (snd maps).

Definition name_len (env : Env) (c : Psutil.sconn) : Z :=
  match get_program_by_pid env (Psutil.pid c) with
  | Some nm => Z.of_nat (String.length nm)
  | None => 0
  end.

Definition report (env : Env) (s : OutputManager) (c : Psutil.sconn)
  : OutputManager :=
  grow (name_len env c) s.

Definition lport (c : Psutil.sconn) : Z := Psutil.port (Psutil.laddr c).

(** The entry of the last connection of [conns] that [sel] selects and
    whose local port is [p]; [acc] when there is none. *)
Definition last_entry_acc (env : Env) (sel : Psutil.sconn -> bool) (p : Z)
    (conns : list Psutil.sconn) (acc : option entry) : option entry :=
  fold_left
    (fun acc c => if sel c && Z.eqb (lport c) p then Some (entry_of env c)
                  else acc)
    conns acc.

Definition last_entry (env : Env) (sel : Psutil.sconn -> bool) (p : Z)
    (conns : list Psutil.sconn) : option entry :=
  last_entry_acc env sel p conns None.

Definition not_listen (c : Psutil.sconn) : bool := negb (is_listen c).

(** A connection appears in a mapping when the mapping holds the
    connection's own entry under its local port. *)
Definition appears_in (env : Env) (c : Psutil.sconn) (m : mapping) : Prop :=
  get (lport c) m = Some (entry_of env c).

(** C1 as the specification words it: after the loop, with no filter,
    every connection is in exactly one mapping, chosen by its state, or
    in none when it was dropped by listening-only. *)
Definition partition_as_stated (env : Env) (lo : bool)
    (conns : list Psutil.sconn) : Prop :=
  forall L N s s' t,
    classify env lo (Bound None) conns s = (Ok (L, N), s', t) ->
    forall c, In c conns ->
      if is_listen c then appears_in env c L /\ ~ appears_in env c N
      else if lo then ~ appears_in env c L /\ ~ appears_in env c N
      else appears_in env c N /\ ~ appears_in env c L.

(** ** Concrete worlds *)

Module Example.

Definition peer (ip : string) (port : Z) : option Psutil.addr :=
  Some {| Psutil.ip := ip; Psutil.port := port |}.

Definition conn (port : Z) (pid : option Z) (status : string)
    (raddr : option Psutil.addr) : Psutil.sconn :=
  {| Psutil.laddr := {| Psutil.ip := "0.0.0.0"; Psutil.port := port |};
     Psutil.raddr := raddr; Psutil.status := status; Psutil.pid := pid |}.

(** The process table: 100 is nginx, 200 is curl, 300 has a name of 40
    characters, 999 has exited. *)
Definition names (pid : option Z) : option string :=
  match pid with
  | Some 100%Z => Some "nginx"
  | Some 200%Z => Some "curl"
  | Some 300%Z => Some "a-program-with-a-name-of-forty-character"
  | Some 999%Z => None
  | Some _ => Some "python3"
  | None => Some "python3"
  end.

Definition services (port : Z) : option string :=
  if Z.eqb port 80 then Some "http"
  else if Z.eqb port 443 then Some "https"
  else None.

Definition contains (needle hay : string) : bool :=
  match index 0 needle hay with Some _ => true | None => false end.

(** A regular expression engine for the expressions used below: an
    unbalanced parenthesis is an error, a plain word searches for itself. *)
Definition compile (r : string) : pattern + string :=
  if r =? "(" then inr "missing ), unterminated subpattern at position 0"
  else inl (contains r).

Definition render (c : Psutil.sconn) : string :=
  "sconn(laddr=addr(ip='" ++ Psutil.ip (Psutil.laddr c) ++ "', port="
  ++ str_of_int (Psutil.port (Psutil.laddr c)) ++ "), status='"
  ++ Psutil.status c ++ "')".

Definition world (conns : list Psutil.sconn) : Env :=
  {| net_connections := conns;
     process_name := names;
     getservbyport := services;
     getfqdn := fun _ => "host.example";
     str_sconn := render;
     re_compile := compile;
     formatted_now := "26.11.04 10:00:00 (+00:00)";
     os_sleep := fun _ => true |}.

(** The report of the specification: nginx listening on 80 and 443,
    curl connected from 51000. *)
Definition spec_conns : list Psutil.sconn :=
  [conn 80 (Some 100%Z) "LISTEN" None;
   conn 443 (Some 100%Z) "LISTEN" None;
   conn 51000 (Some 200%Z) "ESTABLISHED" (peer "93.184.216.34" 80)].

(** A server on 443 with two clients: two connections in state
    ESTABLISHED with the same local port. *)
Definition two_clients : list Psutil.sconn :=
  [conn 443 (Some 100%Z) "ESTABLISHED" (peer "10.0.0.1" 50001);
   conn 443 (Some 100%Z) "ESTABLISHED" (peer "10.0.0.2" 50002)].

End Example.

(** ** The width report *)

Definition width_eq (s1 s2 : OutputManager) : Prop :=
  _max_program_len s1 = _max_program_len s2.

(** C9 as the specification words it: the name length of every
    connection that passes the listening-only test has been reported by
    the end of the tick, whatever the filter expression is. *)
Definition width_report_regex_independent (env : Env) (lo : bool)
    (regex : option string) : Prop :=
  forall sort_by bare dns s c nm,
    In c (net_connections env) -> observed lo c = true ->
    get_program_by_pid env (Psutil.pid c) = Some nm ->
    (Z.of_nat (String.length nm) <=
     _max_program_len
       (state_of (get_port_program_mapping env sort_by bare lo dns regex s)))%Z.

(** ** The sorter *)

Definition port_of (x : Z * entry) : Z := fst x.
Definition pid_of (x : Z * entry) : option Z := fst (fst (snd x)).
Definition name_of (x : Z * entry) : option string := snd (fst (snd x)).

(** The keys as plain functions: the process ID (of an entry that has
    one) and the program name, [''] for a name that is absent or empty. *)
Definition pid_key (x : Z * entry) : Z :=
  match pid_of x with Some n => n | None => 0 end.

Definition name_key (x : Z * entry) : string :=
  if truthy (name_of x)
  then match name_of x with Some s => s | None => "" end
  else "".

Definition port_le (x y : Z * entry) : Prop := (port_of x <= port_of y)%Z.
Definition port_lt (x y : Z * entry) : Prop := (port_of x < port_of y)%Z.
Definition pid_le (x y : Z * entry) : Prop := (pid_key x <= pid_key y)%Z.
Definition name_le (x y : Z * entry) : Prop :=
  String.leb (name_key x) (name_key y) = true.

(** Two entries have the same primary key. *)
Definition same_key (sort_by : string) (x y : Z * entry) : bool :=
  if sort_by =? "PID" then Z.eqb (pid_key x) (pid_key y)
  else if sort_by =? "Program" then String.eqb (name_key x) (name_key y)
  else Z.eqb (port_of x) (port_of y).

(** C7 as the specification words it: in the sorter's output, of two
    entries with the same primary key the one with the smaller port
    comes first. *)
Definition ties_by_port_as_stated (sort_by : string) (m : mapping) : Prop :=
  forall out pre x mid y post,
    sort_mapping sort_by m = Ok out ->
    out = (pre ++ x :: mid ++ y :: post)%list ->
    same_key sort_by x y = true ->
    (port_of x <= port_of y)%Z.

(** nginx listening on 443 and on 80, observed in that order. *)
Definition nginx_443_80 : list Psutil.sconn :=
  [Example.conn 443 (Some 100%Z) "LISTEN" None;
   Example.conn 80 (Some 100%Z) "LISTEN" None].

(** A command line with no option at all. *)
Definition no_options : Args :=
  {| arg_pid := false; arg_port := false; arg_sort := None;
     arg_bare := false; arg_listening := false; arg_dns := false;
     arg_regex := None; arg_continuous := None |}.

(** C5 as the specification words it, for an omitted sort key: the
    sorter, run with the key the command line resolves to, returns the
    mapping in ascending order of port. *)
Definition omitted_key_sorts_by_port (a : Args) (m : mapping) : Prop :=
  arg_sort a = None -> arg_pid a = false -> arg_port a = false ->
  exists sort_by out,
    sort_of_args a = Some sort_by /\
    sort_mapping sort_by m = Ok out /\
    StronglySorted port_le out.

(** nginx listening on 80 and curl listening on 443. *)
Definition nginx_80_curl_443 : mapping :=
  [(80%Z, (Some 100%Z, Some "nginx", None));
   (443%Z, (Some 200%Z, Some "curl", None))].

(** ** The header and the lines *)

Definition is_header (ev : event) : bool :=
  match ev with PrintHeader _ => true | _ => false end.

Definition count_headers (t : list event) : nat :=
  List.length (filter is_header t).

(** How many headers a run may still print. *)
Definition budget (s : OutputManager) : nat :=
  if _header_displayed s then 0%nat else 1%nat.

(** A computation that pays for every header it prints. *)
Definition thrifty {A} (m : M A) : Prop :=
  forall s,
    (count_headers (trace_of (m s)) + budget (state_of (m s)) <= budget s)%nat.

(** The loop that prints the lines of a section, and what follows it. *)
Definition print_lines (env : Env) (connections : section) (dns : bool)
  : M unit :=
  for_each
    (fun (c : Z * entry) (_ : unit) =>
       match c with
       | (port, (pid, program, foreign_address)) =>
           line <- output env port program pid foreign_address dns ;;
           emit (PrintLine line)
       end)
    connections tt.

Definition section_body (env : Env) (connections : section)
    (lines_after : nat) (dns : bool) : M unit :=
  print_lines env connections dns ;;; emit (PrintBlank lines_after).

(** In bare mode a computation prints no header and stays in bare mode. *)
Definition bare_quiet {A} (m : M A) : Prop :=
  forall s,
    _bare s = true ->
    count_headers (trace_of (m s)) = 0%nat /\ _bare (state_of (m s)) = true.

Definition same_flags (s1 s2 : OutputManager) : Prop :=
  _bare s1 = _bare s2 /\ _header_displayed s1 = _header_displayed s2.

Definition same_mode (s1 s2 : OutputManager) : Prop := _bare s1 = _bare s2.

(** The title line of a section, and the two lines that head a
    section: its title line and the header. *)
Definition is_title (ev : event) : bool :=
  match ev with PrintState _ => true | _ => false end.

Definition is_heading (ev : event) : bool := is_title ev || is_header ev.

(** An output in which the header comes with the first title line: no
    title line and no header before that title line, the header right
    after it and right before the separator, no header later. *)
Definition header_after_first_title (t : list event) : Prop :=
  exists pre title h sep post,
    t = (pre ++ PrintState title :: PrintHeader h :: PrintSeparator sep
             :: post)%list /\
    filter is_heading pre = [] /\ count_headers post = 0%nat.

(** The output of a run outside bare mode, as C10 has it: no section is
    rendered and no header printed, or the header is printed with the
    first section that is rendered. *)
Definition header_opens_first_section (t : list event) : Prop :=
  filter is_heading t = [] \/ header_after_first_title t.

(** A computation that prints neither a title line nor a header. *)
Definition untitled {A} (m : M A) : Prop :=
  forall s, filter is_heading (trace_of (m s)) = [].

(** What a piece of a run does about the header, by the flag before
    ([d]) and after ([d']): with the flag set it prints no header and
    leaves the flag set; with the flag unset it prints no title line
    and no header and leaves the flag unset, or else prints the header
    with its first title line and sets the flag. *)
Definition heading_step (d d' : bool) (t : list event) : Prop :=
  if d then d' = true /\ count_headers t = 0%nat
  else (d' = false /\ filter is_heading t = []) \/
       (d' = true /\ header_after_first_title t).

(** A computation that keeps a run outside bare mode and its width
    non-negative, and treats the header as [heading_step] says. *)
Definition orderly {A} (m : M A) : Prop :=
  forall s,
    _bare s = false -> (0 <= _max_program_len s)%Z ->
    _bare (state_of (m s)) = false /\
    (0 <= _max_program_len (state_of (m s)))%Z /\
    heading_step (_header_displayed s) (_header_displayed (state_of (m s)))
                 (trace_of (m s)).

(** C10 as the specification words it, for one tick from the start of a
    run: when a section with an entry is rendered, the header is printed
    with it. *)
Definition header_with_first_section (env : Env) (bare : bool) : Prop :=
  forall sort_by lo dns regex L N s' t,
    get_port_program_mapping env sort_by bare lo dns regex OutputManager_init
    = (Ok (L, N), s', t) ->
    L <> [] \/ (lo = false /\ N <> []) ->
    count_headers t = 1%nat.

(** The program column: the name, or ['<unknown>'] for a name that is
    absent or empty. *)
Definition shown_program (program : option string) : string :=
  if truthy program
  then match program with Some s => s | None => "" end
  else "<unknown>".

(** The three columns every line starts with. *)
Definition columns (s : OutputManager) (port : Z) (program : option string)
    (pid : Z) : string :=
  ljust 6 (str_of_int port) ++ " " ++
  ljust (Z.to_nat (_max_program_len s)) (shown_program program) ++ " " ++
  ljust 6 (str_of_int pid).

(** The same world with another table of service names. *)
Definition with_services (env : Env) (svc : Z -> option string) : Env :=
  {| net_connections := net_connections env;
     process_name := process_name env;
     getservbyport := svc;
     getfqdn := getfqdn env;
     str_sconn := str_sconn env;
     re_compile := re_compile env;
     formatted_now := formatted_now env;
     os_sleep := os_sleep env |}.

(** Whether [needle] occurs in [hay]. *)
Definition occurs (needle hay : string) : bool :=
  match index 0 needle hay with Some _ => true | None => false end.

(** The resolver calls of [output], in order. *)
Definition lookups_of (port : Z) (fa : option Psutil.addr) (dns : bool)
  : list event :=
  match fa with
  | Some a => if dns then [CallGetfqdn (Psutil.ip a); CallGetservbyport port]
              else [CallGetservbyport port]
  | None => [CallGetservbyport port]
  end.

(** C4 as the specification words it, for an entry with a foreign
    address: the bare line shows the foreign address, and no service
    name is looked up for the entry. *)
Definition bare_line_as_stated (env : Env) (s : OutputManager) (port : Z)
    (program : option string) (pid : Z) (fa : Psutil.addr) : Prop :=
  _bare s = true ->
  exists line t,
    output env port program (Some pid) (Some fa) false s = (Ok line, s, t) /\
    occurs (Psutil.ip fa ++ ":" ++ str_of_int (Psutil.port fa)) line = true /\
    ~ In (CallGetservbyport port) t.

(** ** Lines, lookups and insertion order *)

(** The trailing field of a line that is not bare: the service name
    and the foreign address, by the three cases of [output]. *)
Definition trailer (service_name foreign_address_str : string) : string :=
  if negb (service_name =? "") && negb (foreign_address_str =? "") then
    ljust 10 ("SVC: " ++ service_name) ++ " " ++ rjust 40 foreign_address_str
  else if negb (service_name =? "") && (foreign_address_str =? "") then
    ljust 20 ("SVC: " ++ service_name)
  else rjust 40 foreign_address_str.

(** The foreign address as [output] writes it. *)
Definition shown_address (env : Env) (fa : option Psutil.addr) (dns : bool)
  : string :=
  match fa with
  | Some a =>
      if dns
      then (Psutil.ip a ++ ":" ++ str_of_int (Psutil.port a))
           ++ " (" ++ getfqdn env (Psutil.ip a) ++ ")"
      else Psutil.ip a ++ ":" ++ str_of_int (Psutil.port a)
  | None => ""
  end.

Definition shown_service (env : Env) (port : Z) : string :=
  match getservbyport env port with Some s => s | None => "" end.

(** The format string [output] applies, and its arguments. *)
Definition line_fmt (env : Env) (s : OutputManager) (port : Z)
    (fa : option Psutil.addr) (dns : bool) : fmt :=
  if _bare s then _formatter s
  else if negb (shown_service env port =? "")
          && negb (shown_address env fa dns =? "") then
    (_formatter s ++ [Lit (ljust 10 ("SVC: " ++ shown_service env port));
                      Lit " "; Field Right 40])%list
  else if negb (shown_service env port =? "")
          && (shown_address env fa dns =? "") then
    (_formatter s ++ [Lit (ljust 20 ("SVC: " ++ shown_service env port))])%list
  else (_formatter s ++ [Field Right 40])%list.

Definition line_args (env : Env) (port : Z) (program : option string)
    (pid : option Z) (fa : option Psutil.addr) (dns : bool) : list value :=
  [VInt port; VStr (shown_program program); value_of_pid pid;
   VStr (shown_address env fa dns)].

(** The line of an entry of a section, in a given state. *)
Definition line_of (env : Env) (s : OutputManager) (dns : bool)
    (c : Z * entry) : result string :=
  match c with
  | (port, (pid, program, fa)) =>
      format (line_fmt env s port fa dns) (line_args env port program pid fa dns)
  end.

(** The bodies of the two loops over a section. *)
Definition measure_body (env : Env) (dns : bool) (c : Z * entry)
    (max_line_len : nat) : M nat :=
  match c with
  | (port, (pid, program, foreign_address)) =>
      line <- output env port program pid foreign_address dns ;;
      ret (Nat.max max_line_len (String.length line))
  end.

Definition line_body (env : Env) (dns : bool) (c : Z * entry) (_ : unit)
  : M unit :=
  match c with
  | (port, (pid, program, foreign_address)) =>
      line <- output env port program pid foreign_address dns ;;
      emit (PrintLine line)
  end.

Definition lookups_of_entry (dns : bool) (c : Z * entry) : list event :=
  match c with
  | (port, (pid, program, fa)) => lookups_of port fa dns
  end.

Definition is_fqdn_call (ev : event) : bool :=
  match ev with CallGetfqdn _ => true | _ => false end.

Definition is_service_call (ev : event) : bool :=
  match ev with CallGetservbyport _ => true | _ => false end.

Definition is_call (ev : event) : bool :=
  is_fqdn_call ev || is_service_call ev.

(** The reverse-DNS calls the entries of a section ask for. *)
Definition fqdn_calls_of (conns : section) : list event :=
  flat_map
    (fun c : Z * entry =>
       match snd (snd c) with
       | Some a => [CallGetfqdn (Psutil.ip a)]
       | None => []
       end)
    conns.

(** What the rendering loop leaves in the trace for entries [conns]
    whose lines are [lines]. *)
Definition rendered (dns : bool) (conns : section) (lines : list string)
  : list event :=
  flat_map
    (fun cl : (Z * entry) * string =>
       (lookups_of_entry dns (fst cl) ++ [PrintLine (snd cl)])%list)
    (combine conns lines).

(** The title of a section that is rendered in state [s]: nothing in
    bare mode; the state line, and the first time the header and the
    separator too. *)
Definition heading (env : Env) (state : string) (s : OutputManager)
    (h : string) : list event :=
  if _bare s then []
  else if _header_displayed s then
    [PrintState (center (_max_line_len s) "-"
                        (state ++ " (" ++ formatted_now env ++ ")"))]
  else
    [PrintState (center (_max_line_len s) "-"
                        (state ++ " (" ++ formatted_now env ++ ")"));
     PrintHeader h; PrintSeparator (_separator s)].

Definition is_line (ev : event) : bool :=
  match ev with PrintLine _ => true | _ => false end.

(** The widths of a section: lines within [m], a separator of exactly
    [m], a title of at least [m]. *)
Definition within_width (m : nat) (ev : event) : Prop :=
  match ev with
  | PrintLine x => (String.length x <= m)%nat
  | PrintSeparator x => String.length x = m
  | PrintState x => (m <= String.length x)%nat
  | _ => True
  end.

(** The same world with another reverse-DNS resolver and another table
    of service names. *)
Definition with_resolvers (env : Env) (svc : Z -> option string)
    (fqdn : string -> string) : Env :=
  {| net_connections := net_connections env;
     process_name := process_name env;
     getservbyport := svc;
     getfqdn := fqdn;
     str_sconn := str_sconn env;
     re_compile := re_compile env;
     formatted_now := formatted_now env;
     os_sleep := os_sleep env |}.

(** The keys of a dictionary after inserting the keys [ps] in order:
    a key that is already there keeps its place, a new one goes last. *)
Definition add_key (ks : list Z) (p : Z) : list Z :=
  if existsb (Z.eqb p) ks then ks else (ks ++ [p])%list.

Definition first_seen (ps : list Z) (ks : list Z) : list Z :=
  fold_left add_key ps ks.

(** A sequence of width reports. *)
Definition report_all (vs : list value) : M unit :=
  for_each (fun v (_ : unit) => set_max_program_len v) vs tt.

Definition reported (v : value) : Z :=
  match v with
  | VInt n => n
  | VStr nm => Z.of_nat (String.length nm)
  | VNone => 0
  end.

(** * Properties *)

(** ** Running the monad *)

Lemma run_bind {A B} (m : M A) (f : A -> M B) (s : OutputManager) :
  bind m f s =
  match m s with
  | (Ok a, s1, t1) =>
      (result_of (f a s1), state_of (f a s1), (t1 ++ trace_of (f a s1))%list)
  | (Raise e, s1, t1) => (Raise e, s1, t1)
  end.
Proof.
  unfold bind, result_of, state_of, trace_of.
  destruct (m s) as [[[a | e] s1] t1]; [| reflexivity].
  destruct (f a s1) as [[r s2] t2]; reflexivity.
Qed.

Lemma run_bind_ok {A B} (m : M A) (f : A -> M B) s a s1 t1 :
  m s = (Ok a, s1, t1) ->
  bind m f s =
  (result_of (f a s1), state_of (f a s1), (t1 ++ trace_of (f a s1))%list).
Proof. intros H. rewrite run_bind, H. reflexivity. Qed.

Lemma run_bind_raise {A B} (m : M A) (f : A -> M B) s e s1 t1 :
  m s = (Raise e, s1, t1) -> bind m f s = (Raise e, s1, t1).
Proof. intros H. rewrite run_bind, H. reflexivity. Qed.

Lemma surj_run {A} (r : result A * OutputManager * list event) :
  r = (result_of r, state_of r, trace_of r).
Proof. destruct r as [[? ?] ?]; reflexivity. Qed.

(** ** State relations kept by every step of a computation *)

Section Preserves.
Variable R : OutputManager -> OutputManager -> Prop.
Hypothesis R_refl : forall s, R s s.
Hypothesis R_trans : forall s1 s2 s3, R s1 s2 -> R s2 s3 -> R s1 s3.

Lemma preserves_ret {A} (a : A) : preserves R (ret a).
Proof. intros s; apply R_refl. Qed.

Lemma preserves_raise {A} (e : exn) : preserves R (@raise A e).
Proof. intros s; apply R_refl. Qed.

Lemma preserves_emit ev : preserves R (emit ev).
Proof. intros s; apply R_refl. Qed.

Lemma preserves_gets {A} (f : OutputManager -> A) : preserves R (gets f).
Proof. intros s; apply R_refl. Qed.

Lemma preserves_lift {A} (r : result A) : preserves R (lift r).
Proof. intros s; apply R_refl. Qed.

Lemma preserves_modify f : (forall s, R s (f s)) -> preserves R (modify f).
Proof. intros H s; apply H. Qed.

Lemma preserves_bind {A B} (m : M A) (f : A -> M B) :
  preserves R m -> (forall a, preserves R (f a)) -> preserves R (bind m f).
Proof.
  intros Hm Hf s. rewrite run_bind.
  specialize (Hm s). destruct (m s) as [[[a | e] s1] t1]; cbn in *.
  - eapply R_trans; [exact Hm | apply Hf].
  - exact Hm.
Qed.

Lemma preserves_for_each {A B} (body : B -> A -> M A) l :
  (forall x acc, preserves R (body x acc)) ->
  forall acc, preserves R (for_each body l acc).
Proof.
  intros Hb. induction l as [| x l IH]; intros acc; cbn.
  - apply preserves_ret.
  - apply preserves_bind; [apply Hb | intros a; apply IH].
Qed.

Lemma preserves_read_local {A} (x : local A) : preserves R (read_local x).
Proof. destruct x; [apply preserves_raise | apply preserves_ret]. Qed.

Lemma preserves_search p x : preserves R (search p x).
Proof. destruct x; [apply preserves_ret | apply preserves_raise]. Qed.

Lemma preserves_compile_pattern env regex :
  preserves R (compile_pattern env regex).
Proof.
  unfold compile_pattern.
  destruct (truthy regex); [| apply preserves_ret].
  destruct regex as [r |]; [| apply preserves_ret].
  destruct (re_compile env r).
  - apply preserves_ret.
  - apply preserves_bind; [apply preserves_emit | intros; apply preserves_ret].
Qed.

Lemma preserves_sleep env secs : preserves R (sleep env secs).
Proof.
  unfold sleep.
  destruct (Z.ltb secs 0); [apply preserves_raise |].
  destruct (Z.ltb (2 ^ 63 - 1) (secs * 10 ^ 9)); [apply preserves_raise |].
  destruct (os_sleep env secs); [apply preserves_ret | apply preserves_raise].
Qed.
End Preserves.

Create HintDb pres.

#[local] Hint Resolve preserves_ret preserves_raise preserves_emit
  preserves_gets preserves_lift preserves_read_local preserves_search
  preserves_compile_pattern preserves_sleep : pres.

(** A tactic for the routine cases: split binds, branch on the
    conditions, close the leaves from the hint database. *)
Ltac pres_step :=
  first
    [ solve [eauto with pres]
    | progress intros
    | match goal with
      | |- preserves _ (bind _ _) => apply preserves_bind
      | |- preserves _ (for_each _ _ _) => apply preserves_for_each
      | |- preserves _ (modify _) => apply preserves_modify
      | |- preserves _ (if ?b then _ else _) => destruct b
      | |- preserves _ (match ?x with _ => _ end) => destruct x
      end ].

Ltac pres := repeat pres_step.

(** ** The width of the program column only grows *)

Lemma width_le_refl s : width_le s s.
Proof. unfold width_le; lia. Qed.

Lemma width_le_trans s1 s2 s3 : width_le s1 s2 -> width_le s2 s3 -> width_le s1 s3.
Proof. unfold width_le; lia. Qed.

#[local] Hint Resolve width_le_refl width_le_trans : pres.
#[local] Hint Extern 1 (width_le _ _) => unfold width_le; cbn; lia : pres.

Lemma set_max_program_len_grows v : preserves width_le (set_max_program_len v).
Proof.
  intros s. unfold set_max_program_len, width_le.
  destruct v as [n | str |]; cbn; try lia.
  - destruct (Z.gtb_spec n (_max_program_len s)); cbn; lia.
  - destruct (Z.gtb_spec (Z.of_nat (String.length str)) (_max_program_len s));
      cbn; lia.
Qed.

Lemma output_keeps_width env port program pid fa dns :
  preserves width_le (output env port program pid fa dns).
Proof. unfold output. pres. Qed.

#[local] Hint Resolve set_max_program_len_grows output_keeps_width : pres.

Lemma calculate_max_line_len_keeps_width env conns dns :
  preserves width_le (calculate_max_line_len env conns dns).
Proof.
  unfold calculate_max_line_len. pres.
Qed.

Lemma print_header_keeps_width env state b1 b2 b3 :
  preserves width_le (print_header env state b1 b2 b3).
Proof. unfold print_header. pres. Qed.

#[local] Hint Resolve calculate_max_line_len_keeps_width
  print_header_keeps_width : pres.

Lemma print_section_keeps_width env state conns lb la b1 b2 b3 dns :
  preserves width_le (print_section env state conns lb la b1 b2 b3 dns).
Proof. unfold print_section. pres. Qed.

Lemma classify_step_grows env lo pv c maps :
  preserves width_le (classify_step env lo pv c maps).
Proof. unfold classify_step. pres. Qed.

#[local] Hint Resolve print_section_keeps_width classify_step_grows : pres.

Lemma get_port_program_mapping_grows env sort_by bare lo dns regex :
  preserves width_le (get_port_program_mapping env sort_by bare lo dns regex).
Proof. unfold get_port_program_mapping, set_bare, classify. pres. Qed.

#[local] Hint Resolve get_port_program_mapping_grows : pres.

Lemma refresh_loop_grows sort_by a worlds :
  preserves width_le (refresh_loop sort_by a worlds).
Proof.
  induction worlds as [| env worlds IH]; cbn; pres.
Qed.

Lemma perform_grows o : preserves width_le (perform o).
Proof. destruct o; cbn; pres. Qed.

Lemma history_bounded_below ops :
  forall s, Forall (width_le s) (history ops s).
Proof.
  induction ops as [| o ops IH]; intros s; cbn.
  - constructor; [apply width_le_refl | constructor].
  - constructor; [apply width_le_refl |].
    eapply Forall_impl; [| apply IH].
    intros s' H. eapply width_le_trans; [apply perform_grows | exact H].
Qed.

Lemma history_sorted ops :
  forall s, StronglySorted width_le (history ops s).
Proof.
  induction ops as [| o ops IH]; intros s; cbn.
  - constructor; constructor.
  - constructor; [apply IH |].
    eapply Forall_impl; [| apply history_bounded_below].
    intros s' H. eapply width_le_trans; [apply perform_grows | exact H].
Qed.

(** C8.  Along every sequence of width reports and ticks that starts
    from the initial [OutputManager], the program-name width is
    non-decreasing (each state's width is at most that of every later
    state) and never below 30; the same holds for the state a whole run
    of the refresh loop ends in. *)
Theorem max_program_len_monotone_floor :
  forall ops : list op,
    StronglySorted width_le (history ops OutputManager_init) /\
    Forall (fun s => (30 <= _max_program_len s)%Z)
           (history ops OutputManager_init) /\
    forall sort_by a worlds s,
      width_le s (state_of (refresh_loop sort_by a worlds s)) /\
      (30 <= _max_program_len
               (state_of (refresh_loop sort_by a worlds OutputManager_init)))%Z.
Proof.
  intros ops. split; [apply history_sorted |]. split.
  - eapply Forall_impl; [| apply (history_bounded_below ops OutputManager_init)].
    intros s H. exact H.
  - intros sort_by a worlds s. split.
    + apply refresh_loop_grows.
    + apply (refresh_loop_grows sort_by a worlds OutputManager_init).
Qed.

(** ** The filter expression and unresolved names in the loop *)

Lemma compile_pattern_run env regex s :
  exists t,
    compile_pattern env regex s = (Ok (pattern_after env regex), s, t) /\
    (pattern_after env regex = Unbound <-> malformed env regex) /\
    (forall r msg, regex = Some r -> r <> "" -> re_compile env r = inr msg ->
                   t = [PrintError ("Error: " ++ msg)]).
Proof.
  unfold pattern_after, compile_pattern, malformed.
  destruct regex as [r |]; cbn.
  - destruct (String.eqb_spec r ""); cbn.
    + eexists; split; [reflexivity |]. split.
      * split; [discriminate |]. intros (r' & msg & E & N & _).
        inversion E; subst; contradiction.
      * intros r' msg E N. inversion E; subst; contradiction.
    + destruct (re_compile env r) as [p | msg] eqn:Ec; cbn.
      * eexists; split; [reflexivity |]. split.
        -- split; [discriminate |]. intros (r' & msg & E & _ & C).
           inversion E; subst. rewrite Ec in C; discriminate.
        -- intros r' msg E _ C. inversion E; subst.
           rewrite Ec in C; discriminate.
      * eexists; split; [reflexivity |]. split.
        -- split; [| reflexivity]. intros _. exists r, msg. auto.
        -- intros r' msg' E _ C. inversion E; subst.
           rewrite Ec in C. inversion C; reflexivity.
  - eexists; split; [reflexivity |]. split.
    + split; [discriminate |]. intros (r & msg & E & _); discriminate.
    + intros r msg E; discriminate.
Qed.

(** With [pattern] unassigned the loop skips what the listening-only
    test skips and stops at the first connection it would examine. *)
Lemma classify_unbound env lo conns :
  forall maps s,
    for_each (classify_step env lo Unbound) conns maps s =
    if existsb (observed lo) conns
    then (Raise UnboundLocalError, s, [])
    else (Ok maps, s, []).
Proof.
  induction conns as [| c conns IH]; intros maps s; [reflexivity |].
  cbn [for_each existsb]. unfold observed at 1.
  unfold classify_step at 1.
  destruct (lo && negb (is_listen c)) eqn:E; cbn [negb orb].
  - erewrite run_bind_ok by reflexivity. rewrite IH.
    destruct (existsb (observed lo) conns); reflexivity.
  - reflexivity.
Qed.

Lemma set_max_program_len_str nm s :
  set_max_program_len (VStr nm) s =
  (Ok tt, grow (Z.of_nat (String.length nm)) s, []).
Proof.
  unfold set_max_program_len, grow, bind, gets.
  destruct (Z.gtb _ _); reflexivity.
Qed.

Lemma set_max_program_len_int n s :
  set_max_program_len (VInt n) s = (Ok tt, grow n s, []).
Proof.
  unfold set_max_program_len, grow, bind, gets.
  destruct (Z.gtb _ _); reflexivity.
Qed.

Lemma set_max_program_len_none s :
  set_max_program_len VNone s = (Raise TypeError, s, []).
Proof. reflexivity. Qed.

(** One step of the loop, case by case. *)
Lemma classify_step_run env lo pv c maps s :
  classify_step env lo pv c maps s =
  if observed lo c then
    match pv with
    | Unbound => (Raise UnboundLocalError, s, [])
    | Bound pat =>
        match get_program_by_pid env (Psutil.pid c) with
        | None => (Raise TypeError, s, [])
        | Some nm =>
            if keeps env pat c nm then
              (Ok (process_connection env c (fst maps) (snd maps)),
               grow (Z.of_nat (String.length nm)) s, [])
            else (Ok maps, s, [])
        end
    end
  else (Ok maps, s, []).
Proof.
  unfold classify_step, observed, keeps.
  destruct (lo && negb (is_listen c)); [reflexivity |]. cbn [negb].
  remember (get_program_by_pid env (Psutil.pid c)) as onm eqn:En.
  destruct pv as [| [p |]]; [reflexivity | |];
    unfold bind, read_local, search, ret, raise.
  - destruct (p (str_sconn env c)); cbn [negb orb].
    + destruct onm as [nm |]; cbn [value_of_name];
        [rewrite set_max_program_len_str | rewrite set_max_program_len_none];
        reflexivity.
    + destruct onm as [nm |]; [| reflexivity].
      destruct (p nm); cbn [negb value_of_name]; [| reflexivity].
      rewrite set_max_program_len_str. reflexivity.
  - destruct onm as [nm |]; cbn [value_of_name];
      [rewrite set_max_program_len_str | rewrite set_max_program_len_none];
      reflexivity.
Qed.

(** ** Dictionaries *)

Section DictFacts.
Context {V : Type}.

Lemma get_setitem_same (k : Z) (v : V) (d : dict V) :
  get k (setitem k v d) = Some v.
Proof.
  induction d as [| [k' v'] d IH]; cbn.
  - rewrite Z.eqb_refl; reflexivity.
  - destruct (Z.eqb_spec k k') as [E | N]; cbn.
    + rewrite Z.eqb_refl; reflexivity.
    + destruct (Z.eqb_spec k k'); [contradiction | exact IH].
Qed.

Lemma get_setitem_other (k k0 : Z) (v : V) (d : dict V) :
  k0 <> k -> get k0 (setitem k v d) = get k0 d.
Proof.
  intros Hne. induction d as [| [k' v'] d IH]; cbn.
  - destruct (Z.eqb_spec k0 k); [contradiction | reflexivity].
  - destruct (Z.eqb_spec k k') as [E | N]; cbn.
    + subst k'. destruct (Z.eqb_spec k0 k); [contradiction | reflexivity].
    + destruct (Z.eqb_spec k0 k'); [reflexivity | exact IH].
Qed.

Lemma keys_setitem_in (k : Z) (v : V) (d : dict V) k0 :
  In k0 (keys (setitem k v d)) <-> k0 = k \/ In k0 (keys d).
Proof.
  unfold keys. induction d as [| [k' v'] d IH]; cbn.
  - intuition.
  - destruct (Z.eqb_spec k k') as [E | N]; cbn.
    + subst; intuition.
    + rewrite IH. intuition.
Qed.

(** The keys of a dictionary built by [setitem] are pairwise distinct. *)
Lemma keys_setitem_NoDup (k : Z) (v : V) (d : dict V) :
  NoDup (keys d) -> NoDup (keys (setitem k v d)).
Proof.
  unfold keys. induction d as [| [k' v'] d IH]; cbn; intros Hnd.
  - constructor; [intros [] | constructor].
  - inversion Hnd as [| ? ? Hnin Hnd']; subst.
    destruct (Z.eqb_spec k k') as [E | N]; cbn.
    + subst. constructor; assumption.
    + constructor; [| apply IH; exact Hnd'].
      intros Hin. apply (keys_setitem_in k v d k') in Hin.
      destruct Hin as [E | Hin]; [congruence | contradiction].
Qed.

Lemma get_None_not_in (k : Z) (d : dict V) :
  get k d = None <-> ~ In k (keys d).
Proof.
  unfold keys. induction d as [| [k' v'] d IH]; cbn.
  - intuition.
  - destruct (Z.eqb_spec k k') as [E | N].
    + subst. split; [discriminate | intros H; exfalso; apply H; auto].
    + rewrite IH. intuition.
Qed.

Lemma get_In_items (k : Z) (v : V) (d : dict V) :
  get k d = Some v -> In (k, v) (items d).
Proof.
  unfold items. induction d as [| [k' v'] d IH]; cbn; [discriminate |].
  destruct (Z.eqb_spec k k') as [E | N].
  - intros H; inversion H; subst; auto.
  - intros H; right; apply IH; exact H.
Qed.
End DictFacts.

(** ** The loop as a fold over the retained connections *)

Lemma classify_resolved_run env lo pat conns :
  forall maps s,
    Forall (resolved env lo) conns ->
    for_each (classify_step env lo (Bound pat)) conns maps s =
    (Ok (fold_left (route env) (filter (retained env lo pat) conns) maps),
     fold_left (report env) (filter (retained env lo pat) conns) s,
     []).
Proof.
  induction conns as [| c conns IH]; intros maps s Hall; [reflexivity |].
  inversion Hall as [| ? ? Hc Hrest]; subst.
  cbn [for_each filter]. rewrite run_bind, classify_step_run.
  assert (Er : retained env lo pat c =
               observed lo c &&
               match get_program_by_pid env (Psutil.pid c) with
               | Some nm => keeps env pat c nm
               | None => false
               end) by reflexivity.
  unfold resolved in Hc.
  destruct (observed lo c) eqn:Eo; cbn [andb] in Er.
  - destruct (get_program_by_pid env (Psutil.pid c)) as [nm |] eqn:En;
      [| exfalso; apply Hc; reflexivity].
    destruct (keeps env pat c nm); rewrite Er; cbn [fold_left].
    + rewrite (IH _ _ Hrest). cbn [result_of state_of trace_of fst snd app].
      unfold report at 3, name_len, route at 3. rewrite En. reflexivity.
    + rewrite (IH _ _ Hrest). reflexivity.
  - rewrite Er. rewrite (IH _ _ Hrest); reflexivity.
Qed.

(** An observed connection whose name lookup returns [None] stops the
    loop with an exception. *)
Lemma classify_unresolved env lo pv conns :
  forall maps s,
    Exists (fun c => observed lo c = true /\
                     get_program_by_pid env (Psutil.pid c) = None) conns ->
    exists e,
      result_of (for_each (classify_step env lo pv) conns maps s) = Raise e /\
      (e = TypeError \/ e = UnboundLocalError) /\
      (pv <> Unbound -> e = TypeError).
Proof.
  induction conns as [| c conns IH]; intros maps s Hex; [inversion Hex |].
  cbn [for_each]. rewrite run_bind, classify_step_run.
  destruct (observed lo c) eqn:Eo.
  - destruct pv as [| pat].
    + exists UnboundLocalError. cbn. split; [reflexivity |].
      split; [auto | congruence].
    + destruct (get_program_by_pid env (Psutil.pid c)) as [nm |] eqn:En.
      * assert (Hrest : Exists (fun c => observed lo c = true /\
                   get_program_by_pid env (Psutil.pid c) = None) conns).
        { inversion Hex as [? ? [_ Hn] | ? ? Ht]; subst; [| exact Ht].
          congruence. }
        destruct (keeps env pat c nm); cbn [result_of fst];
          match goal with
          | |- context [for_each _ conns ?m ?s'] =>
              destruct (IH m s' Hrest) as (e & He & Hk)
          end; exists e; (split; [exact He | exact Hk]).
      * exists TypeError. cbn. auto.
  - assert (Hrest : Exists (fun c => observed lo c = true /\
               get_program_by_pid env (Psutil.pid c) = None) conns).
    { inversion Hex as [? ? [Ho _] | ? ? Ht]; subst; [| exact Ht].
      congruence. }
    cbn [result_of fst].
    destruct (IH maps s Hrest) as (e & He & Hk). exists e.
    split; [exact He | exact Hk].
Qed.

(** ** What the two mappings hold after the loop *)

Lemma route_listen env c L N :
  is_listen c = true ->
  route env (L, N) c = (setitem (lport c) (entry_of env c) L, N).
Proof.
  unfold route, process_connection, is_listen, lport, entry_of. cbn [fst snd].
  intros ->. reflexivity.
Qed.

Lemma route_not_listen env c L N :
  is_listen c = false ->
  route env (L, N) c = (L, setitem (lport c) (entry_of env c) N).
Proof.
  unfold route, process_connection, is_listen, lport, entry_of. cbn [fst snd].
  intros ->. reflexivity.
Qed.

Lemma get_setitem (k k0 : Z) (v : entry) (d : mapping) :
  get k0 (setitem k v d) = if Z.eqb k k0 then Some v else get k0 d.
Proof.
  destruct (Z.eqb_spec k k0) as [E | N].
  - subst. apply get_setitem_same.
  - apply get_setitem_other. congruence.
Qed.

Lemma fold_route_get env p cs :
  forall L N,
    get p (fst (fold_left (route env) cs (L, N))) =
      last_entry_acc env is_listen p cs (get p L) /\
    get p (snd (fold_left (route env) cs (L, N))) =
      last_entry_acc env not_listen p cs (get p N).
Proof.
  unfold last_entry_acc, not_listen.
  induction cs as [| c cs IH]; intros L N; [split; reflexivity |].
  cbn [fold_left]. destruct (is_listen c) eqn:El; cbn [negb andb].
  - rewrite (route_listen env c L N El).
    destruct (IH (setitem (lport c) (entry_of env c) L) N) as [H1 H2].
    rewrite get_setitem in H1. split; [exact H1 | exact H2].
  - rewrite (route_not_listen env c L N El).
    destruct (IH L (setitem (lport c) (entry_of env c) N)) as [H1 H2].
    rewrite get_setitem in H2. split; [exact H1 | exact H2].
Qed.

Lemma last_entry_acc_some env sel p cs :
  forall acc e,
    last_entry_acc env sel p cs acc = Some e ->
    acc = Some e \/
    exists c, In c cs /\ sel c = true /\ lport c = p /\ e = entry_of env c.
Proof.
  unfold last_entry_acc.
  induction cs as [| c cs IH]; intros acc e H; cbn in H; [auto |].
  apply IH in H. destruct H as [H | (c' & Hin & Hs & Hp & He)].
  - destruct (sel c) eqn:Es; cbn in H; [| auto].
    destruct (Z.eqb_spec (lport c) p) as [Ep | Np]; [| auto].
    right. exists c. inversion H. cbn. auto.
  - right. exists c'. cbn. auto.
Qed.

Lemma last_entry_acc_keeps_some env sel p cs :
  forall acc e,
    acc = Some e ->
    exists c', last_entry_acc env sel p cs acc = Some c'.
Proof.
  unfold last_entry_acc.
  induction cs as [| c cs IH]; intros acc e H; cbn; [eauto |].
  destruct (sel c && Z.eqb (lport c) p); eapply IH; [reflexivity | exact H].
Qed.

Lemma last_entry_acc_in env sel p cs :
  forall acc c,
    In c cs -> sel c = true -> lport c = p ->
    exists c', In c' cs /\ sel c' = true /\ lport c' = p /\
               last_entry_acc env sel p cs acc = Some (entry_of env c').
Proof.
  induction cs as [| c0 cs IH]; intros acc c Hin Hs Hp; [inversion Hin |].
  destruct (last_entry_acc env sel p (c0 :: cs) acc) as [e |] eqn:E.
  - destruct (last_entry_acc_some env sel p (c0 :: cs) acc e E)
      as [Hacc | (c' & Hin' & Hs' & Hp' & He)].
    + subst acc. unfold last_entry_acc in E. cbn [fold_left] in E.
      destruct Hin as [-> | Hin].
      * rewrite Hs, Hp, Z.eqb_refl in E. cbn [andb] in E.
        fold (last_entry_acc env sel p cs (Some (entry_of env c))) in E.
        destruct (last_entry_acc_some env sel p cs _ e E)
          as [He | (c' & Hin' & Hs' & Hp' & He)].
        -- inversion He; subst. exists c. cbn. auto.
        -- exists c'. subst e. cbn. auto.
      * destruct (IH (if sel c0 && Z.eqb (lport c0) p
                      then Some (entry_of env c0) else Some e) c Hin Hs Hp)
          as (c' & Hin' & Hs' & Hp' & He).
        exists c'. unfold last_entry_acc in He. rewrite He in E.
        inversion E; subst. cbn. auto.
    + exists c'. subst e. auto.
  - exfalso. unfold last_entry_acc in E. cbn [fold_left] in E.
    destruct Hin as [-> | Hin].
    + rewrite Hs, Hp, Z.eqb_refl in E. cbn [andb] in E.
      destruct (last_entry_acc_keeps_some env sel p cs
                  (Some (entry_of env c)) _ eq_refl) as [x Hx].
      unfold last_entry_acc in Hx. congruence.
    + destruct (IH (if sel c0 && Z.eqb (lport c0) p
                    then Some (entry_of env c0) else acc) c Hin Hs Hp)
        as (c' & _ & _ & _ & He).
      unfold last_entry_acc in He. congruence.
Qed.

(** Connections in state LISTEN leave the non-listening mapping alone. *)
Lemma fold_route_all_listen env cs :
  forall maps,
    Forall (fun c => is_listen c = true) cs ->
    snd (fold_left (route env) cs maps) = snd maps.
Proof.
  induction cs as [| c cs IH]; intros [L N] Hall; [reflexivity |].
  inversion Hall as [| ? ? Hc Hrest]; subst.
  cbn [fold_left]. rewrite (route_listen env c L N Hc).
  rewrite (IH _ Hrest). reflexivity.
Qed.

Lemma retained_filter_listen env pat conns :
  Forall (fun c => is_listen c = true) (filter (retained env true pat) conns).
Proof.
  apply Forall_forall. intros c Hin. apply filter_In in Hin.
  destruct Hin as [_ Hr]. unfold retained, observed in Hr.
  destruct (is_listen c); [reflexivity | discriminate].
Qed.

Lemma classify_run env lo pat conns s :
  Forall (resolved env lo) conns ->
  classify env lo (Bound pat) conns s =
  (Ok (fold_left (route env) (filter (retained env lo pat) conns) ([], [])),
   fold_left (report env) (filter (retained env lo pat) conns) s,
   []).
Proof. intros H. unfold classify. apply classify_resolved_run; exact H. Qed.

(** C1, as stated, fails: of two established connections on local port
    443 the first is routed to the non-listening mapping and then
    overwritten by the second, so it is in neither mapping. *)
Lemma partition_as_stated_fails :
  ~ partition_as_stated (Example.world Example.two_clients) false
      Example.two_clients.
Proof.
  intros H.
  specialize (H _ _ OutputManager_init _ _ eq_refl
                (Example.conn 443 (Some 100%Z) "ESTABLISHED"
                              (Example.peer "10.0.0.1" 50001))
                (or_introl eq_refl)).
  cbn in H. destruct H as [H _]. unfold appears_in in H. cbn in H.
  discriminate H.
Qed.

(** C1 (amended).  When every examined connection has a name and the
    filter compiled, the loop returns two mappings such that: each
    mapping holds, under a port, the entry of the last retained
    connection with that local port and that kind of state (LISTEN for
    the listening mapping, anything else for the other); so a retained
    connection finds its port in the mapping of its state, holding its
    own entry or that of a later connection of the same port and state;
    the listening mapping holds only LISTEN connections and the other
    only non-LISTEN ones; with listening-only the non-listening mapping
    is empty; and a single [process_connection] writes exactly one of
    the two mappings. *)
Theorem classify_partition :
  forall env lo pat conns s,
    Forall (resolved env lo) conns ->
    exists L N s',
      classify env lo (Bound pat) conns s = (Ok (L, N), s', []) /\
      (forall p,
          get p L = last_entry env is_listen p
                      (filter (retained env lo pat) conns) /\
          get p N = last_entry env not_listen p
                      (filter (retained env lo pat) conns)) /\
      (forall c, In c conns -> retained env lo pat c = true ->
          exists c', In c' conns /\ retained env lo pat c' = true /\
                     lport c' = lport c /\ is_listen c' = is_listen c /\
                     get (lport c) (if is_listen c then L else N) =
                       Some (entry_of env c')) /\
      (forall p e, get p L = Some e ->
          exists c, In c conns /\ retained env lo pat c = true /\
                    is_listen c = true /\ lport c = p /\ e = entry_of env c) /\
      (forall p e, get p N = Some e ->
          exists c, In c conns /\ retained env lo pat c = true /\
                    is_listen c = false /\ lport c = p /\ e = entry_of env c) /\
      (lo = true -> N = []) /\
      (forall c L0 N0,
          process_connection env c L0 N0 =
          if is_listen c
          then (setitem (lport c) (entry_of env c) L0, N0)
          else (L0, setitem (lport c) (entry_of env c) N0)).
Proof.
  intros env lo pat conns s Hres.
  set (kept := filter (retained env lo pat) conns).
  set (maps := fold_left (route env) kept ([], [])).
  exists (fst maps), (snd maps), (fold_left (report env) kept s).
  assert (Hget : forall p,
             get p (fst maps) = last_entry env is_listen p kept /\
             get p (snd maps) = last_entry env not_listen p kept).
  { intros p. exact (fold_route_get env p kept [] []). }
  split.
  { rewrite (classify_run env lo pat conns s Hres).
    rewrite <- (surjective_pairing maps). reflexivity. }
  split; [exact Hget |].
  split; [| split; [| split; [| split]]].
  - intros c Hin Hr.
    assert (Hk : In c kept) by (apply filter_In; auto).
    destruct (is_listen c) eqn:El.
    + destruct (last_entry_acc_in env is_listen (lport c) kept None c Hk El
                  eq_refl) as (c' & Hin' & Hs' & Hp' & He).
      apply filter_In in Hin'. destruct Hin' as [Hin' Hr'].
      exists c'. rewrite (proj1 (Hget (lport c))). unfold last_entry.
      rewrite Hs'. auto.
    + assert (Enl : not_listen c = true) by (unfold not_listen; rewrite El; auto).
      destruct (last_entry_acc_in env not_listen (lport c) kept None c Hk Enl
                  eq_refl) as (c' & Hin' & Hs' & Hp' & He).
      apply filter_In in Hin'. destruct Hin' as [Hin' Hr'].
      exists c'. rewrite (proj2 (Hget (lport c))). unfold last_entry.
      unfold not_listen in Hs'. destruct (is_listen c'); [discriminate |].
      auto.
  - intros p e H. rewrite (proj1 (Hget p)) in H.
    destruct (last_entry_acc_some env is_listen p kept None e H)
      as [Hn | (c & Hin & Hs & Hp & He)]; [discriminate |].
    apply filter_In in Hin. destruct Hin as [Hin Hr]. exists c. auto.
  - intros p e H. rewrite (proj2 (Hget p)) in H.
    destruct (last_entry_acc_some env not_listen p kept None e H)
      as [Hn | (c & Hin & Hs & Hp & He)]; [discriminate |].
    apply filter_In in Hin. destruct Hin as [Hin Hr]. exists c.
    unfold not_listen in Hs. destruct (is_listen c); [discriminate | auto].
  - intros ->.
    exact (fold_route_all_listen env (filter (retained env true pat) conns)
             ([], []) (retained_filter_listen env pat conns)).
  - intros c L0 N0. unfold process_connection, is_listen, lport, entry_of.
    destruct (Psutil.status c =? "LISTEN"); reflexivity.
Qed.

(** The theorem applies to the two clients of port 443: the second
    one's entry is what the non-listening mapping holds. *)
Lemma classify_partition_witness :
  exists L N s',
    classify (Example.world Example.two_clients) false (Bound None)
             Example.two_clients OutputManager_init = (Ok (L, N), s', []) /\
    get 443%Z N =
      Some (Some 100%Z, Some "nginx", Example.peer "10.0.0.2" 50002) /\
    get 443%Z L = None.
Proof.
  destruct (classify_partition (Example.world Example.two_clients) false None
              Example.two_clients OutputManager_init)
    as (L & N & s' & Hrun & Hget & _).
  - repeat constructor; intros _; discriminate.
  - exists L, N, s'. split; [exact Hrun |].
    destruct (Hget 443%Z) as [HL HN]. split; [exact HN | exact HL].
Defined.

(** ** Where the width is reported *)

Lemma width_eq_refl s : width_eq s s.
Proof. reflexivity. Qed.

Lemma width_eq_trans s1 s2 s3 : width_eq s1 s2 -> width_eq s2 s3 -> width_eq s1 s3.
Proof. unfold width_eq; congruence. Qed.

#[local] Hint Resolve width_eq_refl width_eq_trans : pres.
#[local] Hint Extern 1 (width_eq _ _) => unfold width_eq; reflexivity : pres.

Lemma output_same_width env port program pid fa dns :
  preserves width_eq (output env port program pid fa dns).
Proof. unfold output. pres. Qed.

#[local] Hint Resolve output_same_width : pres.

Lemma calculate_max_line_len_same_width env conns dns :
  preserves width_eq (calculate_max_line_len env conns dns).
Proof. unfold calculate_max_line_len. pres. Qed.

Lemma print_header_same_width env state b1 b2 b3 :
  preserves width_eq (print_header env state b1 b2 b3).
Proof. unfold print_header. pres. Qed.

#[local] Hint Resolve calculate_max_line_len_same_width
  print_header_same_width : pres.

Lemma print_section_same_width env state conns lb la b1 b2 b3 dns :
  preserves width_eq (print_section env state conns lb la b1 b2 b3 dns).
Proof. unfold print_section. pres. Qed.

#[local] Hint Resolve print_section_same_width : pres.

Lemma grow_width n s : _max_program_len (grow n s) = Z.max (_max_program_len s) n.
Proof.
  unfold grow. destruct (Z.gtb_spec n (_max_program_len s)); cbn; lia.
Qed.

Lemma fold_report_width env cs :
  forall s,
    _max_program_len (fold_left (report env) cs s) =
    fold_left Z.max (map (name_len env) cs) (_max_program_len s).
Proof.
  induction cs as [| c cs IH]; intros s; [reflexivity |].
  cbn [fold_left map]. rewrite IH. unfold report. rewrite grow_width.
  reflexivity.
Qed.

Lemma state_of_bind_ok {A B} (m : M A) (f : A -> M B) s a s1 t1 :
  m s = (Ok a, s1, t1) -> state_of (bind m f s) = state_of (f a s1).
Proof. intros H. rewrite (run_bind_ok m f s a s1 t1 H). reflexivity. Qed.

Lemma result_of_bind_ok {A B} (m : M A) (f : A -> M B) s a s1 t1 :
  m s = (Ok a, s1, t1) -> result_of (bind m f s) = result_of (f a s1).
Proof. intros H. rewrite (run_bind_ok m f s a s1 t1 H). reflexivity. Qed.

Lemma trace_of_bind_ok {A B} (m : M A) (f : A -> M B) s a s1 t1 :
  m s = (Ok a, s1, t1) ->
  trace_of (bind m f s) = (t1 ++ trace_of (f a s1))%list.
Proof. intros H. rewrite (run_bind_ok m f s a s1 t1 H). reflexivity. Qed.

(** C9, as stated, fails: a listening program with a name of 40
    characters that the filter ["curl"] excludes leaves the width at 30. *)
Lemma width_report_regex_independent_fails :
  ~ width_report_regex_independent
      (Example.world [Example.conn 8080 (Some 300%Z) "LISTEN" None])
      false (Some "curl").
Proof.
  intros H.
  specialize (H "Port" false false OutputManager_init
                (Example.conn 8080 (Some 300%Z) "LISTEN" None)
                "a-program-with-a-name-of-forty-character"
                (or_introl eq_refl) eq_refl eq_refl).
  vm_compute in H. apply H. reflexivity.
Qed.

(** C9 (amended).  The width is reported after both tests of the loop:
    when the filter compiled to [pat] and every examined connection has
    a name, the width at the end of the tick is the maximum of the width
    at its start and of the name lengths of the retained connections
    only; connections that the filter excludes do not count. *)
Theorem width_reported_after_filter :
  forall env sort_by bare lo dns regex pat s,
    pattern_after env regex = Bound pat ->
    Forall (resolved env lo) (net_connections env) ->
    _max_program_len
      (state_of (get_port_program_mapping env sort_by bare lo dns regex s)) =
    fold_left Z.max
      (map (name_len env)
           (filter (retained env lo pat) (net_connections env)))
      (_max_program_len s).
Proof.
  intros env sort_by bare lo dns regex pat s Hpat Hres.
  unfold get_port_program_mapping, set_bare.
  rewrite (state_of_bind_ok _ _ s tt (set_field_bare bare s) [] eq_refl).
  destruct (compile_pattern_run env regex (set_field_bare bare s))
    as (t & Hc & _).
  rewrite (state_of_bind_ok _ _ _ _ _ _ Hc), Hpat.
  rewrite (state_of_bind_ok _ _ _ _ _ _
             (classify_run env lo pat (net_connections env) _ Hres)).
  match goal with
  | |- _ (state_of (?m ?s0)) = _ =>
      assert (Hk : preserves width_eq m) by pres;
      rewrite <- (Hk s0)
  end.
  rewrite fold_report_width. reflexivity.
Qed.

(** The theorem applies to the report of the specification filtered by
    ["curl"]: only the name of curl could count, and the width stays 30. *)
Lemma width_reported_after_filter_witness :
  _max_program_len
    (state_of (get_port_program_mapping (Example.world Example.spec_conns)
                 "Port" false false false (Some "curl") OutputManager_init)) =
  30%Z.
Proof.
  rewrite (width_reported_after_filter (Example.world Example.spec_conns)
             "Port" false false false (Some "curl")
             (Some (Example.contains "curl")) OutputManager_init).
  - reflexivity.
  - reflexivity.
  - repeat constructor; intros _; discriminate.
Defined.

(** ** A malformed filter, a name that cannot be resolved *)

Lemma result_of_bind_raise {A B} (m : M A) (f : A -> M B) s e :
  result_of (m s) = Raise e -> result_of (bind m f s) = Raise e.
Proof.
  intros H. rewrite run_bind.
  destruct (m s) as [[[a | e'] s1] t1]; cbn in H; [discriminate |].
  inversion H; reflexivity.
Qed.

(** C2.  After a malformed filter expression the error is printed, but
    the tick does not go on unfiltered: the variable [pattern] was never
    assigned, and the first connection that the loop examines raises
    [UnboundLocalError]; no section is printed. *)
Theorem malformed_filter_raises :
  forall env sort_by bare lo dns regex s,
    malformed env regex ->
    existsb (observed lo) (net_connections env) = true ->
    exists msg,
      get_port_program_mapping env sort_by bare lo dns regex s =
      (Raise UnboundLocalError, set_field_bare bare s,
       [PrintError ("Error: " ++ msg)]).
Proof.
  intros env sort_by bare lo dns regex s Hmal Hobs.
  destruct (compile_pattern_run env regex (set_field_bare bare s))
    as (t & Hc & Hunb & Ht).
  pose proof (proj2 Hunb Hmal) as Hpv.
  destruct Hmal as (r & msg & Er & Nr & Ec).
  exists msg. unfold get_port_program_mapping, set_bare.
  rewrite (run_bind_ok _ _ s tt (set_field_bare bare s) [] eq_refl).
  rewrite (run_bind_ok _ _ _ _ _ _ Hc), Hpv.
  unfold classify. rewrite run_bind, classify_unbound, Hobs.
  cbn. rewrite (Ht r msg Er Nr Ec). reflexivity.
Qed.

(** The theorem applies to the report of the specification with the
    filter ["("]. *)
Lemma malformed_filter_raises_witness :
  exists msg,
    get_port_program_mapping (Example.world Example.spec_conns)
      "Port" false false false (Some "(") OutputManager_init =
    (Raise UnboundLocalError, OutputManager_init,
     [PrintError ("Error: " ++ msg)]).
Proof.
  apply (malformed_filter_raises (Example.world Example.spec_conns)
           "Port" false false false (Some "(") OutputManager_init).
  - exists "(", "missing ), unterminated subpattern at position 0".
    repeat split; [discriminate].
  - reflexivity.
Defined.

(** C3.  A connection whose process has exited is not treated as
    "unknown" by the loop: reporting the width of [None] raises
    [TypeError], searching [None] with the filter raises [TypeError],
    and so a tick that examines such a connection always ends in an
    exception, with or without a filter. *)
Theorem unresolved_name_raises :
  forall env sort_by bare lo dns regex s,
    Exists (fun c => observed lo c = true /\
                     get_program_by_pid env (Psutil.pid c) = None)
           (net_connections env) ->
    (exists e,
        result_of (get_port_program_mapping env sort_by bare lo dns regex s)
        = Raise e /\
        (e = TypeError \/ e = UnboundLocalError) /\
        (~ malformed env regex -> e = TypeError)) /\
    set_max_program_len (value_of_name None) s = (Raise TypeError, s, []) /\
    (forall p, search p None s = (Raise TypeError, s, [])).
Proof.
  intros env sort_by bare lo dns regex s Hex.
  split; [| split; reflexivity].
  destruct (compile_pattern_run env regex (set_field_bare bare s))
    as (t & Hc & Hunb & _).
  destruct (classify_unresolved env lo (pattern_after env regex)
              (net_connections env) ([], []) (set_field_bare bare s) Hex)
    as (e & He & Hk & Hb).
  exists e. split; [| split; [exact Hk |]].
  - unfold get_port_program_mapping, set_bare.
    rewrite (result_of_bind_ok _ _ s tt (set_field_bare bare s) [] eq_refl).
    rewrite (result_of_bind_ok _ _ _ _ _ _ Hc).
    apply result_of_bind_raise. exact He.
  - intros Hnm. apply Hb. intros Hu. apply Hnm, Hunb, Hu.
Qed.

(** The theorem applies to a listening socket whose owner, process 999,
    has exited. *)
Lemma unresolved_name_raises_witness :
  result_of
    (get_port_program_mapping
       (Example.world [Example.conn 8080 (Some 999%Z) "LISTEN" None])
       "Port" false false false None OutputManager_init)
  = Raise TypeError.
Proof.
  destruct (unresolved_name_raises
              (Example.world [Example.conn 8080 (Some 999%Z) "LISTEN" None])
              "Port" false false false None OutputManager_init)
    as [(e & He & _ & Hty) _].
  - constructor. split; reflexivity.
  - rewrite He. f_equal. apply Hty.
    intros (r & msg & E & _). discriminate E.
Defined.

(** ** The stable sort *)

Section SortFacts.
Context {A K : Type}.
Variable leb : K -> K -> bool.
Hypothesis leb_total : forall a b, leb a b = true \/ leb b a = true.
Hypothesis leb_trans :
  forall a b c, leb a b = true -> leb b c = true -> leb a c = true.

Lemma insert_perm (x : K * A) l : Permutation (insert leb x l) (x :: l).
Proof.
  induction l as [| y l IH]; cbn; [apply Permutation_refl |].
  destruct (leb (fst x) (fst y)); [apply Permutation_refl |].
  eapply perm_trans; [apply perm_skip, IH | apply perm_swap].
Qed.

Lemma isort_perm (l : list (K * A)) : Permutation (isort leb l) l.
Proof.
  induction l as [| x l IH]; cbn; [constructor |].
  eapply perm_trans; [apply insert_perm | apply perm_skip, IH].
Qed.

Lemma insert_sorted (x : K * A) l :
  StronglySorted (key_le leb) l -> StronglySorted (key_le leb) (insert leb x l).
Proof.
  induction l as [| y l IH]; cbn; intros Hs.
  - constructor; constructor.
  - inversion Hs as [| ? ? Hs' Hall]; subst.
    destruct (leb (fst x) (fst y)) eqn:E.
    + constructor; [exact Hs |]. constructor; [exact E |].
      eapply Forall_impl; [| exact Hall].
      intros z Hz. unfold key_le in *. eapply leb_trans; eassumption.
    + constructor; [apply IH; exact Hs' |].
      assert (Hyx : (key_le leb) y x).
      { unfold key_le. destruct (leb_total (fst x) (fst y)); congruence. }
      eapply Permutation_Forall;
        [apply Permutation_sym, insert_perm |].
      constructor; assumption.
Qed.

Lemma isort_sorted (l : list (K * A)) : StronglySorted (key_le leb) (isort leb l).
Proof.
  induction l as [| x l IH]; cbn; [constructor |].
  apply insert_sorted, IH.
Qed.

(** Stability: the elements whose keys tie with [k] keep their order. *)
Lemma insert_stable (k : K) (x : K * A) l :
  filter (fun y => tie leb (fst y) k) (insert leb x l) =
  filter (fun y => tie leb (fst y) k) (x :: l).
Proof.
  induction l as [| y l IH]; [reflexivity |].
  cbn [insert]. destruct (leb (fst x) (fst y)) eqn:E; [reflexivity |].
  cbn [filter] in *. rewrite IH.
  destruct (tie leb (fst x) k) eqn:Ex; destruct (tie leb (fst y) k) eqn:Ey;
    try reflexivity.
  exfalso. unfold tie in Ex, Ey.
  apply andb_prop in Ex, Ey. destruct Ex as [Ex _], Ey as [_ Ey].
  rewrite (leb_trans _ _ _ Ex Ey) in E. discriminate.
Qed.

Lemma isort_stable (k : K) (l : list (K * A)) :
  filter (fun y => tie leb (fst y) k) (isort leb l) =
  filter (fun y => tie leb (fst y) k) l.
Proof.
  induction l as [| x l IH]; [reflexivity |].
  cbn [isort]. rewrite insert_stable. cbn [filter]. rewrite IH. reflexivity.
Qed.

(** A key function that never raises. *)
Variable f : A -> K.

Lemma decorate_total (key : A -> result K) l :
  Forall (fun x => key x = Ok (f x)) l ->
  decorate key l = Ok ((decorated f) l).
Proof.
  induction l as [| x l IH]; intros Hall; [reflexivity |].
  inversion Hall as [| ? ? Hx Hl]; subst.
  cbn. rewrite Hx, (IH Hl). reflexivity.
Qed.

Lemma decorate_raises (key : A -> result K) e l :
  Forall (fun x => key x = Ok (f x) \/ key x = Raise e) l ->
  Exists (fun x => key x = Raise e) l ->
  decorate key l = Raise e.
Proof.
  induction l as [| x l IH]; intros Hall Hex; [inversion Hex |].
  inversion Hall as [| ? ? Hx Hl]; subst. cbn.
  destruct Hx as [Hx | Hx]; rewrite Hx; [| reflexivity].
  inversion Hex as [? ? Hr | ? ? Hr]; subst; [congruence |].
  rewrite (IH Hl Hr). reflexivity.
Qed.

Lemma decorated_all (l : list (K * A)) l0 :
  Permutation l ((decorated f) l0) -> Forall (fun y => fst y = f (snd y)) l.
Proof.
  intros Hp. eapply Permutation_Forall; [apply Permutation_sym, Hp |].
  unfold decorated. apply Forall_forall. intros y Hin.
  apply in_map_iff in Hin. destruct Hin as (x & <- & _). reflexivity.
Qed.

Lemma sorted_by_undecorate (l : list (K * A)) :
  Forall (fun y => fst y = f (snd y)) l ->
  StronglySorted (key_le leb) l -> StronglySorted (f_le leb f) (map snd l).
Proof.
  induction l as [| y l IH]; intros Hd Hs; cbn; [constructor |].
  inversion Hd as [| ? ? Hy Hl]; subst.
  inversion Hs as [| ? ? Hs' Hall]; subst.
  constructor; [apply IH; assumption |].
  apply Forall_map. apply Forall_forall. intros z Hz.
  unfold f_le, key_le in *.
  rewrite Forall_forall in Hall, Hl.
  rewrite <- Hy, <- (Hl z Hz). apply Hall, Hz.
Qed.

Lemma filter_undecorate (k : K) (l : list (K * A)) :
  Forall (fun y => fst y = f (snd y)) l ->
  filter (fun x => tie leb (f x) k) (map snd l) =
  map snd (filter (fun y => tie leb (fst y) k) l).
Proof.
  induction l as [| y l IH]; intros Hd; [reflexivity |].
  inversion Hd as [| ? ? Hy Hl]; subst. cbn. rewrite <- Hy.
  destruct (tie leb (fst y) k); cbn; rewrite (IH Hl); reflexivity.
Qed.

Lemma map_snd_decorated l : map snd ((decorated f) l) = l.
Proof.
  unfold decorated. rewrite map_map. cbn. apply map_id.
Qed.

(** What [sorted] returns for a key function that never raises: a
    permutation of its argument, non-decreasing in the key, in which
    elements with equal keys keep the order they had. *)
Lemma sorted_spec (key : A -> result K) (l : list A) :
  Forall (fun x => key x = Ok (f x)) l ->
  exists out,
    sorted leb key l = Ok out /\
    Permutation out l /\
    StronglySorted (f_le leb f) out /\
    forall k, filter (fun x => tie leb (f x) k) out =
              filter (fun x => tie leb (f x) k) l.
Proof.
  intros Hall. exists (map snd (isort leb ((decorated f) l))).
  unfold sorted. rewrite (decorate_total key l Hall).
  pose proof (decorated_all _ l (isort_perm ((decorated f) l))) as Hd.
  split; [reflexivity |]. split; [| split].
  - rewrite <- (map_snd_decorated l) at 2.
    apply Permutation_map, isort_perm.
  - apply sorted_by_undecorate; [exact Hd | apply isort_sorted].
  - intros k. rewrite (filter_undecorate k _ Hd), isort_stable.
    rewrite <- (filter_undecorate k ((decorated f) l)).
    + rewrite map_snd_decorated. reflexivity.
    + apply (decorated_all _ l). apply Permutation_refl.
Qed.

End SortFacts.

(** ** The orders on the keys *)

Lemma Z_leb_total a b : Z.leb a b = true \/ Z.leb b a = true.
Proof. destruct (Z.leb_spec a b); [auto | right; apply Z.leb_le; lia]. Qed.

Lemma Z_leb_trans a b c :
  Z.leb a b = true -> Z.leb b c = true -> Z.leb a c = true.
Proof. rewrite !Z.leb_le. lia. Qed.

Lemma string_leb_cons c1 s1 c2 s2 :
  String.leb (String c1 s1) (String c2 s2) =
  match N.compare (N_of_ascii c1) (N_of_ascii c2) with
  | Lt => true
  | Eq => String.leb s1 s2
  | Gt => false
  end.
Proof.
  unfold String.leb. cbn [String.compare]. unfold Ascii.compare.
  destruct (N.compare (N_of_ascii c1) (N_of_ascii c2)); reflexivity.
Qed.

Lemma string_leb_trans s1 :
  forall s2 s3,
    String.leb s1 s2 = true -> String.leb s2 s3 = true ->
    String.leb s1 s3 = true.
Proof.
  induction s1 as [| c1 s1 IH]; intros s2 s3 H12 H23.
  - destruct s3; reflexivity.
  - destruct s2 as [| c2 s2]; [discriminate H12 |].
    destruct s3 as [| c3 s3]; [discriminate H23 |].
    rewrite string_leb_cons in *.
    destruct (N.compare_spec (N_of_ascii c1) (N_of_ascii c2)) as [E12 | L12 | G12];
      try discriminate;
      destruct (N.compare_spec (N_of_ascii c2) (N_of_ascii c3)) as [E23 | L23 | G23];
      try discriminate;
      destruct (N.compare_spec (N_of_ascii c1) (N_of_ascii c3)) as [E13 | L13 | G13];
      try reflexivity; try lia.
    eapply IH; eassumption.
Qed.

Lemma string_leb_empty s : String.leb s "" = true -> s = "".
Proof. destruct s; [reflexivity | discriminate]. Qed.

Lemma string_leb_refl s : String.leb s s = true.
Proof. destruct (String.leb_total s s); assumption. Qed.

(** ** The sorter *)

Lemma sort_mapping_PID m : sort_mapping "PID" m = sorted Z.leb key_pid m.
Proof. reflexivity. Qed.

Lemma sort_mapping_Port m : sort_mapping "Port" m = sorted Z.leb key_port m.
Proof. reflexivity. Qed.

Lemma sort_mapping_Program m :
  sort_mapping "Program" m = sorted String.leb key_program m.
Proof. reflexivity. Qed.

Lemma sort_mapping_other w m :
  w <> "PID" -> w <> "Port" -> w <> "Program" ->
  sort_mapping w m = sorted Z.leb key_port m.
Proof.
  intros H1 H2 H3. unfold sort_mapping, items.
  destruct (String.eqb_spec w "PID"); [contradiction |].
  destruct (String.eqb_spec w "Port"); [contradiction |].
  destruct (String.eqb_spec w "Program"); [contradiction |].
  reflexivity.
Qed.

Lemma StronglySorted_impl {A} (R S : A -> A -> Prop) l :
  (forall x y, R x y -> S x y) -> StronglySorted R l -> StronglySorted S l.
Proof.
  intros HRS. induction 1 as [| x l Hs IH Hall]; constructor; [exact IH |].
  eapply Forall_impl; [| exact Hall]. intros y; apply HRS.
Qed.

Lemma StronglySorted_before {A} (R : A -> A -> Prop) pre x post :
  StronglySorted R (pre ++ x :: post)%list -> Forall (fun y => R y x) pre.
Proof.
  induction pre as [| y pre IH]; cbn; intros Hs; [constructor |].
  inversion Hs as [| ? ? Hs' Hall]; subst.
  constructor; [| apply IH; exact Hs'].
  rewrite Forall_forall in Hall. apply Hall.
  apply in_or_app. right. left. reflexivity.
Qed.

Lemma sort_by_port m :
  exists out,
    sorted Z.leb key_port m = Ok out /\
    Permutation out m /\ StronglySorted port_le out.
Proof.
  destruct (sorted_spec Z.leb Z_leb_total Z_leb_trans port_of key_port m)
    as (out & Hrun & Hperm & Hsort & _).
  { apply Forall_forall. intros x _. reflexivity. }
  exists out. split; [exact Hrun |]. split; [exact Hperm |].
  eapply StronglySorted_impl; [| exact Hsort].
  intros x y H. unfold f_le in H. unfold port_le. apply Z.leb_le. exact H.
Qed.

Lemma tie_Z a b : tie Z.leb a b = Z.eqb a b.
Proof.
  unfold tie. destruct (Z.eqb_spec a b) as [-> | N].
  - rewrite Z.leb_refl. reflexivity.
  - destruct (Z.leb_spec a b), (Z.leb_spec b a); try reflexivity. lia.
Qed.

Lemma tie_string a b : tie String.leb a b = String.eqb a b.
Proof.
  unfold tie. destruct (String.eqb_spec a b) as [-> | N].
  - rewrite string_leb_refl. reflexivity.
  - destruct (String.leb a b) eqn:E1; [| reflexivity].
    destruct (String.leb b a) eqn:E2; [| reflexivity].
    exfalso. apply N. apply String.leb_antisym; assumption.
Qed.

Lemma sort_by_program m :
  exists out,
    sorted String.leb key_program m = Ok out /\
    Permutation out m /\ StronglySorted name_le out /\
    forall k, filter (fun x => String.eqb (name_key x) k) out =
              filter (fun x => String.eqb (name_key x) k) m.
Proof.
  destruct (sorted_spec String.leb String.leb_total
              (fun a b c => string_leb_trans a b c) name_key key_program m)
    as (out & Hrun & Hperm & Hsort & Hstable).
  { apply Forall_forall. intros x _. reflexivity. }
  exists out. split; [exact Hrun |]. split; [exact Hperm |].
  split; [exact Hsort |].
  intros k. specialize (Hstable k).
  rewrite <- !(filter_ext (fun x => tie String.leb (name_key x) k)
                          (fun x => String.eqb (name_key x) k)
                          (fun x => tie_string _ _)).
  exact Hstable.
Qed.

Lemma sort_by_pid m :
  Forall (fun x => pid_of x <> None) m ->
  exists out,
    sorted Z.leb key_pid m = Ok out /\
    Permutation out m /\ StronglySorted pid_le out /\
    forall k, filter (fun x => Z.eqb (pid_key x) k) out =
              filter (fun x => Z.eqb (pid_key x) k) m.
Proof.
  intros Hpid.
  destruct (sorted_spec Z.leb Z_leb_total Z_leb_trans pid_key key_pid m)
    as (out & Hrun & Hperm & Hsort & Hstable).
  { eapply Forall_impl; [| exact Hpid]. intros x Hx.
    unfold key_pid, pid_key, pid_of in *.
    destruct (fst (fst (snd x))); [reflexivity | contradiction]. }
  exists out. split; [exact Hrun |]. split; [exact Hperm |]. split.
  - eapply StronglySorted_impl; [| exact Hsort].
    intros x y H. unfold f_le in H. unfold pid_le. apply Z.leb_le. exact H.
  - intros k. specialize (Hstable k).
    rewrite <- !(filter_ext (fun x => tie Z.leb (pid_key x) k)
                            (fun x => Z.eqb (pid_key x) k)
                            (fun x => tie_Z _ _)).
    exact Hstable.
Qed.

Lemma sort_by_pid_raises m :
  Exists (fun x => pid_of x = None) m ->
  sorted Z.leb key_pid m = Raise TypeError.
Proof.
  intros Hex. unfold sorted.
  rewrite (decorate_raises pid_key key_pid TypeError m); [reflexivity | |].
  - apply Forall_forall. intros x _. unfold key_pid, pid_key, pid_of.
    destruct (fst (fst (snd x))); auto.
  - eapply Exists_impl; [| exact Hex]. intros x Hx.
    unfold key_pid, pid_of in *. rewrite Hx. reflexivity.
Qed.

Lemma sorted_distinct_strict (l : list (Z * entry)) :
  NoDup (map fst l) -> StronglySorted port_le l -> StronglySorted port_lt l.
Proof.
  induction l as [| x l IH]; cbn; intros Hnd Hs; [constructor |].
  inversion Hnd as [| ? ? Hnin Hnd']; subst.
  inversion Hs as [| ? ? Hs' Hall]; subst.
  constructor; [apply IH; assumption |].
  rewrite Forall_forall in *. intros y Hy.
  specialize (Hall y Hy). unfold port_le, port_lt, port_of in *.
  assert (fst x <> fst y).
  { intros E. apply Hnin. rewrite E. apply in_map. exact Hy. }
  lia.
Qed.

Lemma sort_by_port_strict m :
  NoDup (keys m) ->
  exists out,
    sorted Z.leb key_port m = Ok out /\
    Permutation out m /\ StronglySorted port_lt out.
Proof.
  intros Hnd. destruct (sort_by_port m) as (out & Hrun & Hperm & Hsort).
  exists out. split; [exact Hrun |]. split; [exact Hperm |].
  apply sorted_distinct_strict; [| exact Hsort].
  eapply Permutation_NoDup; [| exact Hnd].
  apply Permutation_map, Permutation_sym, Hperm.
Qed.

(** The mappings are dictionaries: no port occurs twice in either. *)
Lemma route_NoDup env c maps :
  NoDup (keys (fst maps)) /\ NoDup (keys (snd maps)) ->
  NoDup (keys (fst (route env maps c))) /\
  NoDup (keys (snd (route env maps c))).
Proof.
  destruct maps as [L N]. intros [HL HN]. cbn [fst snd] in *.
  unfold route, process_connection. cbn [fst snd].
  destruct (Psutil.status c =? "LISTEN"); cbn [fst snd].
  - split; [apply keys_setitem_NoDup; exact HL | exact HN].
  - split; [exact HL | apply keys_setitem_NoDup; exact HN].
Qed.

Lemma run_ok_surj {A} (r : result A * OutputManager * list event) a :
  result_of r = Ok a -> r = (Ok a, state_of r, trace_of r).
Proof. destruct r as [[? ?] ?]; cbn; intros ->; reflexivity. Qed.

Lemma classify_NoDup env lo pv conns :
  forall maps s maps' s' t,
    NoDup (keys (fst maps)) /\ NoDup (keys (snd maps)) ->
    for_each (classify_step env lo pv) conns maps s = (Ok maps', s', t) ->
    NoDup (keys (fst maps')) /\ NoDup (keys (snd maps')).
Proof.
  induction conns as [| c conns IH]; intros maps s maps' s' t Hnd Hrun.
  - cbn in Hrun. inversion Hrun; subst. exact Hnd.
  - cbn [for_each] in Hrun. rewrite run_bind, classify_step_run in Hrun.
    destruct (observed lo c).
    + destruct pv as [| pat]; [discriminate |].
      destruct (get_program_by_pid env (Psutil.pid c)) as [nm |];
        [| discriminate].
      destruct (keeps env pat c nm);
        apply (f_equal result_of) in Hrun; cbn [result_of fst] in Hrun.
      * eapply IH; [| apply run_ok_surj; exact Hrun].
        apply (route_NoDup env c maps Hnd).
      * eapply IH; [exact Hnd | apply run_ok_surj; exact Hrun].
    + apply (f_equal result_of) in Hrun; cbn [result_of fst] in Hrun.
      eapply IH; [exact Hnd | apply run_ok_surj; exact Hrun].
Qed.

(** *** C6: the output is non-decreasing in the key *)

(** C6.  The Port sort and the Program sort always return, a
    permutation of the mapping's items that is non-decreasing in the
    port, resp. in the program name with [''] standing for an absent
    name, so that no entry with a real name precedes one whose name is
    absent; the PID sort returns such a list, non-decreasing in the
    process ID, when every entry has one, and raises [TypeError] as soon
    as one entry has none. *)
Theorem sorter_nondecreasing :
  forall m : mapping,
    (exists out,
        sort_mapping "Port" m = Ok out /\
        Permutation out (items m) /\ StronglySorted port_le out) /\
    (exists out,
        sort_mapping "Program" m = Ok out /\
        Permutation out (items m) /\ StronglySorted name_le out /\
        forall pre x post,
          out = (pre ++ x :: post)%list -> name_of x = None ->
          Forall (fun y => name_key y = "") pre) /\
    (Forall (fun x => pid_of x <> None) (items m) ->
     exists out,
       sort_mapping "PID" m = Ok out /\
       Permutation out (items m) /\ StronglySorted pid_le out) /\
    (Exists (fun x => pid_of x = None) (items m) ->
     sort_mapping "PID" m = Raise TypeError).
Proof.
  intros m. unfold items. split; [| split; [| split]].
  - rewrite sort_mapping_Port. apply sort_by_port.
  - rewrite sort_mapping_Program.
    destruct (sort_by_program m) as (out & Hrun & Hperm & Hsort & _).
    exists out. split; [exact Hrun |]. split; [exact Hperm |].
    split; [exact Hsort |].
    intros pre x post -> Hx.
    eapply Forall_impl; [| apply (StronglySorted_before _ _ _ _ Hsort)].
    intros y Hy. unfold name_le in Hy.
    assert (Ex : name_key x = "") by (unfold name_key; rewrite Hx; reflexivity).
    rewrite Ex in Hy. apply string_leb_empty, Hy.
  - intros Hpid. rewrite sort_mapping_PID.
    destruct (sort_by_pid m Hpid) as (out & Hrun & Hperm & Hsort & _).
    exists out. auto.
  - intros Hex. rewrite sort_mapping_PID. apply sort_by_pid_raises, Hex.
Qed.

(** A mapping with one socket whose owner is not retrievable: the PID
    sort raises. *)
Lemma sorter_nondecreasing_witness :
  sort_mapping "PID"
    [(22%Z, (Some 700%Z, Some "sshd", None));
     (631%Z, (None, Some "python3", None))] = Raise TypeError.
Proof.
  apply (proj2 (proj2 (proj2 (sorter_nondecreasing
           [(22%Z, (Some 700%Z, Some "sshd", None));
            (631%Z, (None, Some "python3", None))])))).
  apply Exists_cons_tl, Exists_cons_hd. reflexivity.
Defined.

(** *** C7: ties *)

(** C7, as stated, fails: sorted by PID, the two sockets of process 100
    stay in the order in which they were observed, 443 before 80. *)
Lemma ties_by_port_as_stated_fails :
  exists L N s',
    classify (Example.world nginx_443_80) false (Bound None) nginx_443_80
             OutputManager_init = (Ok (L, N), s', []) /\
    ~ ties_by_port_as_stated "PID" L.
Proof.
  eexists _, _, _. split; [reflexivity |].
  intros H.
  specialize (H _ [] (443%Z, (Some 100%Z, Some "nginx", None)) []
                (80%Z, (Some 100%Z, Some "nginx", None)) []
                eq_refl eq_refl eq_refl).
  vm_compute in H. apply H. reflexivity.
Qed.

(** C7 (amended).  The sort has no secondary key and is stable: in PID
    mode (when every entry has a process ID) and in Program mode, the
    entries that share a primary key come out in the order in which
    the mapping lists them, which is the order in which their ports
    were first inserted; in Port mode, and for any other sort key, no
    two entries of a dictionary tie and the ports come out strictly
    ascending.  The mappings the loop builds are dictionaries. *)
Theorem ties_keep_insertion_order :
  forall m : mapping,
    (Forall (fun x => pid_of x <> None) (items m) ->
     exists out,
       sort_mapping "PID" m = Ok out /\
       forall k, filter (fun x => Z.eqb (pid_key x) k) out =
                 filter (fun x => Z.eqb (pid_key x) k) (items m)) /\
    (exists out,
        sort_mapping "Program" m = Ok out /\
        forall k, filter (fun x => String.eqb (name_key x) k) out =
                  filter (fun x => String.eqb (name_key x) k) (items m)) /\
    (forall w, w <> "PID" -> w <> "Program" -> NoDup (keys m) ->
     exists out, sort_mapping w m = Ok out /\ StronglySorted port_lt out) /\
    (forall env lo pv conns s L N s' t,
        classify env lo pv conns s = (Ok (L, N), s', t) ->
        NoDup (keys L) /\ NoDup (keys N)).
Proof.
  intros m. unfold items. split; [| split; [| split]].
  - intros Hpid. rewrite sort_mapping_PID.
    destruct (sort_by_pid m Hpid) as (out & Hrun & _ & _ & Hst).
    exists out. auto.
  - rewrite sort_mapping_Program.
    destruct (sort_by_program m) as (out & Hrun & _ & _ & Hst).
    exists out. auto.
  - intros w H1 H2 Hnd.
    destruct (sort_by_port_strict m Hnd) as (out & Hrun & _ & Hs).
    exists out. split; [| exact Hs].
    destruct (String.eqb_spec w "Port") as [-> | H3].
    + rewrite sort_mapping_Port. exact Hrun.
    + rewrite (sort_mapping_other w m H1 H3 H2). exact Hrun.
  - intros env lo pv conns s L N s' t Hrun.
    apply (classify_NoDup env lo pv conns ([], []) s (L, N) s' t);
      [| exact Hrun].
    split; constructor.
Qed.

(** The theorem at the two sockets of nginx, in PID mode: they tie,
    and come out as the mapping lists them. *)
Lemma ties_keep_insertion_order_witness :
  exists out,
    sort_mapping "PID"
      [(443%Z, (Some 100%Z, Some "nginx", None));
       (80%Z, (Some 100%Z, Some "nginx", None))] = Ok out /\
    filter (fun x => Z.eqb (pid_key x) 100) out =
    [(443%Z, (Some 100%Z, Some "nginx", None));
     (80%Z, (Some 100%Z, Some "nginx", None))].
Proof.
  destruct (ties_keep_insertion_order
              [(443%Z, (Some 100%Z, Some "nginx", None));
               (80%Z, (Some 100%Z, Some "nginx", None))]) as [H _].
  destruct H as (out & Hrun & Hst).
  - repeat constructor; discriminate.
  - exists out. split; [exact Hrun |]. rewrite Hst. reflexivity.
Defined.

(** *** C5: the default sort key *)

(** C5, as stated, fails for an omitted key: the parser's default is
    ['Program'], and curl on 443 is listed before nginx on 80. *)
Lemma omitted_key_sorts_by_port_fails :
  ~ omitted_key_sorts_by_port no_options nginx_80_curl_443.
Proof.
  intros H. destruct (H eq_refl eq_refl eq_refl) as (sort_by & out & Hk & Hrun & Hs).
  cbn in Hk. inversion Hk; subst sort_by.
  vm_compute in Hrun. inversion Hrun; subst out.
  inversion Hs as [| ? ? _ Hall]; subst.
  inversion Hall as [| ? ? Hle _]; subst.
  unfold port_le, port_of in Hle. cbn in Hle. lia.
Qed.

(** C5 (amended).  An omitted [-s] resolves to Program ordering (to PID
    or Port when the shorthand flag [-i] or [-p] is given); a sort key
    other than PID, Port and Program cannot come from the command line,
    where the parser rejects it, and when [get_port_program_mapping] is
    given one it sorts as for Port: the output is a permutation of the
    mapping's items in ascending order of port. *)
Theorem default_sort_key :
  forall (a : Args) (m : mapping) (w : string),
    (arg_sort a = None ->
     sort_of_args a =
       Some (if arg_pid a then "PID"
             else if arg_port a then "Port" else "Program")) /\
    (w <> "PID" -> w <> "Port" -> w <> "Program" ->
     parse_sort (Some w) = None /\
     sort_mapping w m = sort_mapping "Port" m /\
     exists out,
       sort_mapping w m = Ok out /\
       Permutation out (items m) /\ StronglySorted port_le out).
Proof.
  intros a m w. split.
  - intros Ho. unfold sort_of_args. rewrite Ho. reflexivity.
  - intros H1 H2 H3. split; [| split].
    + unfold parse_sort.
      destruct (String.eqb_spec w "PID"); [contradiction |].
      destruct (String.eqb_spec w "Port"); [contradiction |].
      destruct (String.eqb_spec w "Program"); [contradiction |].
      reflexivity.
    + rewrite (sort_mapping_other w m H1 H2 H3). reflexivity.
    + rewrite (sort_mapping_other w m H1 H2 H3). apply sort_by_port.
Qed.

(** The theorem at the empty command line and at the key ["Size"]. *)
Lemma default_sort_key_witness :
  sort_of_args no_options = Some "Program" /\
  sort_mapping "Size" nginx_80_curl_443 = sort_mapping "Port" nginx_80_curl_443.
Proof.
  destruct (default_sort_key no_options nginx_80_curl_443 "Size") as [H1 H2].
  split.
  - apply H1. reflexivity.
  - apply H2; discriminate.
Defined.

(** ** Stepping through a computation *)

Lemma run_gets {A B} (f : OutputManager -> A) (k : A -> M B) s :
  bind (gets f) k s = k (f s) s.
Proof. unfold bind, gets. destruct (k (f s) s) as [[? ?] ?]; reflexivity. Qed.

Lemma run_ret {A B} (a : A) (k : A -> M B) s : bind (ret a) k s = k a s.
Proof. unfold bind, ret. destruct (k a s) as [[? ?] ?]; reflexivity. Qed.

Lemma run_modify {B} (f : OutputManager -> OutputManager) (k : unit -> M B) s :
  bind (modify f) k s = k tt (f s).
Proof. unfold bind, modify. destruct (k tt (f s)) as [[? ?] ?]; reflexivity. Qed.

Lemma run_emit {B} (ev : event) (k : unit -> M B) s :
  bind (emit ev) k s =
  (result_of (k tt s), state_of (k tt s), ev :: trace_of (k tt s)).
Proof. unfold bind, emit. destruct (k tt s) as [[? ?] ?]; reflexivity. Qed.

Lemma run_lift_ok {A B} (a : A) (k : A -> M B) s :
  bind (lift (Ok a)) k s = k a s.
Proof. unfold bind, lift. destruct (k a s) as [[? ?] ?]; reflexivity. Qed.

Lemma run_lift_raise {A B} (e : exn) (k : A -> M B) s :
  bind (lift (Raise e)) k s = (Raise e, s, []).
Proof. reflexivity. Qed.

Lemma run_bind_assoc {A B C} (m : M A) (f : A -> M B) (g : B -> M C) s :
  bind (bind m f) g s = bind m (fun a => bind (f a) g) s.
Proof.
  unfold bind. destruct (m s) as [[[a | e] s1] t1]; [| reflexivity].
  destruct (f a s1) as [[[b | e] s2] t2]; [| reflexivity].
  destruct (g b s2) as [[r s3] t3]. rewrite app_assoc. reflexivity.
Qed.

(** ** Counting the header *)

Lemma count_headers_app t1 t2 :
  count_headers (t1 ++ t2)%list = (count_headers t1 + count_headers t2)%nat.
Proof. unfold count_headers. rewrite filter_app, length_app. reflexivity. Qed.

Lemma thrifty_bind {A B} (m : M A) (f : A -> M B) :
  thrifty m -> (forall a, thrifty (f a)) -> thrifty (bind m f).
Proof.
  intros Hm Hf s. rewrite run_bind. specialize (Hm s).
  destruct (m s) as [[[a | e] s1] t1];
    unfold trace_of, state_of in *; cbn [fst snd] in *; [| exact Hm].
  specialize (Hf a s1). unfold trace_of, state_of in Hf.
  rewrite count_headers_app. lia.
Qed.

Lemma thrifty_ret {A} (a : A) : thrifty (ret a).
Proof. intros s; cbn; lia. Qed.

Lemma thrifty_raise {A} e : thrifty (@raise A e).
Proof. intros s; cbn; lia. Qed.

Lemma thrifty_gets {A} (f : OutputManager -> A) : thrifty (gets f).
Proof. intros s; cbn; lia. Qed.

Lemma thrifty_lift {A} (r : result A) : thrifty (lift r).
Proof. intros s; cbn; lia. Qed.

Lemma thrifty_emit ev : is_header ev = false -> thrifty (emit ev).
Proof. intros H s. unfold count_headers. cbn. rewrite H. cbn. lia. Qed.

Lemma thrifty_modify f :
  (forall s, (budget (f s) <= budget s)%nat) -> thrifty (modify f).
Proof. intros H s. cbn. apply H. Qed.

Lemma thrifty_for_each {A B} (body : B -> A -> M A) l :
  (forall x acc, thrifty (body x acc)) ->
  forall acc, thrifty (for_each body l acc).
Proof.
  intros Hb. induction l as [| x l IH]; intros acc; cbn.
  - apply thrifty_ret.
  - apply thrifty_bind; [apply Hb | intros a; apply IH].
Qed.

Create HintDb thrift.

#[local] Hint Resolve thrifty_ret thrifty_raise thrifty_gets thrifty_lift
  : thrift.
#[local] Hint Extern 1 (thrifty (emit _)) =>
  apply thrifty_emit; reflexivity : thrift.
#[local] Hint Extern 1 (thrifty (modify _)) =>
  apply thrifty_modify; intros; unfold budget; cbn; lia : thrift.

Ltac thrift_step :=
  first
    [ solve [eauto with thrift]
    | progress intros
    | match goal with
      | |- thrifty (bind _ _) => apply thrifty_bind
      | |- thrifty (for_each _ _ _) => apply thrifty_for_each
      | |- thrifty (if ?b then _ else _) => destruct b
      | |- thrifty (match ?x with _ => _ end) => destruct x
      end ].

Ltac thrift := repeat thrift_step.

Lemma output_thrifty env port program pid fa dns :
  thrifty (output env port program pid fa dns).
Proof. unfold output. thrift. Qed.

#[local] Hint Resolve output_thrifty : thrift.

Lemma calculate_max_line_len_thrifty env conns dns :
  thrifty (calculate_max_line_len env conns dns).
Proof. unfold calculate_max_line_len. thrift. Qed.

(** Without [bHeader], [print_header] prints no header. *)
Lemma print_header_thrifty env state bState bSeparator :
  thrifty (print_header env state bState false bSeparator).
Proof. unfold print_header. thrift. Qed.

Lemma set_max_program_len_thrifty v : thrifty (set_max_program_len v).
Proof. unfold set_max_program_len. thrift. Qed.

Lemma compile_pattern_thrifty env regex : thrifty (compile_pattern env regex).
Proof. unfold compile_pattern. thrift. Qed.

#[local] Hint Resolve calculate_max_line_len_thrifty print_header_thrifty
  set_max_program_len_thrifty compile_pattern_thrifty : thrift.

Lemma classify_step_thrifty env lo pv c maps :
  thrifty (classify_step env lo pv c maps).
Proof. unfold classify_step, read_local, search. thrift. Qed.

#[local] Hint Resolve classify_step_thrifty : thrift.

(** ** Rendering a section *)

(** [print_section] as the pipeline calls it (no [bHeader], no
    [bSeparator]), step by step: the measuring pass; nothing more for an
    empty section; otherwise the flag is set if it was not, and the
    title, with header and separator exactly when the flag was not set,
    is printed unless the mode is bare. *)
Lemma print_section_run env state conns lb la bState dns s :
  print_section env state conns lb la bState false false dns s =
  match calculate_max_line_len env conns false s with
  | (Raise e, s1, t1) => (Raise e, s1, t1)
  | (Ok _, s1, t1) =>
      match conns with
      | [] => (Ok tt, s1, t1)
      | _ :: _ =>
          let first := negb (_header_displayed s1) in
          let s2 := if first then set_field_header_displayed true s1 else s1 in
          let r :=
            ((if negb (_bare s1)
              then print_header env state bState first first
              else ret tt) ;;;
             section_body env conns la dns) s2 in
          (result_of r, state_of r,
           (t1 ++ PrintBlank (if first then 0 else lb) :: trace_of r)%list)
      end
  end.
Proof.
  unfold print_section. rewrite run_bind.
  destruct (calculate_max_line_len env conns false s) as [[[[] | e] s1] t1];
    [| reflexivity].
  destruct conns as [| c conns]; [cbn; rewrite app_nil_r; reflexivity |].
  rewrite run_gets. cbv beta.
  destruct (_header_displayed s1) eqn:Ed; cbn [negb].
  - rewrite run_ret. cbv beta iota. rewrite run_emit. cbv beta.
    rewrite run_gets. cbv beta. reflexivity.
  - rewrite run_bind_assoc, run_modify. cbv beta. rewrite run_ret.
    cbv beta iota. rewrite run_emit. cbv beta. rewrite run_gets. cbv beta.
    reflexivity.
Qed.

Lemma print_header_state env state bState bHeader bSeparator :
  preserves eq (print_header env state bState bHeader bSeparator).
Proof.
  unfold print_header. pres; try (intros; congruence).
Qed.

Lemma print_header_bare env state bState bHeader bSeparator s :
  _bare s = true ->
  print_header env state bState bHeader bSeparator s = (Ok tt, s, []).
Proof.
  intros Hb. unfold print_header. rewrite !run_gets. cbv beta.
  rewrite Hb. reflexivity.
Qed.

(** The title of the first section: the state line, the header and the
    separator, in that order. *)
Lemma print_header_first env state s :
  _bare s = false ->
  print_header env state true true true s =
  let title :=
    PrintState (center (_max_line_len s) "-"
                       (state ++ " (" ++ formatted_now env ++ ")")) in
  match _header s with
  | Ok h => (Ok tt, s, [title; PrintHeader h; PrintSeparator (_separator s)])
  | Raise e => (Raise e, s, [title])
  end.
Proof.
  intros Hb. unfold print_header. rewrite !run_gets. cbv beta.
  rewrite Hb. rewrite run_emit. cbv beta.
  rewrite run_bind_assoc, run_gets. cbv beta.
  destruct (_header s) as [h | e].
  - rewrite run_bind_assoc, run_lift_ok, run_emit. cbv beta.
    unfold bind, gets, emit. reflexivity.
  - rewrite run_bind_assoc, run_lift_raise. reflexivity.
Qed.

Lemma print_header_at_most_one env state bState bHeader bSeparator s :
  (count_headers
     (trace_of (print_header env state bState bHeader bSeparator s)) <= 1)%nat.
Proof.
  unfold print_header. rewrite !run_gets. cbv beta.
  destruct (_bare s); [cbn; lia |].
  destruct bState, bHeader, bSeparator;
    repeat (rewrite ?run_bind_assoc, ?run_gets, ?run_ret, ?run_emit; cbv beta);
    try (destruct (_header s);
         rewrite ?run_bind_assoc, ?run_lift_ok, ?run_lift_raise, ?run_emit;
         cbv beta);
    repeat (rewrite ?run_bind_assoc, ?run_gets, ?run_ret, ?run_emit; cbv beta);
    unfold trace_of, gets, emit, ret, count_headers; cbn [snd filter is_header];
    cbn; lia.
Qed.

Lemma print_lines_thrifty env conns dns : thrifty (print_lines env conns dns).
Proof. unfold print_lines. thrift. Qed.

#[local] Hint Resolve print_lines_thrifty : thrift.

Lemma section_body_thrifty env conns la dns :
  thrifty (section_body env conns la dns).
Proof. unfold section_body. thrift. Qed.

#[local] Hint Resolve section_body_thrifty : thrift.

(** A section, as the pipeline prints it, pays for its header. *)
Lemma budget_le_1 s : (budget s <= 1)%nat.
Proof. unfold budget. destruct (_header_displayed s); lia. Qed.

Lemma print_section_thrifty env state conns lb la bState dns :
  thrifty (print_section env state conns lb la bState false false dns).
Proof.
  intros s. rewrite print_section_run.
  pose proof (calculate_max_line_len_thrifty env conns false s) as Hc.
  destruct (calculate_max_line_len env conns false s) as [[[[] | e] s1] t1];
    [| exact Hc].
  destruct conns as [| c conns]; [exact Hc |].
  cbv zeta. unfold trace_of, state_of in *. cbn [fst snd] in *.
  rewrite count_headers_app.
  change (count_headers (?ev :: ?t))
    with ((if is_header ev then 1 else 0) + count_headers t)%nat.
  cbn [is_header].
  pose proof (budget_le_1 s) as Hs.
  destruct (_header_displayed s1) eqn:Ed; cbn [negb].
  - (* the flag was set: no header *)
    assert (Hr : thrifty
              ((if negb (_bare s1)
                then print_header env state bState false false else ret tt) ;;;
               section_body env (c :: conns) la dns)) by thrift.
    specialize (Hr s1). unfold trace_of, state_of in Hr. lia.
  - (* the flag is set now: at most the header of this title *)
    assert (H1 : budget s1 = 1%nat) by (unfold budget; rewrite Ed; reflexivity).
    set (s2 := set_field_header_displayed true s1).
    assert (H2 : budget s2 = 0%nat) by reflexivity.
    rewrite run_bind.
    assert (Hh : (count_headers
                    (trace_of
                       ((if negb (_bare s1)
                         then print_header env state bState true true
                         else ret tt) s2)) <= 1)%nat /\
                 state_of
                   ((if negb (_bare s1)
                     then print_header env state bState true true
                     else ret tt) s2) = s2).
    { destruct (negb (_bare s1)).
      - split; [apply print_header_at_most_one |].
        symmetry. apply print_header_state.
      - split; [cbn; lia | reflexivity]. }
    destruct Hh as [Hcount Hstate].
    destruct ((if negb (_bare s1)
               then print_header env state bState true true else ret tt) s2)
      as [[[[] | e] s3] t3];
      unfold trace_of, state_of in *; cbn [fst snd] in *; subst s3.
    + pose proof (section_body_thrifty env (c :: conns) la dns s2) as Hb.
      unfold trace_of, state_of in Hb. rewrite count_headers_app. lia.
    + lia.
Qed.

Lemma get_port_program_mapping_thrifty env sort_by bare lo dns regex :
  thrifty (get_port_program_mapping env sort_by bare lo dns regex).
Proof.
  unfold get_port_program_mapping, set_bare, classify.
  pose proof print_section_thrifty. thrift.
Qed.

#[local] Hint Resolve get_port_program_mapping_thrifty : thrift.

(** The wait prints nothing and leaves the state alone, however it
    ends. *)
Lemma sleep_silent env secs s :
  state_of (sleep env secs s) = s /\ trace_of (sleep env secs s) = [].
Proof.
  unfold sleep.
  destruct (Z.ltb secs 0); [split; reflexivity |].
  destruct (Z.ltb (2 ^ 63 - 1) (secs * 10 ^ 9)); [split; reflexivity |].
  destruct (os_sleep env secs); split; reflexivity.
Qed.

Lemma sleep_thrifty env secs : thrifty (sleep env secs).
Proof.
  intros s. destruct (sleep_silent env secs s) as [-> ->]. cbn. lia.
Qed.

#[local] Hint Resolve sleep_thrifty : thrift.

Lemma refresh_loop_thrifty sort_by a worlds :
  thrifty (refresh_loop sort_by a worlds).
Proof. induction worlds as [| env worlds IH]; cbn; thrift. Qed.

(** *** Bare mode *)

Lemma bare_quiet_bind {A B} (m : M A) (f : A -> M B) :
  bare_quiet m -> (forall a, bare_quiet (f a)) -> bare_quiet (bind m f).
Proof.
  intros Hm Hf s Hb. rewrite run_bind. specialize (Hm s Hb).
  destruct (m s) as [[[a | e] s1] t1];
    unfold trace_of, state_of in *; cbn [fst snd] in *; [| exact Hm].
  destruct Hm as [Hm1 Hm2]. specialize (Hf a s1 Hm2).
  unfold trace_of, state_of in Hf. rewrite count_headers_app. split; [lia |].
  apply Hf.
Qed.

Lemma bare_quiet_ret {A} (a : A) : bare_quiet (ret a).
Proof. intros s Hb; split; [reflexivity | exact Hb]. Qed.

Lemma bare_quiet_raise {A} e : bare_quiet (@raise A e).
Proof. intros s Hb; split; [reflexivity | exact Hb]. Qed.

Lemma bare_quiet_gets {A} (f : OutputManager -> A) : bare_quiet (gets f).
Proof. intros s Hb; split; [reflexivity | exact Hb]. Qed.

Lemma bare_quiet_lift {A} (r : result A) : bare_quiet (lift r).
Proof. intros s Hb; split; [reflexivity | exact Hb]. Qed.

Lemma bare_quiet_emit ev : is_header ev = false -> bare_quiet (emit ev).
Proof.
  intros H s Hb. split; [| exact Hb].
  unfold count_headers. cbn. rewrite H. reflexivity.
Qed.

Lemma bare_quiet_modify f :
  (forall s, _bare s = true -> _bare (f s) = true) -> bare_quiet (modify f).
Proof. intros H s Hb. split; [reflexivity | apply H, Hb]. Qed.

Lemma bare_quiet_for_each {A B} (body : B -> A -> M A) l :
  (forall x acc, bare_quiet (body x acc)) ->
  forall acc, bare_quiet (for_each body l acc).
Proof.
  intros Hb. induction l as [| x l IH]; intros acc; cbn.
  - apply bare_quiet_ret.
  - apply bare_quiet_bind; [apply Hb | intros a; apply IH].
Qed.

Create HintDb quiet.

#[local] Hint Resolve bare_quiet_ret bare_quiet_raise bare_quiet_gets
  bare_quiet_lift : quiet.
#[local] Hint Extern 1 (bare_quiet (emit _)) =>
  apply bare_quiet_emit; reflexivity : quiet.
#[local] Hint Extern 1 (bare_quiet (modify _)) =>
  apply bare_quiet_modify; intros; cbn; assumption : quiet.

Ltac quiet_step :=
  first
    [ solve [eauto with quiet]
    | progress intros
    | match goal with
      | |- bare_quiet (bind _ _) => apply bare_quiet_bind
      | |- bare_quiet (for_each _ _ _) => apply bare_quiet_for_each
      | |- bare_quiet (if ?b then _ else _) => destruct b
      | |- bare_quiet (match ?x with _ => _ end) => destruct x
      end ].

Ltac quiet := repeat quiet_step.

Lemma output_bare_quiet env port program pid fa dns :
  bare_quiet (output env port program pid fa dns).
Proof. unfold output. quiet. Qed.

#[local] Hint Resolve output_bare_quiet : quiet.

Lemma calculate_max_line_len_bare_quiet env conns dns :
  bare_quiet (calculate_max_line_len env conns dns).
Proof. unfold calculate_max_line_len. quiet. Qed.

Lemma section_body_bare_quiet env conns la dns :
  bare_quiet (section_body env conns la dns).
Proof. unfold section_body, print_lines. quiet. Qed.

Lemma classify_step_bare_quiet env lo pv c maps :
  bare_quiet (classify_step env lo pv c maps).
Proof.
  unfold classify_step, read_local, search, set_max_program_len. quiet.
Qed.

Lemma compile_pattern_bare_quiet env regex :
  bare_quiet (compile_pattern env regex).
Proof. unfold compile_pattern. quiet. Qed.

#[local] Hint Resolve calculate_max_line_len_bare_quiet
  section_body_bare_quiet classify_step_bare_quiet
  compile_pattern_bare_quiet : quiet.

Lemma print_section_bare_quiet env state conns lb la bState dns :
  bare_quiet (print_section env state conns lb la bState false false dns).
Proof.
  intros s Hb. rewrite print_section_run.
  pose proof (calculate_max_line_len_bare_quiet env conns false s Hb) as Hc.
  destruct (calculate_max_line_len env conns false s) as [[[[] | e] s1] t1];
    [| exact Hc].
  destruct conns as [| c conns]; [exact Hc |].
  unfold trace_of, state_of in Hc. cbn [fst snd] in Hc.
  destruct Hc as [Hc1 Hc2]. cbv zeta. rewrite Hc2. cbn [negb].
  rewrite run_ret.
  set (s2 := if negb (_header_displayed s1)
             then set_field_header_displayed true s1 else s1).
  assert (Hb2 : _bare s2 = true).
  { unfold s2. destruct (negb (_header_displayed s1)); exact Hc2. }
  destruct (section_body_bare_quiet env (c :: conns) la dns s2 Hb2)
    as [Hq1 Hq2].
  unfold trace_of, state_of in *. cbn [fst snd].
  rewrite count_headers_app.
  change (count_headers (?ev :: ?t))
    with ((if is_header ev then 1 else 0) + count_headers t)%nat.
  cbn [is_header]. split; [lia | exact Hq2].
Qed.

#[local] Hint Resolve print_section_bare_quiet : quiet.

(** A tick in bare mode prints no header, whatever the state before. *)
Lemma get_port_program_mapping_bare env sort_by lo dns regex s :
  count_headers
    (trace_of (get_port_program_mapping env sort_by true lo dns regex s))
  = 0%nat /\
  _bare (state_of (get_port_program_mapping env sort_by true lo dns regex s))
  = true.
Proof.
  unfold get_port_program_mapping, set_bare. rewrite run_modify.
  match goal with
  | |- context [trace_of (?m ?s0)] =>
      assert (Hq : bare_quiet m) by (unfold classify; quiet);
      exact (Hq s0 eq_refl)
  end.
Qed.

Lemma refresh_loop_bare sort_by a worlds :
  arg_bare a = true ->
  forall s, count_headers (trace_of (refresh_loop sort_by a worlds s)) = 0%nat.
Proof.
  intros Hb. induction worlds as [| env worlds IH]; intros s; [reflexivity |].
  cbn [refresh_loop]. rewrite Hb, run_bind.
  destruct (get_port_program_mapping_bare env sort_by (arg_listening a)
              (arg_dns a) (arg_regex a) s) as [H1 _].
  destruct (get_port_program_mapping env sort_by true (arg_listening a)
              (arg_dns a) (arg_regex a) s) as [[[maps | e] s1] t1];
    unfold trace_of in *; cbn [fst snd] in *; [| exact H1].
  rewrite count_headers_app, H1.
  destruct (arg_continuous a) as [secs |]; [| reflexivity].
  rewrite run_bind. destruct (sleep_silent env secs s1) as [Hs Ht].
  destruct (sleep env secs s1) as [[[[] | e] s2] t2];
    unfold state_of, trace_of in Hs, Ht; cbn [fst snd] in *; subst;
    [| reflexivity].
  cbn [app]. apply IH.
Qed.

(** *** The first section that has an entry *)

Lemma same_flags_refl s : same_flags s s.
Proof. split; reflexivity. Qed.

Lemma same_flags_trans s1 s2 s3 :
  same_flags s1 s2 -> same_flags s2 s3 -> same_flags s1 s3.
Proof. unfold same_flags. intros [? ?] [? ?]. split; congruence. Qed.

#[local] Hint Resolve same_flags_refl same_flags_trans : pres.
#[local] Hint Extern 1 (same_flags _ _) =>
  unfold same_flags; cbn; split; reflexivity : pres.

Lemma output_same_flags env port program pid fa dns :
  preserves same_flags (output env port program pid fa dns).
Proof. unfold output. pres. Qed.

#[local] Hint Resolve output_same_flags : pres.

Lemma calculate_max_line_len_same_flags env conns dns :
  preserves same_flags (calculate_max_line_len env conns dns).
Proof. unfold calculate_max_line_len. pres. Qed.

Lemma section_body_same_flags env conns la dns :
  preserves same_flags (section_body env conns la dns).
Proof. unfold section_body, print_lines. pres. Qed.

(** An empty section: nothing is printed, no resolver is called, and
    the flag stays as it is, whatever the arguments. *)
Lemma print_section_empty env state lb la bState bHeader bSeparator dns s :
  print_section env state [] lb la bState bHeader bSeparator dns s =
  (Ok tt, set_field_max_line_len 0 s, []).
Proof. reflexivity. Qed.

(** The first section with an entry, outside bare mode: when it is
    rendered, its output is the measuring pass's lookups, then the
    title line, the header and the separator, then the lines. *)
Lemma print_section_first env state c conns lb la dns s :
  _bare s = false -> _header_displayed s = false ->
  result_of (print_section env state (c :: conns) lb la true false false dns s)
  = Ok tt ->
  exists lookups title h sep lines,
    trace_of
      (print_section env state (c :: conns) lb la true false false dns s) =
    (lookups ++
     [PrintBlank 0; PrintState title; PrintHeader h; PrintSeparator sep] ++
     lines)%list /\
    count_headers lookups = 0%nat /\ count_headers lines = 0%nat /\
    _header_displayed
      (state_of
         (print_section env state (c :: conns) lb la true false false dns s))
    = true.
Proof.
  intros Hb Hd. rewrite print_section_run.
  pose proof (calculate_max_line_len_same_flags env (c :: conns) false s) as Hf.
  pose proof (calculate_max_line_len_thrifty env (c :: conns) false s) as Hc.
  destruct (calculate_max_line_len env (c :: conns) false s)
    as [[[[] | e] s1] t1]; [| discriminate].
  unfold state_of, trace_of, same_flags in Hf, Hc. cbn [fst snd] in Hf, Hc.
  destruct Hf as [Hf1 Hf2]. rewrite Hb in Hf1. rewrite Hd in Hf2.
  rewrite <- Hf1, <- Hf2. cbn [negb]. cbv zeta.
  set (s2 := set_field_header_displayed true s1).
  assert (Hb2 : _bare s2 = false) by (symmetry; exact Hf1).
  rewrite run_bind, (print_header_first env state s2 Hb2). cbv zeta.
  destruct (_header s2) as [h | e]; [| discriminate].
  intros _.
  pose proof (section_body_thrifty env (c :: conns) la dns s2) as Hbody.
  pose proof (section_body_same_flags env (c :: conns) la dns s2) as Hflags.
  exists t1, (center (_max_line_len s2) "-"
                     (state ++ " (" ++ formatted_now env ++ ")")),
    h, (_separator s2), (trace_of (section_body env (c :: conns) la dns s2)).
  unfold trace_of, state_of in *. cbn [fst snd] in *.
  split; [reflexivity |]. split; [| split].
  - unfold budget in Hc. rewrite <- Hf2, Hd in Hc. lia.
  - change (budget s2) with 0%nat in Hbody. lia.
  - destruct Hflags as [_ Hfl]. rewrite <- Hfl. reflexivity.
Qed.

(** *** The header over a run *)

Lemma header_ok s :
  (0 <= _max_program_len s)%Z -> exists h, _header s = Ok h.
Proof.
  intros Hw. unfold _header, _formatter. cbn [app format format_value].
  destruct (Z.ltb_spec (_max_program_len s) 0) as [Hlt | _]; [lia |].
  eexists. reflexivity.
Qed.

Lemma print_header_later env state s :
  _bare s = false ->
  print_header env state true false false s =
  (Ok tt, s,
   [PrintState (center (_max_line_len s) "-"
                       (state ++ " (" ++ formatted_now env ++ ")"))]).
Proof.
  intros Hb. unfold print_header. rewrite !run_gets. cbv beta.
  rewrite Hb. rewrite run_emit. cbv beta. rewrite run_ret. reflexivity.
Qed.

Lemma no_heading_no_header t :
  filter is_heading t = [] -> count_headers t = 0%nat.
Proof.
  unfold count_headers. induction t as [| ev t IH]; [reflexivity |].
  cbn [filter]. unfold is_heading at 1.
  destruct (is_title ev), (is_header ev); cbn [orb]; intros H;
    try discriminate H.
  apply IH, H.
Qed.

Lemma no_heading_no_title t :
  filter is_heading t = [] -> filter is_title t = [].
Proof.
  induction t as [| ev t IH]; [reflexivity |].
  cbn [filter]. unfold is_heading at 1.
  destruct (is_title ev), (is_header ev); cbn [orb]; intros H;
    try discriminate H.
  apply IH, H.
Qed.

Lemma untitled_bind {A B} (m : M A) (f : A -> M B) :
  untitled m -> (forall a, untitled (f a)) -> untitled (bind m f).
Proof.
  intros Hm Hf s. rewrite run_bind. specialize (Hm s).
  destruct (m s) as [[[a | e] s1] t1];
    unfold trace_of in *; cbn [fst snd] in *; [| exact Hm].
  specialize (Hf a s1). unfold trace_of in Hf.
  rewrite filter_app, Hm, Hf. reflexivity.
Qed.

Lemma untitled_ret {A} (a : A) : untitled (ret a).
Proof. intros s; reflexivity. Qed.

Lemma untitled_raise {A} e : untitled (@raise A e).
Proof. intros s; reflexivity. Qed.

Lemma untitled_gets {A} (f : OutputManager -> A) : untitled (gets f).
Proof. intros s; reflexivity. Qed.

Lemma untitled_lift {A} (r : result A) : untitled (lift r).
Proof. intros s; reflexivity. Qed.

Lemma untitled_modify f : untitled (modify f).
Proof. intros s; reflexivity. Qed.

Lemma untitled_emit ev : is_heading ev = false -> untitled (emit ev).
Proof. intros H s. cbn. rewrite H. reflexivity. Qed.

Lemma untitled_for_each {A B} (body : B -> A -> M A) l :
  (forall x acc, untitled (body x acc)) ->
  forall acc, untitled (for_each body l acc).
Proof.
  intros Hb. induction l as [| x l IH]; intros acc; cbn.
  - apply untitled_ret.
  - apply untitled_bind; [apply Hb | intros a; apply IH].
Qed.

Create HintDb untitle.

#[local] Hint Resolve untitled_ret untitled_raise untitled_gets untitled_lift
  untitled_modify : untitle.
#[local] Hint Extern 1 (untitled (emit _)) =>
  apply untitled_emit; reflexivity : untitle.

Ltac untitle_step :=
  first
    [ solve [eauto with untitle]
    | progress intros
    | match goal with
      | |- untitled (bind _ _) => apply untitled_bind
      | |- untitled (for_each _ _ _) => apply untitled_for_each
      | |- untitled (if ?b then _ else _) => destruct b
      | |- untitled (match ?x with _ => _ end) => destruct x
      end ].

Ltac untitle := repeat untitle_step.

Lemma output_untitled env port program pid fa dns :
  untitled (output env port program pid fa dns).
Proof. unfold output. untitle. Qed.

#[local] Hint Resolve output_untitled : untitle.

Lemma calculate_max_line_len_untitled env conns dns :
  untitled (calculate_max_line_len env conns dns).
Proof. unfold calculate_max_line_len. untitle. Qed.

Lemma section_body_untitled env conns la dns :
  untitled (section_body env conns la dns).
Proof. unfold section_body, print_lines. untitle. Qed.

Lemma set_max_program_len_untitled v : untitled (set_max_program_len v).
Proof. unfold set_max_program_len. untitle. Qed.

Lemma compile_pattern_untitled env regex :
  untitled (compile_pattern env regex).
Proof. unfold compile_pattern. untitle. Qed.

#[local] Hint Resolve calculate_max_line_len_untitled section_body_untitled
  set_max_program_len_untitled compile_pattern_untitled : untitle.

Lemma classify_untitled env lo pv conns :
  untitled (classify env lo pv conns).
Proof. unfold classify, classify_step, read_local, search. untitle. Qed.

(** The flags outside the sections. *)
Lemma set_max_program_len_same_flags v :
  preserves same_flags (set_max_program_len v).
Proof.
  intros s. unfold set_max_program_len, same_flags.
  destruct v as [n | str |]; cbn; try (split; reflexivity).
  - destruct (Z.gtb n (_max_program_len s)); cbn; split; reflexivity.
  - destruct (Z.gtb (Z.of_nat (String.length str)) (_max_program_len s));
      cbn; split; reflexivity.
Qed.

#[local] Hint Resolve set_max_program_len_same_flags : pres.

Lemma classify_same_flags env lo pv conns :
  preserves same_flags (classify env lo pv conns).
Proof. unfold classify, classify_step. pres. Qed.

Lemma classify_grows env lo pv conns :
  preserves width_le (classify env lo pv conns).
Proof. unfold classify. pres. Qed.

(** The mode inside a section. *)
Lemma same_mode_refl s : same_mode s s.
Proof. reflexivity. Qed.

Lemma same_mode_trans s1 s2 s3 :
  same_mode s1 s2 -> same_mode s2 s3 -> same_mode s1 s3.
Proof. unfold same_mode. congruence. Qed.

#[local] Hint Resolve same_mode_refl same_mode_trans : pres.
#[local] Hint Extern 1 (same_mode _ _) =>
  unfold same_mode; cbn; reflexivity : pres.

Lemma output_same_mode env port program pid fa dns :
  preserves same_mode (output env port program pid fa dns).
Proof. unfold output. pres. Qed.

#[local] Hint Resolve output_same_mode : pres.

Lemma print_section_same_mode env state conns lb la b1 b2 b3 dns :
  preserves same_mode (print_section env state conns lb la b1 b2 b3 dns).
Proof. unfold print_section, calculate_max_line_len, print_header. pres. Qed.

(** Pieces of a run, put together. *)
Lemma heading_step_plain d t :
  filter is_heading t = [] -> heading_step d d t.
Proof.
  intros H. unfold heading_step. destruct d.
  - split; [reflexivity | apply no_heading_no_header, H].
  - left. split; [reflexivity | exact H].
Qed.

Lemma heading_step_app d0 d1 d2 t1 t2 :
  heading_step d0 d1 t1 -> heading_step d1 d2 t2 ->
  heading_step d0 d2 (t1 ++ t2)%list.
Proof.
  unfold heading_step. destruct d0.
  - intros [-> H1] [-> H2]. split; [reflexivity |].
    rewrite count_headers_app. lia.
  - intros [[-> H1] | [-> H1]].
    + intros [[-> H2] | [-> H2]].
      * left. split; [reflexivity |]. rewrite filter_app, H1, H2. reflexivity.
      * right. split; [reflexivity |].
        destruct H2 as (pre & title & h & sep & post & -> & Hpre & Hpost).
        exists (t1 ++ pre)%list, title, h, sep, post.
        rewrite app_assoc. split; [reflexivity |].
        split; [rewrite filter_app, H1, Hpre; reflexivity | exact Hpost].
    + intros [-> H2]. right. split; [reflexivity |].
      destruct H1 as (pre & title & h & sep & post & -> & Hpre & Hpost).
      exists pre, title, h, sep, (post ++ t2)%list.
      split; [rewrite <- app_assoc; reflexivity |].
      split; [exact Hpre | rewrite count_headers_app; lia].
Qed.

Lemma orderly_bind {A B} (m : M A) (f : A -> M B) :
  orderly m -> (forall a, orderly (f a)) -> orderly (bind m f).
Proof.
  intros Hm Hf s Hb Hw. rewrite run_bind. specialize (Hm s Hb Hw).
  destruct (m s) as [[[a | e] s1] t1];
    unfold trace_of, state_of in *; cbn [fst snd] in *; [| exact Hm].
  destruct Hm as (Hb1 & Hw1 & H1). specialize (Hf a s1 Hb1 Hw1).
  unfold trace_of, state_of in Hf. destruct Hf as (Hb2 & Hw2 & H2).
  split; [exact Hb2 |]. split; [exact Hw2 |].
  eapply heading_step_app; eassumption.
Qed.

Lemma orderly_plain {A} (m : M A) :
  untitled m -> preserves same_flags m -> preserves width_le m -> orderly m.
Proof.
  intros Hu Hf Hle s Hb Hw. destruct (Hf s) as [Hf1 Hf2].
  specialize (Hle s). unfold width_le in Hle.
  split; [congruence |]. split; [lia |].
  rewrite <- Hf2. apply heading_step_plain, Hu.
Qed.

(** A section outside bare mode: with the flag set it prints no
    header; with the flag unset it prints nothing that heads a section
    (it is empty, or the measuring pass raises) or else its title line,
    the header and the separator, and sets the flag. *)
Lemma print_section_orderly env state conns lb la dns :
  orderly (print_section env state conns lb la true false false dns).
Proof.
  intros s Hb Hw.
  pose proof (print_section_keeps_width env state conns lb la
                true false false dns s) as Hle.
  pose proof (print_section_same_mode env state conns lb la
                true false false dns s) as Hmode.
  unfold width_le in Hle. unfold same_mode in Hmode.
  split; [congruence |]. split; [lia |].
  destruct (_header_displayed s) eqn:Ed.
  - (* the flag is set *)
    pose proof (print_section_thrifty env state conns lb la true dns s) as Ht.
    unfold budget in Ht at 2. rewrite Ed in Ht. unfold budget in Ht.
    cbn [heading_step].
    destruct (_header_displayed
                (state_of (print_section env state conns lb la
                             true false false dns s)));
      [split; [reflexivity | lia] | lia].
  - (* the flag is unset *)
    clear Hle Hmode. rewrite print_section_run.
    pose proof (calculate_max_line_len_same_flags env conns false s) as Hf.
    pose proof (calculate_max_line_len_same_width env conns false s) as Hwe.
    pose proof (calculate_max_line_len_untitled env conns false s) as Hu.
    destruct (calculate_max_line_len env conns false s)
      as [[[[] | e] s1] t1];
      unfold state_of, trace_of, same_flags, width_eq in Hf, Hwe, Hu;
      cbn [fst snd] in Hf, Hwe, Hu; destruct Hf as [Hf1 Hf2];
      [| left; split; [cbn; congruence | exact Hu]].
    destruct conns as [| c conns];
      [left; split; [cbn; congruence | exact Hu] |].
    rewrite <- Hf2, Ed, <- Hf1, Hb. cbn [negb]. cbv zeta.
    set (s2 := set_field_header_displayed true s1).
    assert (Hb2 : _bare s2 = false) by (cbn; congruence).
    assert (Hw2 : (0 <= _max_program_len s2)%Z) by (cbn; lia).
    destruct (header_ok s2 Hw2) as [h Hh].
    rewrite run_bind, (print_header_first env state s2 Hb2), Hh. cbv zeta.
    pose proof (section_body_same_flags env (c :: conns) la dns s2) as Hsf.
    pose proof (section_body_untitled env (c :: conns) la dns s2) as Hbu.
    destruct Hsf as [_ Hsf]. unfold state_of, trace_of in *.
    cbn [fst snd] in *. right. split; [rewrite <- Hsf; reflexivity |].
    exists (t1 ++ [PrintBlank 0])%list,
      (center (_max_line_len s2) "-"
              (state ++ " (" ++ formatted_now env ++ ")")),
      h, (_separator s2),
      (snd (section_body env (c :: conns) la dns s2)).
    split; [rewrite <- app_assoc; reflexivity |].
    split; [rewrite filter_app, Hu; reflexivity |].
    apply no_heading_no_header, Hbu.
Qed.

(** A tick outside bare mode. *)
Lemma get_port_program_mapping_orderly env sort_by lo dns regex s :
  (0 <= _max_program_len s)%Z ->
  _bare (state_of (get_port_program_mapping env sort_by false lo dns regex s))
  = false /\
  (0 <= _max_program_len
          (state_of
             (get_port_program_mapping env sort_by false lo dns regex s)))%Z /\
  heading_step
    (_header_displayed s)
    (_header_displayed
       (state_of (get_port_program_mapping env sort_by false lo dns regex s)))
    (trace_of (get_port_program_mapping env sort_by false lo dns regex s)).
Proof.
  intros Hw. unfold get_port_program_mapping, set_bare. rewrite run_modify.
  match goal with
  | |- context [state_of (?m (set_field_bare false s))] =>
      assert (Ho : orderly m)
  end.
  { apply orderly_bind;
      [apply orderly_plain;
         [apply compile_pattern_untitled
         | apply preserves_compile_pattern;
             [apply same_flags_refl | apply same_flags_trans]
         | apply preserves_compile_pattern;
             [apply width_le_refl | apply width_le_trans]] |].
    intros pv. apply orderly_bind;
      [apply orderly_plain;
         [apply classify_untitled | apply classify_same_flags
         | apply classify_grows] |].
    intros maps. apply orderly_bind;
      [apply orderly_plain;
         [apply untitled_lift
         | apply preserves_lift, same_flags_refl
         | apply preserves_lift, width_le_refl] |].
    intros sl. apply orderly_bind;
      [apply orderly_plain;
         [apply untitled_lift
         | apply preserves_lift, same_flags_refl
         | apply preserves_lift, width_le_refl] |].
    intros sn. apply orderly_bind; [apply print_section_orderly |].
    intros _. apply orderly_bind.
    - destruct (negb lo); [apply print_section_orderly |].
      apply orderly_plain;
        [apply untitled_ret | apply preserves_ret, same_flags_refl
        | apply preserves_ret, width_le_refl].
    - intros _. apply orderly_plain;
        [apply untitled_ret | apply preserves_ret, same_flags_refl
        | apply preserves_ret, width_le_refl]. }
  exact (Ho (set_field_bare false s) eq_refl Hw).
Qed.

(** A run outside bare mode, from any state of non-negative width. *)
Lemma refresh_loop_heading sort_by a worlds :
  arg_bare a = false ->
  forall s,
    (0 <= _max_program_len s)%Z ->
    heading_step
      (_header_displayed s)
      (_header_displayed (state_of (refresh_loop sort_by a worlds s)))
      (trace_of (refresh_loop sort_by a worlds s)).
Proof.
  intros Hb. induction worlds as [| env worlds IH]; intros s Hw.
  - apply heading_step_plain. reflexivity.
  - cbn [refresh_loop]. rewrite Hb, run_bind.
    destruct (get_port_program_mapping_orderly env sort_by (arg_listening a)
                (arg_dns a) (arg_regex a) s Hw) as (_ & Hw1 & H1).
    destruct (get_port_program_mapping env sort_by false (arg_listening a)
                (arg_dns a) (arg_regex a) s) as [[[maps | e] s1] t1];
      unfold state_of, trace_of in *; cbn [fst snd] in *; [| exact H1].
    destruct (arg_continuous a) as [secs |].
    + rewrite run_bind. destruct (sleep_silent env secs s1) as [Hs Ht].
      destruct (sleep env secs s1) as [[[[] | e] s2] t2];
        unfold state_of, trace_of in Hs, Ht; cbn [fst snd] in *; subst.
      * cbn [app]. eapply heading_step_app; [exact H1 | apply IH, Hw1].
      * rewrite app_nil_r. exact H1.
    + cbn [ret fst snd]. rewrite app_nil_r. exact H1.
Qed.

(** Outside bare mode a section with an entry that is rendered prints
    its title line, once. *)
Lemma print_section_titled env state c conns lb la dns s :
  _bare s = false ->
  result_of (print_section env state (c :: conns) lb la true false false dns s)
  = Ok tt ->
  List.length
    (filter is_title
       (trace_of
          (print_section env state (c :: conns) lb la true false false dns s)))
  = 1%nat.
Proof.
  intros Hb. rewrite print_section_run.
  pose proof (calculate_max_line_len_same_flags env (c :: conns) false s) as Hf.
  pose proof (calculate_max_line_len_untitled env (c :: conns) false s) as Hu.
  destruct (calculate_max_line_len env (c :: conns) false s)
    as [[[[] | e] s1] t1]; [| discriminate].
  unfold state_of, trace_of, same_flags in Hf, Hu. cbn [fst snd] in Hf, Hu.
  destruct Hf as [Hf1 _]. rewrite <- Hf1, Hb. cbn [negb]. cbv zeta.
  apply no_heading_no_title in Hu.
  assert (Hbody : forall s2,
             filter is_title
               (trace_of (section_body env (c :: conns) la dns s2)) = []).
  { intros s2. apply no_heading_no_title, section_body_untitled. }
  destruct (_header_displayed s1); cbn [negb].
  - rewrite run_bind, (print_header_later env state s1);
      [| congruence].
    intros _. unfold trace_of in *. cbn [fst snd].
    rewrite filter_app, Hu. cbn [app filter is_title].
    rewrite (Hbody s1). reflexivity.
  - set (s2 := set_field_header_displayed true s1).
    assert (Hb2 : _bare s2 = false) by (cbn; congruence).
    rewrite run_bind, (print_header_first env state s2 Hb2). cbv zeta.
    destruct (_header s2) as [h | e]; [| discriminate].
    intros _. unfold trace_of in *. cbn [fst snd].
    rewrite filter_app, Hu. cbn [app filter is_title].
    rewrite (Hbody s2). reflexivity.
Qed.

(** A tick that returns has run every step of the pipeline. *)
Lemma run_bind_inv {A B} (m : M A) (f : A -> M B) s b s' t :
  bind m f s = (Ok b, s', t) ->
  exists a s1 t1 t2,
    m s = (Ok a, s1, t1) /\ f a s1 = (Ok b, s', t2) /\ t = (t1 ++ t2)%list.
Proof.
  rewrite run_bind. destruct (m s) as [[[a | e] s1] t1]; [| discriminate].
  intros H. exists a, s1, t1, (trace_of (f a s1)).
  destruct (f a s1) as [[r s2] t2].
  unfold result_of, state_of, trace_of in *. cbn [fst snd] in *.
  injection H as -> -> <-. repeat split.
Qed.

Lemma decorate_length {A K} (key : A -> result K) (l : list A) :
  forall kl, decorate key l = Ok kl -> List.length kl = List.length l.
Proof.
  induction l as [| x l IH]; cbn; intros kl H.
  - injection H as <-. reflexivity.
  - destruct (key x) as [k | e]; [| discriminate].
    destruct (decorate key l) as [kl' | e]; [| discriminate].
    injection H as <-. cbn. rewrite (IH kl' eq_refl). reflexivity.
Qed.

Lemma sorted_length {A K} (leb : K -> K -> bool) (key : A -> result K) l out :
  sorted leb key l = Ok out -> List.length out = List.length l.
Proof.
  unfold sorted. destruct (decorate key l) as [kl | e] eqn:Ed; [| discriminate].
  intros H. injection H as <-.
  rewrite length_map, (Permutation_length (isort_perm leb kl)).
  apply (decorate_length key l kl Ed).
Qed.

Lemma sort_mapping_nonempty sort_by (m : mapping) out :
  sort_mapping sort_by m = Ok out -> m <> [] -> out <> [].
Proof.
  intros H Hne Hout. subst out. apply Hne.
  assert (Hl : List.length (items m) = 0%nat).
  { unfold sort_mapping in H.
    destruct (sort_by =? "PID");
      [apply sorted_length in H; cbn in H; lia |].
    destruct (sort_by =? "Port");
      [apply sorted_length in H; cbn in H; lia |].
    destruct (sort_by =? "Program");
      apply sorted_length in H; cbn in H; lia. }
  unfold items in Hl. destruct m; [reflexivity | discriminate Hl].
Qed.

(** Outside bare mode, a tick that returns and has a section with an
    entry has printed a title line. *)
Lemma get_port_program_mapping_titled env sort_by lo dns regex s L N s' t :
  get_port_program_mapping env sort_by false lo dns regex s
  = (Ok (L, N), s', t) ->
  L <> [] \/ (lo = false /\ N <> []) ->
  filter is_title t <> [].
Proof.
  unfold get_port_program_mapping, set_bare. rewrite run_modify.
  set (s0 := set_field_bare false s). intros Hrun Hne.
  apply run_bind_inv in Hrun as (pv & s1 & t1 & t1' & E1 & Hrun & ->).
  apply run_bind_inv in Hrun as (maps & s2 & t2 & t2' & E2 & Hrun & ->).
  apply run_bind_inv in Hrun as (sl & s3 & t3 & t3' & E3 & Hrun & ->).
  apply run_bind_inv in Hrun as (sn & s4 & t4 & t4' & E4 & Hrun & ->).
  apply run_bind_inv in Hrun as ([] & s5 & t5 & t5' & E5 & Hrun & ->).
  apply run_bind_inv in Hrun as ([] & s6 & t6 & t6' & E6 & Hrun & ->).
  unfold ret in Hrun. injection Hrun as -> _ _.
  unfold lift in E3, E4. injection E3 as E3 <- _. injection E4 as E4 <- _.
  cbn [fst snd] in E3, E4.
  assert (Hb1 : _bare s1 = false).
  { pose proof (preserves_compile_pattern same_flags same_flags_refl
                  same_flags_trans env regex s0) as [H _].
    rewrite E1 in H. cbn in H. congruence. }
  assert (Hb2 : _bare s2 = false).
  { pose proof (classify_same_flags env lo pv (net_connections env) s1)
      as [H _].
    rewrite E2 in H. cbn in H. congruence. }
  assert (Hb5 : _bare s5 = false).
  { pose proof (print_section_same_mode env "LISTENING" sl 1 0
                  true false false dns s2) as H.
    rewrite E5 in H. unfold same_mode in H. cbn in H. congruence. }
  rewrite !filter_app. intros Hnil.
  repeat (apply app_eq_nil in Hnil; destruct Hnil as [? Hnil]).
  destruct Hne as [HL | [-> HN]].
  - pose proof (sort_mapping_nonempty sort_by L sl E3 HL) as Hsl.
    destruct sl as [| c sl]; [contradiction |].
    pose proof (print_section_titled env "LISTENING" c sl 1 0 dns s2 Hb2) as Ht.
    rewrite E5 in Ht. specialize (Ht eq_refl). cbn [trace_of snd] in Ht.
    match goal with
    | H : filter is_title t5 = [] |- _ => rewrite H in Ht
    end.
    discriminate Ht.
  - pose proof (sort_mapping_nonempty sort_by N sn E4 HN) as Hsn.
    destruct sn as [| c sn]; [contradiction |]. cbn [negb] in E6.
    pose proof (print_section_titled env "NON-LISTENING" c sn 1 0 dns s5 Hb5)
      as Ht.
    rewrite E6 in Ht. specialize (Ht eq_refl). cbn [trace_of snd] in Ht.
    match goal with
    | H : filter is_title t6 = [] |- _ => rewrite H in Ht
    end.
    discriminate Ht.
Qed.

(** C10 as the specification words it does hold outside bare mode: a
    tick from the start of a run that returns and has a section with an
    entry prints the header, once. *)
Lemma header_with_first_section_not_bare env :
  header_with_first_section env false.
Proof.
  intros sort_by lo dns regex L N s' t Hrun Hne.
  destruct (get_port_program_mapping_orderly env sort_by lo dns regex
              OutputManager_init) as (_ & _ & H); [cbn; lia |].
  rewrite Hrun in H. cbn [state_of trace_of fst snd] in H.
  change (_header_displayed OutputManager_init) with false in H.
  unfold heading_step in H. destruct H as [[_ H] | [_ H]].
  - apply no_heading_no_title in H.
    destruct (get_port_program_mapping_titled env sort_by lo dns regex
                OutputManager_init L N s' t Hrun Hne H).
  - destruct H as (pre & title & h & sep & post & -> & Hpre & Hpost).
    apply no_heading_no_header in Hpre.
    rewrite count_headers_app.
    change (count_headers (PrintState title :: PrintHeader h
                           :: PrintSeparator sep :: post))
      with (S (count_headers post)).
    lia.
Qed.

(** *** C10: the header *)




(** ** A line in bare mode *)

Lemma append_empty_r (s : string) : s ++ "" = s.
Proof. induction s as [| c s IH]; cbn; [reflexivity | rewrite IH; reflexivity]. Qed.

Lemma format_columns s port program pid extra :
  (0 <= _max_program_len s)%Z ->
  format (_formatter s)
         [VInt port; VStr (shown_program program); VInt pid; extra] =
  Ok (columns s port program pid).
Proof.
  intros Hw. unfold _formatter, columns. cbn [format format_value].
  destruct (Z.ltb_spec (_max_program_len s) 0) as [Hlt | _]; [lia |].
  change (Z.ltb 6 0) with false. cbv iota. unfold justify.
  rewrite append_empty_r. reflexivity.
Qed.

Lemma shown_program_value program :
  (if truthy program then value_of_name program else VStr "<unknown>") =
  VStr (shown_program program).
Proof.
  unfold shown_program. destruct program as [nm |]; [| reflexivity].
  cbn. destruct (negb (nm =? "")); reflexivity.
Qed.

(** In bare mode [output] returns exactly the three columns: the
    formatter has three fields, so the fourth argument of [format], the
    foreign address, is ignored; the service name is looked up first and
    then not used. *)
Lemma output_bare_run env s port program pid fa dns :
  _bare s = true -> (0 <= _max_program_len s)%Z ->
  output env port program (Some pid) fa dns s =
  (Ok (columns s port program pid), s, lookups_of port fa dns).
Proof.
  intros Hb Hw. unfold output. rewrite shown_program_value.
  unfold lookups_of.
  destruct fa as [a |]; [destruct dns |].
  - rewrite run_bind_assoc, run_emit. cbv beta. rewrite run_ret, run_emit.
    cbv beta. rewrite !run_gets. cbv beta. rewrite Hb.
    unfold lift, value_of_pid. rewrite format_columns by exact Hw. reflexivity.
  - rewrite run_ret, run_emit. cbv beta. rewrite !run_gets. cbv beta.
    rewrite Hb. unfold lift, value_of_pid.
    rewrite format_columns by exact Hw. reflexivity.
  - rewrite run_ret, run_emit. cbv beta. rewrite !run_gets. cbv beta.
    rewrite Hb. unfold lift, value_of_pid.
    rewrite format_columns by exact Hw. reflexivity.
Qed.

(** C4, as stated, fails on the connection of curl in the report of the
    specification: the service of port 51000 is looked up, and the line
    ends after the PID column. *)
Lemma bare_line_as_stated_fails :
  output (Example.world Example.spec_conns) 51000 (Some "curl") (Some 200%Z)
         (Example.peer "93.184.216.34" 80) false
         (set_field_bare true OutputManager_init) =
  (Ok "51000  curl                           200   ",
   set_field_bare true OutputManager_init, [CallGetservbyport 51000]) /\
  ~ bare_line_as_stated (Example.world Example.spec_conns)
      (set_field_bare true OutputManager_init) 51000 (Some "curl") 200
      {| Psutil.ip := "93.184.216.34"; Psutil.port := 80 |}.
Proof.
  split; [reflexivity |].
  intros H. destruct (H eq_refl) as (line & t & Hrun & _ & Hno).
  apply Hno. vm_compute in Hrun. inversion Hrun; subst. left. reflexivity.
Qed.

(** C4 (amended).  In bare mode, for an entry that has a process ID,
    [output] returns a line that starts with the port, the program name
    (['<unknown>'] when absent) and the PID, left-aligned in columns of
    6, the program width and 6 characters with one space between them;
    the service name of the port is looked up all the same, but the line
    carries no service annotation: it is the same whatever the table of
    service names holds. *)
Theorem bare_line :
  forall env s port program pid fa dns,
    _bare s = true -> (0 <= _max_program_len s)%Z ->
    exists rest t,
      output env port program (Some pid) fa dns s =
        (Ok (columns s port program pid ++ rest), s, t) /\
      In (CallGetservbyport port) t /\
      forall svc,
        result_of
          (output (with_services env svc) port program (Some pid) fa dns s) =
        Ok (columns s port program pid ++ rest).
Proof.
  intros env s port program pid fa dns Hb Hw.
  exists "", (lookups_of port fa dns). rewrite append_empty_r.
  split; [apply output_bare_run; assumption |]. split.
  - unfold lookups_of. destruct fa as [a |]; [destruct dns |]; cbn; auto.
  - intros svc. rewrite (output_bare_run (with_services env svc)) by assumption.
    reflexivity.
Qed.

(** The theorem at the connection of curl: the line starts with the
    three columns. *)
Lemma bare_line_witness :
  exists rest t,
    output (Example.world Example.spec_conns) 51000 (Some "curl")
           (Some 200%Z) (Example.peer "93.184.216.34" 80) false
           (set_field_bare true OutputManager_init) =
    (Ok ("51000  curl                           200   " ++ rest),
     set_field_bare true OutputManager_init, t).
Proof.
  destruct (bare_line (Example.world Example.spec_conns)
              (set_field_bare true OutputManager_init) 51000 (Some "curl")
              200 (Example.peer "93.184.216.34" 80) false)
    as (rest & t & Hrun & _); [reflexivity | cbn; lia |].
  exists rest, t. exact Hrun.
Defined.


(** * Further properties of the code *)

(** ** [output] as a function of the state *)

(** [output] never changes the [OutputManager]; it makes the lookups
    of [lookups_of] whether it returns or raises; and what it returns is
    the format string of its mode applied to its four arguments. *)
Lemma output_run env port program pid fa dns s :
  output env port program pid fa dns s =
  (format (line_fmt env s port fa dns)
          (line_args env port program pid fa dns),
   s, lookups_of port fa dns).
Proof.
  unfold output, line_fmt, line_args, lookups_of, shown_service.
  rewrite shown_program_value.
  destruct fa as [a |]; [destruct dns |]; cbn [shown_address].
  - rewrite run_bind_assoc, run_emit. cbv beta. rewrite run_ret, run_emit.
    cbv beta. rewrite !run_gets. cbv beta.
    destruct (_bare s); [reflexivity |].
    destruct (negb (_ =? "") && negb (_ =? "")); [reflexivity |].
    destruct (negb (_ =? "") && (_ =? "")); reflexivity.
  - rewrite run_ret, run_emit. cbv beta. rewrite !run_gets. cbv beta.
    destruct (_bare s); [reflexivity |].
    destruct (negb (_ =? "") && negb (_ =? "")); [reflexivity |].
    destruct (negb (_ =? "") && (_ =? "")); reflexivity.
  - rewrite run_ret, run_emit. cbv beta. rewrite !run_gets. cbv beta.
    destruct (_bare s); [reflexivity |].
    destruct (negb (_ =? "") && negb (_ =? "")); [reflexivity |].
    destruct (negb (_ =? "") && (_ =? "")); reflexivity.
Qed.

Lemma output_entry_run env dns s (c : Z * entry) :
  (let '(port, (pid, program, fa)) := c in
   output env port program pid fa dns s) =
  (line_of env s dns c, s, lookups_of_entry dns c).
Proof. destruct c as [port [[pid program] fa]]. apply output_run. Qed.

(** The line depends on the state through the mode and the width only. *)
Lemma line_of_same_mode_width env s s' dns c :
  _bare s = _bare s' -> _max_program_len s = _max_program_len s' ->
  line_of env s dns c = line_of env s' dns c.
Proof.
  intros Hb Hw. destruct c as [port [[pid program] fa]].
  unfold line_of, line_fmt, _formatter. rewrite Hb, Hw. reflexivity.
Qed.

(** ** Lengths *)

Lemma length_append (s1 s2 : string) :
  String.length (s1 ++ s2) = (String.length s1 + String.length s2)%nat.
Proof. induction s1 as [| c s1 IH]; cbn; [reflexivity | rewrite IH; reflexivity]. Qed.

Lemma length_replicate n c : String.length (replicate n c) = n.
Proof. induction n as [| n IH]; cbn; [reflexivity | rewrite IH; reflexivity]. Qed.

Lemma length_ljust w s : String.length (ljust w s) = Nat.max w (String.length s).
Proof. unfold ljust. rewrite length_append, length_replicate. lia. Qed.

Lemma length_rjust w s : String.length (rjust w s) = Nat.max w (String.length s).
Proof. unfold rjust. rewrite length_append, length_replicate. lia. Qed.

Lemma length_center w c s :
  String.length (center w c s) = Nat.max w (String.length s).
Proof.
  unfold center. destruct (Nat.leb_spec w (String.length s)) as [Hle | Hlt].
  - lia.
  - rewrite !length_append, !length_replicate.
    assert (Hd : (Nat.div2 (w - String.length s) <= w - String.length s)%nat)
      by (apply Nat.div2_decr; lia).
    assert (Hd2 : (w - String.length s = 1 ->
                   Nat.div2 (w - String.length s) = 0)%nat)
      by (intros ->; reflexivity).
    destruct (Nat.odd (w - String.length s) && Nat.odd w) eqn:E.
    + assert (Hlt2 : (Nat.div2 (w - String.length s) < w - String.length s)%nat)
        by (apply Nat.lt_div2; lia).
      lia.
    + lia.
Qed.

Lemma length_columns s port program pid :
  String.length (columns s port program pid) =
  (Nat.max 6 (String.length (str_of_int port)) + 1 +
   Nat.max (Z.to_nat (_max_program_len s))
           (String.length (shown_program program)) + 1 +
   Nat.max 6 (String.length (str_of_int pid)))%nat.
Proof.
  unfold columns. rewrite !length_append, !length_ljust. cbn. lia.
Qed.

(** ** The line of an entry *)

Lemma format_formatter_then s port prog pid extra tail :
  (0 <= _max_program_len s)%Z ->
  format (_formatter s ++ tail)%list [VInt port; VStr prog; pid; extra] =
  match pid with
  | VNone => Raise TypeError
  | VInt n =>
      match format tail [extra] with
      | Ok r =>
          Ok (ljust 6 (str_of_int port) ++ " " ++
              ljust (Z.to_nat (_max_program_len s)) prog ++ " " ++
              ljust 6 (str_of_int n) ++ r)
      | Raise e => Raise e
      end
  | VStr x =>
      match format tail [extra] with
      | Ok r =>
          Ok (ljust 6 (str_of_int port) ++ " " ++
              ljust (Z.to_nat (_max_program_len s)) prog ++ " " ++
              ljust 6 x ++ r)
      | Raise e => Raise e
      end
  end.
Proof.
  intros Hw. unfold _formatter. cbn [app format format_value].
  destruct (Z.ltb_spec (_max_program_len s) 0) as [Hlt | _]; [lia |].
  change (Z.ltb 6 0) with false. cbv iota. unfold justify.
  change (Z.to_nat 6) with 6%nat.
  destruct pid as [n | x |]; [| | reflexivity];
    destruct (format tail [extra]); reflexivity.
Qed.

Lemma append_assoc (a b c : string) : (a ++ b) ++ c = a ++ b ++ c.
Proof. induction a as [| x a IH]; cbn; [reflexivity | rewrite IH; reflexivity]. Qed.

Lemma columns_append s port program pid r :
  ljust 6 (str_of_int port) ++ " " ++
  ljust (Z.to_nat (_max_program_len s)) (shown_program program) ++ " " ++
  ljust 6 (str_of_int pid) ++ r =
  columns s port program pid ++ r.
Proof. unfold columns. rewrite !append_assoc. reflexivity. Qed.

(** The value of a line, mode by mode. *)
Lemma line_of_value env s dns port pid program fa :
  (0 <= _max_program_len s)%Z ->
  line_of env s dns (port, (pid, program, fa)) =
  match pid with
  | None => Raise TypeError
  | Some n =>
      Ok (columns s port program n ++
          (if _bare s then ""
           else trailer (shown_service env port) (shown_address env fa dns)))
  end.
Proof.
  intros Hw. unfold line_of, line_fmt, line_args, trailer.
  destruct (_bare s).
  - rewrite <- (app_nil_r (_formatter s)).
    rewrite (format_formatter_then s port _ _ _ [] Hw).
    destruct pid as [n |]; cbn [value_of_pid format]; [| reflexivity].
    rewrite columns_append. reflexivity.
  - destruct (negb (shown_service env port =? "")
              && negb (shown_address env fa dns =? ""));
      [| destruct (negb (shown_service env port =? "")
                   && (shown_address env fa dns =? ""))];
      rewrite (format_formatter_then s port _ _ _ _ Hw);
      destruct pid as [n |]; cbn [value_of_pid format format_value];
      try reflexivity;
      change (Z.ltb 40 0) with false; cbv iota; unfold justify;
      rewrite ?append_empty_r, columns_append; reflexivity.
Qed.

(** ** The two passes over a section *)

Lemma measure_body_run env dns c acc s :
  measure_body env dns c acc s =
  match line_of env s dns c with
  | Ok line =>
      (Ok (Nat.max acc (String.length line)), s, lookups_of_entry dns c)
  | Raise e => (Raise e, s, lookups_of_entry dns c)
  end.
Proof.
  destruct c as [port [[pid program] fa]].
  unfold measure_body, line_of, lookups_of_entry.
  rewrite run_bind, output_run.
  destruct (format _ _); cbn; rewrite ?app_nil_r; reflexivity.
Qed.

Lemma line_body_run env dns c u s :
  line_body env dns c u s =
  match line_of env s dns c with
  | Ok line =>
      (Ok tt, s, (lookups_of_entry dns c ++ [PrintLine line])%list)
  | Raise e => (Raise e, s, lookups_of_entry dns c)
  end.
Proof.
  destruct c as [port [[pid program] fa]].
  unfold line_body, line_of, lookups_of_entry.
  rewrite run_bind, output_run.
  destruct (format _ _); reflexivity.
Qed.

(** The measuring loop never changes the state; when it returns, it
    has made the lookups of every entry, and its result is the largest
    of the accumulator and the lengths of the lines. *)
Lemma measure_run env dns conns :
  forall (acc : nat) s,
    state_of (for_each (measure_body env dns) conns acc s) = s /\
    forall m s' t,
      for_each (measure_body env dns) conns acc s = (Ok m, s', t) ->
      t = flat_map (lookups_of_entry dns) conns /\
      (acc <= m)%nat /\
      Forall (fun c => exists line, line_of env s dns c = Ok line /\
                                    (String.length line <= m)%nat) conns /\
      (m = acc \/
       Exists (fun c => exists line, line_of env s dns c = Ok line /\
                                     String.length line = m) conns).
Proof.
  induction conns as [| c conns IH]; intros acc s.
  - split; [reflexivity |]. intros m s' t H. cbn in H. inversion H; subst.
    repeat split; auto.
  - cbn [for_each]. rewrite run_bind, measure_body_run.
    destruct (line_of env s dns c) as [line | e] eqn:El.
    + destruct (IH (Nat.max acc (String.length line)) s) as [Hst Hok].
      split; [exact Hst |].
      intros m s' t H. injection H as Hr Hs Ht.
      destruct (Hok m _ _ (run_ok_surj _ m Hr)) as (Ht' & Hle & Hall & Hex).
      subst t. rewrite Ht'. cbn [flat_map].
      split; [reflexivity |]. split; [lia |]. split.
      * constructor; [exists line; split; [exact El | lia] | exact Hall].
      * destruct Hex as [-> | Hex].
        -- destruct (Nat.max_spec acc (String.length line)) as [[_ E] | [_ E]];
             rewrite E.
           ++ right. apply Exists_cons_hd. exists line. auto.
           ++ left. reflexivity.
        -- right. apply Exists_cons_tl. exact Hex.
    + split; [reflexivity |]. intros m s' t H. discriminate H.
Qed.

Lemma line_of_pid env s dns c :
  (0 <= _max_program_len s)%Z ->
  (pid_of c <> None -> exists line, line_of env s dns c = Ok line) /\
  (pid_of c = None -> line_of env s dns c = Raise TypeError).
Proof.
  intros Hw. destruct c as [port [[pid program] fa]].
  pose proof (line_of_value env s dns port pid program fa Hw) as E.
  unfold pid_of. cbn [fst snd]. destruct pid as [n |]; split; intros H.
  - eexists; exact E.
  - discriminate.
  - contradiction.
  - exact E.
Qed.

Lemma measure_total env dns conns :
  forall (acc : nat) s,
    (0 <= _max_program_len s)%Z ->
    Forall (fun c => pid_of c <> None) conns ->
    exists m,
      result_of (for_each (measure_body env dns) conns acc s) = Ok m.
Proof.
  induction conns as [| c conns IH]; intros acc s Hw Hall.
  - exists acc. reflexivity.
  - inversion Hall as [| ? ? Hc Hrest]; subst.
    destruct (proj1 (line_of_pid env s dns c Hw) Hc) as [line El].
    cbn [for_each]. rewrite run_bind, measure_body_run, El.
    destruct (IH (Nat.max acc (String.length line)) s Hw Hrest) as [m Hm].
    exists m. exact Hm.
Qed.

Lemma measure_raises env dns conns :
  forall (acc : nat) s,
    (0 <= _max_program_len s)%Z ->
    Exists (fun c => pid_of c = None) conns ->
    result_of (for_each (measure_body env dns) conns acc s) = Raise TypeError.
Proof.
  induction conns as [| c conns IH]; intros acc s Hw Hex; [inversion Hex |].
  cbn [for_each]. rewrite run_bind, measure_body_run.
  destruct (line_of_pid env s dns c Hw) as [Hsome Hnone].
  destruct (line_of env s dns c) as [line | e] eqn:El.
  - cbn [result_of fst]. apply IH; [exact Hw |].
    inversion Hex as [? ? Hn | ? ? Hr]; subst; [| exact Hr].
    specialize (Hnone Hn). congruence.
  - cbn [result_of fst]. destruct (pid_of c) eqn:Ep.
    + destruct Hsome as [line Hl]; [congruence |]. congruence.
    + specialize (Hnone eq_refl). congruence.
Qed.

(** X1.  [calculate_max_line_len] over entries that all have a process
    ID returns, makes the lookups of every entry, and stores in
    [_max_line_len] the length of the longest line (0 for an empty
    section), touching nothing else; as soon as one entry has no process
    ID it raises [TypeError] and leaves the state, the old maximum
    included, as it was. *)
Theorem calculate_max_line_len_is_max :
  forall env (conns : section) dns s,
    (0 <= _max_program_len s)%Z ->
    (Forall (fun c => pid_of c <> None) conns ->
     exists m,
       calculate_max_line_len env conns dns s =
         (Ok tt, set_field_max_line_len m s,
          flat_map (lookups_of_entry dns) conns) /\
       Forall (fun c => exists line, line_of env s dns c = Ok line /\
                                     (String.length line <= m)%nat) conns /\
       (conns = [] -> m = 0%nat) /\
       (conns <> [] ->
        Exists (fun c => exists line, line_of env s dns c = Ok line /\
                                      String.length line = m) conns)) /\
    (Exists (fun c => pid_of c = None) conns ->
     result_of (calculate_max_line_len env conns dns s) = Raise TypeError /\
     state_of (calculate_max_line_len env conns dns s) = s).
Proof.
  intros env conns dns s Hw. unfold calculate_max_line_len.
  change (for_each _ conns 0%nat)
    with (for_each (measure_body env dns) conns 0%nat).
  split.
  - intros Hall.
    destruct (measure_total env dns conns 0%nat s Hw Hall) as [m Hm].
    destruct (measure_run env dns conns 0%nat s) as [Hst Hok].
    pose proof (run_ok_surj _ m Hm) as Hrun. rewrite Hst in Hrun.
    destruct (Hok m _ _ Hrun) as (Ht & _ & Hle & Hex).
    exists m. rewrite (run_bind_ok _ _ _ _ _ _ Hrun). cbn. rewrite app_nil_r.
    split; [rewrite Ht; reflexivity |]. split; [exact Hle |]. split.
    + intros ->. cbn in Hm. inversion Hm; reflexivity.
    + intros Hne. destruct Hex as [-> | Hex]; [| exact Hex].
      destruct conns as [| c conns]; [contradiction |].
      inversion Hle as [| ? ? (line & El & Hl) _]; subst.
      apply Exists_cons_hd. exists line. split; [exact El | lia].
  - intros Hex.
    pose proof (measure_raises env dns conns 0%nat s Hw Hex) as Hr.
    destruct (measure_run env dns conns 0%nat s) as [Hst _].
    rewrite run_bind.
    destruct (for_each (measure_body env dns) conns 0%nat s)
      as [[[m | e] s1] t1]; cbn in Hr, Hst; [discriminate |].
    inversion Hr; subst. split; reflexivity.
Qed.

(** The theorem at the LISTENING section of the report of the
    specification. *)
Lemma calculate_max_line_len_is_max_witness :
  exists m,
    calculate_max_line_len (Example.world Example.spec_conns)
      [(80%Z, (Some 100%Z, Some "nginx", None));
       (443%Z, (Some 100%Z, Some "nginx", None))] false OutputManager_init =
    (Ok tt, set_field_max_line_len m OutputManager_init,
     [CallGetservbyport 80; CallGetservbyport 443]).
Proof.
  destruct (calculate_max_line_len_is_max (Example.world Example.spec_conns)
              [(80%Z, (Some 100%Z, Some "nginx", None));
               (443%Z, (Some 100%Z, Some "nginx", None))] false
              OutputManager_init) as [H _]; [cbn; lia |].
  destruct H as (m & Hrun & _); [repeat constructor; discriminate |].
  exists m. exact Hrun.
Defined.

Lemma print_lines_as_loop env conns dns :
  print_lines env conns dns = for_each (line_body env dns) conns tt.
Proof. reflexivity. Qed.

(** The rendering loop never changes the state; over entries that all
    have a line it returns, having made the lookups and printed the
    line of each entry, in order. *)
Lemma render_run env dns conns :
  forall u s,
    state_of (for_each (line_body env dns) conns u s) = s /\
    forall lines,
      Forall2 (fun c line => line_of env s dns c = Ok line) conns lines ->
      for_each (line_body env dns) conns u s =
      (Ok tt, s, rendered dns conns lines).
Proof.
  induction conns as [| c conns IH]; intros u s.
  - split; [reflexivity |]. intros lines H. inversion H; subst.
    destruct u; reflexivity.
  - cbn [for_each]. rewrite run_bind, line_body_run. split.
    + destruct (line_of env s dns c); [| reflexivity].
      cbn [state_of fst snd]. apply (IH tt s).
    + intros lines H. inversion H as [| ? line ? lines' Hc Hrest]; subst.
      rewrite Hc. rewrite (proj2 (IH tt s) lines' Hrest).
      unfold rendered. cbn. rewrite <- app_assoc. reflexivity.
Qed.

Lemma lines_exist env s dns conns :
  (0 <= _max_program_len s)%Z ->
  Forall (fun c => pid_of c <> None) conns ->
  exists lines,
    Forall2 (fun c line => line_of env s dns c = Ok line) conns lines.
Proof.
  intros Hw. induction 1 as [| c conns Hc _ IH].
  - exists []. constructor.
  - destruct IH as [lines IH].
    destruct (proj1 (line_of_pid env s dns c Hw) Hc) as [line El].
    exists (line :: lines). constructor; assumption.
Qed.

Lemma lines_same_mode_width env s s' dns conns lines :
  _bare s = _bare s' -> _max_program_len s = _max_program_len s' ->
  Forall2 (fun c line => line_of env s dns c = Ok line) conns lines ->
  Forall2 (fun c line => line_of env s' dns c = Ok line) conns lines.
Proof.
  intros Hb Hw H. induction H as [| c line conns lines Hc _ IH];
    constructor; [| exact IH].
  rewrite <- (line_of_same_mode_width env s s' dns c Hb Hw). exact Hc.
Qed.

Lemma calculate_ok env conns dns s :
  (0 <= _max_program_len s)%Z ->
  Forall (fun c => pid_of c <> None) conns ->
  exists m,
    calculate_max_line_len env conns dns s =
      (Ok tt, set_field_max_line_len m s,
       flat_map (lookups_of_entry dns) conns) /\
    Forall (fun c => exists line, line_of env s dns c = Ok line /\
                                  (String.length line <= m)%nat) conns.
Proof.
  intros Hw Hall. unfold calculate_max_line_len.
  change (for_each _ conns 0%nat)
    with (for_each (measure_body env dns) conns 0%nat).
  destruct (measure_total env dns conns 0%nat s Hw Hall) as [m Hm].
  destruct (measure_run env dns conns 0%nat s) as [Hst Hok].
  pose proof (run_ok_surj _ m Hm) as Hrun. rewrite Hst in Hrun.
  destruct (Hok m _ _ Hrun) as (Ht & _ & Hle & _).
  exists m. rewrite (run_bind_ok _ _ _ _ _ _ Hrun). cbn. rewrite app_nil_r.
  split; [rewrite Ht; reflexivity | exact Hle].
Qed.

(** The whole output of a section with an entry, as the pipeline
    prints it, when every entry has a process ID: the lookups of the
    measuring pass, the blank lines, the title, then for each entry its
    lookups and its line, and the blank lines after. *)
Lemma print_section_rendered env state c conns lb la dns s :
  (0 <= _max_program_len s)%Z ->
  Forall (fun c => pid_of c <> None) (c :: conns) ->
  exists m lines h,
    Forall (fun c => exists line, line_of env s false c = Ok line /\
                                  (String.length line <= m)%nat)
           (c :: conns) /\
    Forall2 (fun c line => line_of env s dns c = Ok line) (c :: conns) lines /\
    _header s = Ok h /\
    print_section env state (c :: conns) lb la true false false dns s =
    (Ok tt,
     (if _header_displayed s then set_field_max_line_len m s
      else set_field_header_displayed true (set_field_max_line_len m s)),
     (flat_map (lookups_of_entry false) (c :: conns) ++
      PrintBlank (if _header_displayed s then lb else 0) ::
      heading env state (set_field_max_line_len m s) h ++
      rendered dns (c :: conns) lines ++ [PrintBlank la])%list).
Proof.
  intros Hw Hall.
  destruct (calculate_ok env (c :: conns) false s Hw Hall) as (m & Hcalc & Hle).
  destruct (lines_exist env s dns (c :: conns) Hw Hall) as [lines Hlines].
  destruct (header_ok s Hw) as [h Hh].
  exists m, lines, h. split; [exact Hle |]. split; [exact Hlines |].
  split; [exact Hh |].
  rewrite print_section_run, Hcalc. cbv zeta.
  set (s1 := set_field_max_line_len m s).
  change (_header_displayed s1) with (_header_displayed s).
  change (_bare s1) with (_bare s).
  assert (Hbody : forall s2,
             _bare s2 = _bare s -> _max_program_len s2 = _max_program_len s ->
             section_body env (c :: conns) la dns s2 =
             (Ok tt, s2, (rendered dns (c :: conns) lines ++ [PrintBlank la])%list)).
  { intros s2 Hb2 Hw2. unfold section_body. rewrite print_lines_as_loop.
    rewrite (run_bind_ok _ _ _ _ _ _
               (proj2 (render_run env dns (c :: conns) tt s2) lines
                  (lines_same_mode_width env s s2 dns _ _
                     (eq_sym Hb2) (eq_sym Hw2) Hlines))).
    reflexivity. }
  unfold heading. change (_bare s1) with (_bare s).
  change (_header_displayed s1) with (_header_displayed s).
  destruct (_header_displayed s) eqn:Ed; cbn [negb];
    destruct (_bare s) eqn:Eb; cbn [negb].
  - rewrite run_ret, (Hbody s1 Eb eq_refl). reflexivity.
  - rewrite run_bind, (print_header_later env state s1 Eb).
    rewrite (Hbody s1 Eb eq_refl). reflexivity.
  - rewrite run_ret, (Hbody (set_field_header_displayed true s1) Eb eq_refl).
    reflexivity.
  - rewrite run_bind,
      (print_header_first env state (set_field_header_displayed true s1) Eb).
    cbv zeta.
    change (_header (set_field_header_displayed true s1)) with (_header s).
    rewrite Hh.
    rewrite (Hbody (set_field_header_displayed true s1) Eb eq_refl).
    reflexivity.
Qed.

(** ** What a section prints and looks up *)

Lemma filter_lookups_of_entry (P : event -> bool) dns c :
  (forall ev, is_call ev = true -> P ev = false) ->
  filter P (lookups_of_entry dns c) = [].
Proof.
  intros HP. destruct c as [port [[pid program] fa]].
  unfold lookups_of_entry, lookups_of.
  destruct fa as [a |]; [destruct dns |]; cbn [filter];
    rewrite ?HP by reflexivity; reflexivity.
Qed.

Lemma filter_lookups (P : event -> bool) dns (conns : section) :
  (forall ev, is_call ev = true -> P ev = false) ->
  filter P (flat_map (lookups_of_entry dns) conns) = [].
Proof.
  intros HP. induction conns as [| c conns IH]; [reflexivity |].
  cbn [flat_map]. rewrite filter_app, IH, (filter_lookups_of_entry P dns c HP).
  reflexivity.
Qed.

Lemma filter_heading (P : event -> bool) env state s h :
  (forall x, P (PrintState x) = false) ->
  (forall x, P (PrintHeader x) = false) ->
  (forall x, P (PrintSeparator x) = false) ->
  filter P (heading env state s h) = [].
Proof.
  intros H1 H2 H3. unfold heading.
  destruct (_bare s); [reflexivity |].
  destruct (_header_displayed s); cbn [filter]; rewrite ?H1, ?H2, ?H3;
    reflexivity.
Qed.

Lemma filter_lines_rendered dns (conns : section) :
  forall lines,
    List.length lines = List.length conns ->
    filter is_line (rendered dns conns lines) = map PrintLine lines.
Proof.
  unfold rendered.
  induction conns as [| c conns IH]; intros [| line lines] Hlen;
    try discriminate; [reflexivity |].
  cbn [combine flat_map fst snd map]. rewrite !filter_app.
  rewrite (filter_lookups_of_entry is_line dns c)
    by (intros [] H; try discriminate H; reflexivity).
  cbn [filter is_line app]. rewrite IH by (cbn in Hlen; lia). reflexivity.
Qed.

Lemma Forall2_length_eq {A B} (R : A -> B -> Prop) l1 l2 :
  Forall2 R l1 l2 -> List.length l2 = List.length l1.
Proof. induction 1; cbn; congruence. Qed.

(** X2.  A section whose entries all have a process ID is rendered
    without an exception, and the lines it prints are the lines of its
    entries, one per entry and in the order of the entries. *)
Theorem section_prints_entries_in_order :
  forall env state (conns : section) lb la dns s,
    (0 <= _max_program_len s)%Z ->
    Forall (fun c => pid_of c <> None) conns ->
    exists lines,
      Forall2 (fun c line => line_of env s dns c = Ok line) conns lines /\
      result_of (print_section env state conns lb la true false false dns s)
      = Ok tt /\
      filter is_line
        (trace_of (print_section env state conns lb la true false false dns s))
      = map PrintLine lines.
Proof.
  intros env state conns lb la dns s Hw Hall.
  destruct conns as [| c conns].
  - exists []. split; [constructor |]. split; reflexivity.
  - destruct (print_section_rendered env state c conns lb la dns s Hw Hall)
      as (m & lines & h & _ & Hlines & _ & Hrun).
    exists lines. split; [exact Hlines |]. rewrite Hrun.
    split; [reflexivity |]. cbn [trace_of snd].
    rewrite filter_app, (filter_lookups is_line false)
      by (intros [] H; try discriminate H; reflexivity).
    cbn [app filter is_line].
    rewrite filter_app, filter_heading by reflexivity.
    rewrite filter_app, (filter_lines_rendered dns (c :: conns) lines)
      by (apply (Forall2_length_eq _ _ _ Hlines)).
    cbn. rewrite app_nil_r. reflexivity.
Qed.

(** The theorem at the LISTENING section of the report of the
    specification: two lines, port 80 then port 443. *)
Lemma section_prints_entries_in_order_witness :
  exists l80 l443,
    filter is_line
      (trace_of
         (print_section (Example.world Example.spec_conns) "LISTENING"
            [(80%Z, (Some 100%Z, Some "nginx", None));
             (443%Z, (Some 100%Z, Some "nginx", None))]
            1 0 true false false false OutputManager_init))
    = [PrintLine l80; PrintLine l443].
Proof.
  destruct (section_prints_entries_in_order
              (Example.world Example.spec_conns) "LISTENING"
              [(80%Z, (Some 100%Z, Some "nginx", None));
               (443%Z, (Some 100%Z, Some "nginx", None))]
              1 0 false OutputManager_init) as (lines & Hl & _ & Ht).
  - cbn; lia.
  - repeat constructor; discriminate.
  - inversion Hl as [| ? l80 ? rest _ Hr]; subst.
    inversion Hr as [| ? l443 ? rest' _ Hr']; subst.
    inversion Hr'; subst. exists l80, l443. exact Ht.
Defined.

Lemma fqdn_lookups_of_entry dns (c : Z * entry) :
  filter is_fqdn_call (lookups_of_entry dns c) =
  if dns then fqdn_calls_of [c] else [].
Proof.
  destruct c as [port [[pid program] fa]].
  unfold lookups_of_entry, lookups_of, fqdn_calls_of.
  destruct fa as [a |]; destruct dns; reflexivity.
Qed.

Lemma service_lookups_of_entry dns (c : Z * entry) :
  List.length (filter is_service_call (lookups_of_entry dns c)) = 1%nat.
Proof.
  destruct c as [port [[pid program] fa]].
  unfold lookups_of_entry, lookups_of.
  destruct fa as [a |]; [destruct dns |]; reflexivity.
Qed.

Lemma fqdn_calls_of_cons c (conns : section) :
  fqdn_calls_of (c :: conns) = (fqdn_calls_of [c] ++ fqdn_calls_of conns)%list.
Proof. unfold fqdn_calls_of. cbn. rewrite app_nil_r. reflexivity. Qed.

Lemma fqdn_measure (conns : section) :
  filter is_fqdn_call (flat_map (lookups_of_entry false) conns) = [].
Proof.
  induction conns as [| c conns IH]; [reflexivity |].
  cbn [flat_map]. rewrite filter_app, IH, fqdn_lookups_of_entry. reflexivity.
Qed.

Lemma service_measure dns (conns : section) :
  List.length (filter is_service_call (flat_map (lookups_of_entry dns) conns))
  = List.length conns.
Proof.
  induction conns as [| c conns IH]; [reflexivity |].
  cbn [flat_map]. rewrite filter_app, length_app, IH, service_lookups_of_entry.
  reflexivity.
Qed.

Lemma fqdn_rendered dns (conns : section) :
  forall lines,
    List.length lines = List.length conns ->
    filter is_fqdn_call (rendered dns conns lines) =
    if dns then fqdn_calls_of conns else [].
Proof.
  unfold rendered.
  induction conns as [| c conns IH]; intros [| line lines] Hlen;
    try discriminate; [destruct dns; reflexivity |].
  cbn [combine flat_map fst snd]. rewrite !filter_app, fqdn_lookups_of_entry.
  cbn [filter is_fqdn_call app]. rewrite IH by (cbn in Hlen; lia).
  rewrite (fqdn_calls_of_cons c conns).
  destruct dns; rewrite ?app_nil_r; reflexivity.
Qed.

Lemma service_rendered dns (conns : section) :
  forall lines,
    List.length lines = List.length conns ->
    List.length (filter is_service_call (rendered dns conns lines)) =
    List.length conns.
Proof.
  unfold rendered.
  induction conns as [| c conns IH]; intros [| line lines] Hlen;
    try discriminate; [reflexivity |].
  cbn [combine flat_map fst snd]. rewrite !filter_app, !length_app.
  rewrite service_lookups_of_entry. cbn [filter is_service_call length].
  rewrite IH by (cbn in Hlen; lia). reflexivity.
Qed.



Lemma lookups_within_width m dns c :
  Forall (within_width m) (lookups_of_entry dns c).
Proof.
  destruct c as [port [[pid program] fa]].
  unfold lookups_of_entry, lookups_of.
  destruct fa as [a |]; [destruct dns |]; repeat constructor.
Qed.

Lemma measure_within_width m dns (conns : section) :
  Forall (within_width m) (flat_map (lookups_of_entry dns) conns).
Proof.
  induction conns as [| c conns IH]; [constructor |].
  cbn [flat_map]. apply Forall_app. split;
    [apply lookups_within_width | exact IH].
Qed.

Lemma heading_within_width env state s h :
  Forall (within_width (_max_line_len s)) (heading env state s h).
Proof.
  unfold heading. destruct (_bare s); [constructor |].
  assert (Ht : within_width (_max_line_len s)
                 (PrintState (center (_max_line_len s) "-"
                                (state ++ " (" ++ formatted_now env ++ ")")))).
  { cbn. rewrite length_center. lia. }
  destruct (_header_displayed s); repeat constructor; try exact Ht.
  unfold _separator. apply length_replicate.
Qed.

Lemma rendered_within_width env s m (conns : section) :
  forall lines,
    Forall (fun c => exists line, line_of env s false c = Ok line /\
                                  (String.length line <= m)%nat) conns ->
    Forall2 (fun c line => line_of env s false c = Ok line) conns lines ->
    Forall (within_width m) (rendered false conns lines).
Proof.
  unfold rendered. intros lines Hle H.
  induction H as [| c line conns lines Hc _ IH]; [constructor |].
  inversion Hle as [| ? ? (line' & El & Hl) Hrest]; subst.
  cbn [combine flat_map fst snd]. apply Forall_app. split.
  - apply Forall_app. split; [apply lookups_within_width |].
    constructor; [| constructor]. cbn.
    rewrite Hc in El. inversion El; subst. exact Hl.
  - apply IH. exact Hrest.
Qed.

(** X4.  Without reverse DNS, in a section that is rendered, no line is
    longer than the width the measuring pass stored in [_max_line_len];
    the separator has exactly that width and the title line at least
    that width. *)
Theorem section_lines_fit_width :
  forall env state (conns : section) lb la s,
    (0 <= _max_program_len s)%Z ->
    Forall (fun c => pid_of c <> None) conns ->
    Forall
      (within_width
         (_max_line_len
            (state_of
               (print_section env state conns lb la true false false false s))))
      (trace_of (print_section env state conns lb la true false false false s)).
Proof.
  intros env state conns lb la s Hw Hall.
  destruct conns as [| c conns]; [constructor |].
  destruct (print_section_rendered env state c conns lb la false s Hw Hall)
    as (m & lines & h & Hle & Hlines & _ & Hrun).
  rewrite Hrun. cbn [trace_of state_of fst snd].
  assert (Em : _max_line_len
                 (if _header_displayed s then set_field_max_line_len m s
                  else set_field_header_displayed true
                         (set_field_max_line_len m s)) = m)
    by (destruct (_header_displayed s); reflexivity).
  rewrite Em. apply Forall_app. split; [apply measure_within_width |].
  constructor; [exact I |]. apply Forall_app. split.
  - apply (heading_within_width env state (set_field_max_line_len m s) h).
  - apply Forall_app. split.
    + apply (rendered_within_width env s m (c :: conns) lines Hle Hlines).
    + repeat constructor.
Qed.

(** The theorem at the LISTENING section of the report of the
    specification. *)
Lemma section_lines_fit_width_witness :
  Forall
    (within_width
       (_max_line_len
          (state_of
             (print_section (Example.world Example.spec_conns) "LISTENING"
                [(80%Z, (Some 100%Z, Some "nginx", None))]
                1 0 true false false false OutputManager_init))))
    (trace_of
       (print_section (Example.world Example.spec_conns) "LISTENING"
          [(80%Z, (Some 100%Z, Some "nginx", None))]
          1 0 true false false false OutputManager_init)).
Proof.
  apply (section_lines_fit_width (Example.world Example.spec_conns)
           "LISTENING" [(80%Z, (Some 100%Z, Some "nginx", None))]
           1 0 OutputManager_init).
  - cbn; lia.
  - repeat constructor; discriminate.
Defined.

(** ** One line *)

Lemma columns_at_least s port program pid :
  (Z.to_nat (_max_program_len s) + 14 <=
   String.length (columns s port program pid))%nat.
Proof. rewrite length_columns. lia. Qed.

(** X5.  [output] never changes the [OutputManager] and makes its
    lookups whatever happens next; for an entry without a process ID it
    raises [TypeError], in every mode; for an entry with one it returns
    a line that starts with the three columns, so that no field is ever
    truncated and the line has at least the program width plus 14
    characters. *)
Theorem output_raises_without_pid :
  forall env s port program pid fa dns,
    (0 <= _max_program_len s)%Z ->
    state_of (output env port program pid fa dns s) = s /\
    trace_of (output env port program pid fa dns s) = lookups_of port fa dns /\
    (pid = None ->
     result_of (output env port program pid fa dns s) = Raise TypeError) /\
    (forall n, pid = Some n ->
       exists rest,
         result_of (output env port program pid fa dns s) =
           Ok (columns s port program n ++ rest) /\
         (Z.to_nat (_max_program_len s) + 14 <=
          String.length (columns s port program n ++ rest))%nat).
Proof.
  intros env s port program pid fa dns Hw. rewrite output_run.
  cbn [state_of trace_of result_of fst snd].
  split; [reflexivity |]. split; [reflexivity |].
  pose proof (line_of_value env s dns port pid program fa Hw) as E.
  unfold line_of in E. rewrite E. split.
  - intros ->. reflexivity.
  - intros n ->. eexists. split; [reflexivity |].
    rewrite length_append. pose proof (columns_at_least s port program n). lia.
Qed.

(** The theorem at a socket whose owner is not retrievable. *)
Lemma output_raises_without_pid_witness :
  result_of
    (output (Example.world Example.spec_conns) 631 (Some "python3") None None
            false OutputManager_init) = Raise TypeError.
Proof.
  destruct (output_raises_without_pid (Example.world Example.spec_conns)
              OutputManager_init 631 (Some "python3") None None false)
    as (_ & _ & H & _); [cbn; lia |].
  apply H. reflexivity.
Defined.

Lemma length_trailer svc addr :
  String.length (trailer svc addr) =
  if negb (svc =? "") && negb (addr =? "") then
    (Nat.max 10 (5 + String.length svc) + 1 + Nat.max 40 (String.length addr))%nat
  else if negb (svc =? "") && (addr =? "") then
    Nat.max 20 (5 + String.length svc)
  else Nat.max 40 (String.length addr).
Proof.
  unfold trailer.
  destruct (negb (svc =? "") && negb (addr =? ""));
    [| destruct (negb (svc =? "") && (addr =? ""))];
    rewrite ?length_append, ?length_ljust, ?length_rjust; cbn; lia.
Qed.

(** X6.  Outside bare mode the line of an entry with a process ID is
    the three columns followed at once, with no separating space, by
    the trailing field: with a service name and a foreign address, the
    text [SVC: name] padded to 10, a space and the address right-aligned
    in 40; with a service name only, [SVC: name] padded to 20; otherwise
    the address (or nothing) right-aligned in 40.  The length of the
    trailing field follows, so a line with a service name and no
    address is 20 characters shorter than one without service name. *)
Theorem output_trailing_field :
  forall env s port program pid fa dns,
    _bare s = false -> (0 <= _max_program_len s)%Z ->
    result_of (output env port program (Some pid) fa dns s) =
      Ok (columns s port program pid ++
          trailer (shown_service env port) (shown_address env fa dns)) /\
    String.length
      (trailer (shown_service env port) (shown_address env fa dns)) =
    (if negb (shown_service env port =? "")
        && negb (shown_address env fa dns =? "") then
       (Nat.max 10 (5 + String.length (shown_service env port)) + 1 +
        Nat.max 40 (String.length (shown_address env fa dns)))%nat
     else if negb (shown_service env port =? "")
             && (shown_address env fa dns =? "") then
       Nat.max 20 (5 + String.length (shown_service env port))
     else Nat.max 40 (String.length (shown_address env fa dns))).
Proof.
  intros env s port program pid fa dns Hb Hw. split.
  - rewrite output_run. cbn [result_of fst].
    pose proof (line_of_value env s dns port (Some pid) program fa Hw) as E.
    unfold line_of in E. rewrite E, Hb. reflexivity.
  - apply length_trailer.
Qed.

(** The theorem at the socket of nginx on port 80. *)
Lemma output_trailing_field_witness :
  result_of
    (output (Example.world Example.spec_conns) 80 (Some "nginx")
            (Some 100%Z) None false OutputManager_init) =
  Ok "80     nginx                          100   SVC: http           ".
Proof.
  destruct (output_trailing_field (Example.world Example.spec_conns)
              OutputManager_init 80 (Some "nginx") 100 None false)
    as [H _]; [reflexivity | cbn; lia |].
  rewrite H. reflexivity.
Defined.

(** ** The header row *)

(** X7.  The header row is as long as the program width (or 7, the
    length of the word Program, if that is more) plus 38: its last
    title, 23 characters long, never fits the 20 characters of its
    field and is never padded.  With a negative width the format
    string itself is malformed and [_header_len] raises [ValueError]. *)
Theorem header_len_closed_form :
  forall s : OutputManager,
    _header_len s =
    if Z.ltb (_max_program_len s) 0 then Raise ValueError
    else Ok (Nat.max (Z.to_nat (_max_program_len s)) 7 + 38)%nat.
Proof.
  intros s. unfold _header_len, _header, _formatter.
  cbn [app format format_value].
  destruct (Z.ltb (_max_program_len s) 0); [reflexivity |].
  change (Z.ltb 6 0) with false. change (Z.ltb 20 0) with false. cbv iota.
  unfold justify.
  rewrite !length_append, !length_ljust, length_rjust. cbn. f_equal. lia.
Qed.

(** ** The time zone of the title *)

Lemma zero_pad2_two_digits (k : nat) :
  (k < 100)%nat -> String.length (zero_pad2 (Z.of_nat k)) = 2%nat.
Proof.
  intros Hk.
  do 100 (destruct k as [| k]; [vm_compute; reflexivity |]).
  lia.
Qed.

Lemma zero_pad2_length (n : Z) :
  (0 <= n < 100)%Z -> String.length (zero_pad2 n) = 2%nat.
Proof.
  intros Hn. rewrite <- (Z2Nat.id n) by lia.
  apply zero_pad2_two_digits. lia.
Qed.

(** X8.  The offset written into the title is a sign, the hours and
    the minutes of the absolute offset, each padded with zeros to two
    digits, with a colon between: the minutes are below 60, hours and
    minutes together are the offset in whole minutes (the seconds are
    dropped), the sign is [+] exactly when the offset, which counts
    seconds west of UTC, is not negative, and for an offset of less
    than 100 hours the text has exactly 6 characters. *)
Theorem timezone_offset_str_shape :
  forall off : Z,
    exists sign h m,
      timezone_offset_str off = sign ++ zero_pad2 h ++ ":" ++ zero_pad2 m /\
      (sign = if Z.leb 0 off then "+" else "-") /\
      (0 <= h)%Z /\ (0 <= m < 60)%Z /\
      (h * 60 + m = Z.abs off / 60)%Z /\
      ((Z.abs off < 360000)%Z ->
       String.length (timezone_offset_str off) = 6%nat).
Proof.
  intros off.
  set (a := Z.abs off).
  assert (Ha : (0 <= a)%Z) by (unfold a; lia).
  exists (if Z.leb 0 off then "+" else "-"), (a / 3600)%Z, ((a / 60) mod 60)%Z.
  assert (Hm : (0 <= (a / 60) mod 60 < 60)%Z) by (apply Z.mod_pos_bound; lia).
  assert (Hh : (0 <= a / 3600)%Z) by (apply Z.div_pos; lia).
  assert (Hshape :
            timezone_offset_str off =
            (if Z.leb 0 off then "+" else "-") ++ zero_pad2 (a / 3600) ++ ":"
            ++ zero_pad2 ((a / 60) mod 60)).
  { unfold timezone_offset_str. fold a. rewrite Z.geb_leb.
    destruct (Z.leb 0 off); reflexivity. }
  split; [exact Hshape |]. split; [reflexivity |].
  split; [exact Hh |]. split; [exact Hm |]. split.
  - replace 3600%Z with (60 * 60)%Z by reflexivity.
    rewrite <- Z.div_div by lia.
    pose proof (Z.div_mod (a / 60) 60 ltac:(lia)). lia.
  - intros Hlt. rewrite Hshape.
    assert (Hh2 : (a / 3600 < 100)%Z) by (apply Z.div_lt_upper_bound; lia).
    destruct (Z.leb 0 off); cbn [append String.length];
      rewrite length_append, (zero_pad2_length (a / 3600)) by lia;
      cbn [append String.length];
      rewrite (zero_pad2_length ((a / 60) mod 60)) by lia; reflexivity.
Qed.

(** The theorem at New York in winter, 18000 seconds west of UTC. *)
Lemma timezone_offset_str_shape_witness :
  timezone_offset_str (local_timezone_offset 18000 14400 0) = "+05:00" /\
  String.length (timezone_offset_str 18000) = 6%nat.
Proof.
  destruct (timezone_offset_str_shape 18000) as (sign & h & m & _ & _ & _ & _ & _ & Hlen).
  split; [reflexivity |]. apply Hlen. reflexivity.
Defined.

(** ** Sequences of width reports *)

Lemma set_max_program_len_run v s :
  v <> VNone ->
  set_max_program_len v s = (Ok tt, grow (reported v) s, []).
Proof.
  destruct v as [n | nm |]; intros Hv.
  - apply set_max_program_len_int.
  - apply set_max_program_len_str.
  - contradiction.
Qed.

Lemma grow_other_fields n s :
  _bare (grow n s) = _bare s /\
  _max_line_len (grow n s) = _max_line_len s /\
  _header_displayed (grow n s) = _header_displayed s.
Proof. unfold grow. destruct (Z.gtb n (_max_program_len s)); auto. Qed.

Lemma report_all_run vs :
  forall s,
    Forall (fun v => v <> VNone) vs ->
    exists s',
      report_all vs s = (Ok tt, s', []) /\
      _max_program_len s' =
        fold_left Z.max (map reported vs) (_max_program_len s) /\
      _bare s' = _bare s /\ _max_line_len s' = _max_line_len s /\
      _header_displayed s' = _header_displayed s.
Proof.
  unfold report_all. induction vs as [| v vs IH]; intros s Hall.
  - exists s. repeat split; reflexivity.
  - inversion Hall as [| ? ? Hv Hrest]; subst.
    destruct (IH (grow (reported v) s) Hrest) as (s' & Hrun & Hw & Hb & Hl & Hd).
    destruct (grow_other_fields (reported v) s) as (Gb & Gl & Gd).
    exists s'. cbn [for_each map fold_left].
    rewrite (run_bind_ok _ _ _ _ _ _ (set_max_program_len_run v s Hv)), Hrun.
    rewrite Hw, grow_width. repeat split; congruence.
Qed.

(** X9.  A sequence of width reports, each a string or an integer,
    leaves the width at the maximum of the width before and of
    everything reported (the length, for a string), whatever the order
    of the reports, prints nothing and changes no other attribute; a
    report of [None] raises [TypeError] after the reports before it
    have been applied, and the reports after it are lost. *)
Theorem reports_leave_the_maximum :
  forall (before after : list value) s,
    Forall (fun v => v <> VNone) before ->
    (exists s',
        report_all before s = (Ok tt, s', []) /\
        _max_program_len s' =
          fold_left Z.max (map reported before) (_max_program_len s) /\
        _bare s' = _bare s /\ _max_line_len s' = _max_line_len s /\
        _header_displayed s' = _header_displayed s) /\
    (exists s',
        report_all (before ++ VNone :: after) s = (Raise TypeError, s', []) /\
        _max_program_len s' =
          fold_left Z.max (map reported before) (_max_program_len s)).
Proof.
  intros before after s Hall. split; [apply report_all_run; exact Hall |].
  revert s. unfold report_all.
  induction before as [| v before IH]; intros s.
  - exists s. split; reflexivity.
  - inversion Hall as [| ? ? Hv Hrest]; subst.
    destruct (IH Hrest (grow (reported v) s)) as (s' & Hrun & Hw).
    exists s'. cbn [app for_each map fold_left].
    rewrite (run_bind_ok _ _ _ _ _ _ (set_max_program_len_run v s Hv)), Hrun.
    rewrite Hw, grow_width. split; reflexivity.
Qed.

(** The theorem at three reports, of which the second is the longest. *)
Lemma reports_leave_the_maximum_witness :
  exists s',
    report_all [VStr "nginx"; VInt 45; VStr "curl"] OutputManager_init
    = (Ok tt, s', []) /\ _max_program_len s' = 45%Z.
Proof.
  destruct (reports_leave_the_maximum [VStr "nginx"; VInt 45; VStr "curl"] []
              OutputManager_init) as [(s' & Hrun & Hw & _) _].
  - repeat constructor; discriminate.
  - exists s'. split; [exact Hrun | rewrite Hw; reflexivity].
Defined.

(** ** The sort key of a command line *)

(** X10.  A command line is rejected exactly when the word after [-s]
    is none of PID, Port and Program, whatever the shorthand flags are:
    a rejected command line has such a word, and an accepted one has no
    word after [-s] or one of the three.  An accepted command line
    yields one of these three keys, so that the fallback branch of the
    sorter is never taken from the command line: PID when [-i] is
    given, else Port when [-p] is given, else the word after [-s], else
    Program. *)
Theorem sort_key_of_command_line :
  forall a : Args,
    match sort_of_args a with
    | Some k =>
        match arg_sort a with
        | Some w => w = "PID" \/ w = "Port" \/ w = "Program"
        | None => True
        end /\
        (k = "PID" \/ k = "Port" \/ k = "Program") /\
        k = (if arg_pid a then "PID"
             else if arg_port a then "Port"
             else match arg_sort a with Some w => w | None => "Program" end)
    | None =>
        exists w, arg_sort a = Some w /\
                  w <> "PID" /\ w <> "Port" /\ w <> "Program"
    end.
Proof.
  intros a. unfold sort_of_args, parse_sort.
  destruct (arg_sort a) as [w |].
  - destruct (String.eqb_spec w "PID") as [-> | N1]; cbn [orb].
    + destruct (arg_pid a), (arg_port a); auto 7.
    + destruct (String.eqb_spec w "Port") as [-> | N2]; cbn [orb].
      * destruct (arg_pid a), (arg_port a); auto 7.
      * destruct (String.eqb_spec w "Program") as [-> | N3].
        -- destruct (arg_pid a), (arg_port a); auto 7.
        -- exists w. auto.
  - destruct (arg_pid a), (arg_port a); auto 7.
Qed.

(** ** The Port order does not depend on the order of observation *)

Lemma strictly_sorted_unique (l1 : list (Z * entry)) :
  forall l2,
    StronglySorted port_lt l1 -> StronglySorted port_lt l2 ->
    Permutation l1 l2 -> l1 = l2.
Proof.
  induction l1 as [| x l1 IH]; intros l2 H1 H2 Hp.
  - apply Permutation_nil in Hp. congruence.
  - destruct l2 as [| y l2].
    + apply Permutation_sym, Permutation_nil in Hp. discriminate.
    + inversion H1 as [| ? ? H1' Hx]; subst.
      inversion H2 as [| ? ? H2' Hy]; subst.
      rewrite Forall_forall in Hx, Hy.
      assert (Exy : x = y).
      { assert (Hin : In x (y :: l2))
          by (apply (Permutation_in _ Hp); left; reflexivity).
        destruct Hin as [E | Hin]; [congruence |].
        assert (Hin' : In y (x :: l1))
          by (apply (Permutation_in _ (Permutation_sym Hp)); left; reflexivity).
        specialize (Hy x Hin). unfold port_lt in *.
        destruct Hin' as [E | Hin']; [congruence |].
        specialize (Hx y Hin'). lia. }
      subst y. f_equal. apply IH; [assumption | assumption |].
      apply (Permutation_cons_inv Hp).
Qed.



(** ** One connection, one port; the order of the ports *)

Lemma keys_setitem (k : Z) (v : entry) (d : mapping) :
  keys (setitem k v d) = add_key (keys d) k.
Proof.
  unfold add_key, keys. induction d as [| [k' v'] d IH]; [reflexivity |].
  cbn [setitem map fst existsb].
  destruct (Z.eqb k k') eqn:E; cbn [orb map fst].
  - apply Z.eqb_eq in E. subst. reflexivity.
  - rewrite IH. destruct (existsb (Z.eqb k) (map fst d)); reflexivity.
Qed.

(** X12.  [process_connection] writes one port of one mapping: the
    connection's entry is then found under its local port in the
    mapping of its state; the other mapping is the same object as
    before; every other port of either mapping keeps its entry; and in
    the mapping written, a port that was present keeps its place in the
    order of the keys, while a new port goes last. *)
Theorem process_connection_writes_one_port :
  forall env c (L N : mapping),
    get (lport c)
        (if is_listen c then fst (process_connection env c L N)
         else snd (process_connection env c L N)) = Some (entry_of env c) /\
    (if is_listen c then snd (process_connection env c L N) = N
     else fst (process_connection env c L N) = L) /\
    (forall p, p <> lport c ->
       get p (fst (process_connection env c L N)) = get p L /\
       get p (snd (process_connection env c L N)) = get p N) /\
    keys (if is_listen c then fst (process_connection env c L N)
          else snd (process_connection env c L N)) =
      add_key (keys (if is_listen c then L else N)) (lport c).
Proof.
  intros env c L N.
  assert (E : process_connection env c L N =
              if is_listen c
              then (setitem (lport c) (entry_of env c) L, N)
              else (L, setitem (lport c) (entry_of env c) N)).
  { unfold process_connection, is_listen, lport, entry_of.
    destruct (Psutil.status c =? "LISTEN"); reflexivity. }
  rewrite E. destruct (is_listen c); cbn [fst snd].
  - split; [apply get_setitem_same |]. split; [reflexivity |].
    split; [| apply keys_setitem].
    intros p Hp. split; [apply get_setitem_other; exact Hp | reflexivity].
  - split; [apply get_setitem_same |]. split; [reflexivity |].
    split; [| apply keys_setitem].
    intros p Hp. split; [reflexivity | apply get_setitem_other; exact Hp].
Qed.

Lemma fold_route_keys env cs :
  forall L N,
    keys (fst (fold_left (route env) cs (L, N))) =
      first_seen (map lport (filter is_listen cs)) (keys L) /\
    keys (snd (fold_left (route env) cs (L, N))) =
      first_seen (map lport (filter not_listen cs)) (keys N).
Proof.
  unfold first_seen, not_listen.
  induction cs as [| c cs IH]; intros L N; [split; reflexivity |].
  cbn [fold_left filter]. destruct (is_listen c) eqn:El; cbn [negb map fold_left].
  - rewrite (route_listen env c L N El).
    destruct (IH (setitem (lport c) (entry_of env c) L) N) as [H1 H2].
    rewrite keys_setitem in H1. split; [exact H1 | exact H2].
  - rewrite (route_not_listen env c L N El).
    destruct (IH L (setitem (lport c) (entry_of env c) N)) as [H1 H2].
    rewrite keys_setitem in H2. split; [exact H1 | exact H2].
Qed.

(** X13.  With the pattern bound (no filter was given, or the filter
    compiled) and a name that resolves for every connection the loop
    examines, the loop completes without printing, and the ports of
    each mapping are listed in the order in which they were first seen
    among the retained connections of that kind of state: a later
    connection on a port already present replaces the entry in place
    and does not move the port. *)
Theorem mappings_list_ports_as_first_seen :
  forall env lo pat conns s,
    Forall (resolved env lo) conns ->
    exists L N s',
      classify env lo (Bound pat) conns s = (Ok (L, N), s', []) /\
      keys L =
        first_seen
          (map lport (filter is_listen (filter (retained env lo pat) conns)))
          [] /\
      keys N =
        first_seen
          (map lport (filter not_listen (filter (retained env lo pat) conns)))
          [].
Proof.
  intros env lo pat conns s Hres.
  set (kept := filter (retained env lo pat) conns).
  set (maps := fold_left (route env) kept ([], [])).
  exists (fst maps), (snd maps), (fold_left (report env) kept s).
  split.
  - rewrite (classify_run env lo pat conns s Hres).
    rewrite <- (surjective_pairing maps). reflexivity.
  - exact (fold_route_keys env kept [] []).
Qed.

(** The theorem at the two sockets of nginx, 443 seen before 80. *)
Lemma mappings_list_ports_as_first_seen_witness :
  exists L N s',
    classify (Example.world nginx_443_80) false (Bound None) nginx_443_80
             OutputManager_init = (Ok (L, N), s', []) /\
    keys L = [443%Z; 80%Z].
Proof.
  destruct (mappings_list_ports_as_first_seen (Example.world nginx_443_80)
              false None nginx_443_80 OutputManager_init)
    as (L & N & s' & Hrun & HL & _).
  - repeat constructor; intros _; discriminate.
  - exists L, N, s'. split; [exact Hrun | rewrite HL; reflexivity].
Defined.

(** ** What the filter does not look at *)

Lemma classify_step_resolvers env svc fqdn lo pv c maps s :
  classify_step (with_resolvers env svc fqdn) lo pv c maps s =
  classify_step env lo pv c maps s.
Proof. rewrite !classify_step_run. reflexivity. Qed.

Lemma classify_step_silent env lo pv c maps s :
  trace_of (classify_step env lo pv c maps s) = [].
Proof.
  rewrite classify_step_run.
  destruct (observed lo c); [| reflexivity].
  destruct pv as [| pat]; [reflexivity |].
  destruct (get_program_by_pid env (Psutil.pid c)) as [nm |]; [| reflexivity].
  destruct (keeps env pat c nm); reflexivity.
Qed.

(** X14.  The loop of the classifier calls neither the reverse-DNS
    resolver nor the service table and prints nothing: its result, the
    state it leaves and the exception it may raise are the same
    whatever these two resolvers answer, so a filter expression never
    matches against a DNS name or a service name. *)
Theorem filter_ignores_resolvers :
  forall env lo pv conns s svc fqdn,
    classify (with_resolvers env svc fqdn) lo pv conns s =
      classify env lo pv conns s /\
    trace_of (classify env lo pv conns s) = [].
Proof.
  intros env lo pv conns s svc fqdn. unfold classify.
  generalize (@nil (Z * entry), @nil (Z * entry)). revert s.
  induction conns as [| c conns IH]; intros s maps; [split; reflexivity |].
  cbn [for_each]. rewrite !run_bind, classify_step_resolvers.
  pose proof (classify_step_silent env lo pv c maps s) as Ht.
  destruct (classify_step env lo pv c maps s) as [[[maps' | e] s1] t1];
    cbn [trace_of snd] in Ht; subst t1; [| split; reflexivity].
  destruct (IH s1 maps') as [H1 H2]. rewrite H1, H2. split; reflexivity.
Qed.

(** ** Listening-only as a filter on the input *)

(** X15.  With the listening-only flag the loop does exactly what it
    does without the flag on the list of the connections in state
    LISTEN alone: the same mappings, the same width, the same
    exception, if any. *)
Theorem listening_only_is_a_prefilter :
  forall env pv conns s,
    classify env true pv conns s =
    classify env false pv (filter is_listen conns) s.
Proof.
  intros env pv conns s. unfold classify.
  generalize (@nil (Z * entry), @nil (Z * entry)). revert s.
  induction conns as [| c conns IH]; intros s maps; [reflexivity |].
  cbn [for_each filter]. destruct (is_listen c) eqn:El.
  - cbn [for_each]. rewrite !run_bind, !classify_step_run.
    unfold observed. rewrite El. cbn [negb andb].
    destruct pv as [| pat]; [reflexivity |].
    destruct (get_program_by_pid env (Psutil.pid c)) as [nm |]; [| reflexivity].
    destruct (keeps env pat c nm); rewrite IH; reflexivity.
  - rewrite run_bind, classify_step_run. unfold observed. rewrite El.
    cbn [negb andb app]. rewrite IH. symmetry. apply surj_run.
Qed.

(** ** A tick with nothing to show *)

Lemma compile_pattern_bound env regex pat s :
  pattern_after env regex = Bound pat ->
  compile_pattern env regex s = (Ok (Bound pat), s, []).
Proof.
  unfold pattern_after, compile_pattern.
  destruct (truthy regex);
    [| cbn; intros H; injection H as <-; reflexivity].
  destruct regex as [r |];
    [| cbn; intros H; injection H as <-; reflexivity].
  destruct (re_compile env r) as [p | msg]; cbn; intros H;
    [injection H as <-; reflexivity | discriminate H].
Qed.

Lemma sort_mapping_empty sort_by : sort_mapping sort_by [] = Ok [].
Proof.
  unfold sort_mapping.
  destruct (sort_by =? "PID"); [reflexivity |].
  destruct (sort_by =? "Port"); [reflexivity |].
  destruct (sort_by =? "Program"); reflexivity.
Qed.

(** X16.  With the pattern bound (no filter was given, or the filter
    compiled) and a name that resolves for every connection the loop
    examines, a tick in which the loop retains no connection (there is
    none, or the filter matches none of them, or none is listening
    under listening-only) completes and prints nothing at all, no
    header either: both mappings are empty, the width and the header
    flag are as before, and [_max_line_len] is reset to 0. *)
Theorem nothing_retained_prints_nothing :
  forall env sort_by bare lo dns regex pat s,
    pattern_after env regex = Bound pat ->
    Forall (resolved env lo) (net_connections env) ->
    filter (retained env lo pat) (net_connections env) = [] ->
    get_port_program_mapping env sort_by bare lo dns regex s =
    (Ok ([], []), set_field_max_line_len 0 (set_field_bare bare s), []).
Proof.
  intros env sort_by bare lo dns regex pat s Hpat Hres Hnone.
  unfold get_port_program_mapping, set_bare. rewrite run_modify.
  rewrite (run_bind_ok _ _ _ _ _ _
             (compile_pattern_bound env regex pat _ Hpat)).
  rewrite (run_bind_ok _ _ _ _ _ _
             (classify_run env lo pat (net_connections env) _ Hres)).
  rewrite Hnone. cbn [fold_left fst snd].
  rewrite sort_mapping_empty, !run_lift_ok.
  destruct lo; reflexivity.
Qed.

(** The theorem at the report of the specification filtered by a word
    that occurs nowhere. *)
Lemma nothing_retained_prints_nothing_witness :
  get_port_program_mapping (Example.world Example.spec_conns) "Port" false
    false false (Some "firefox") OutputManager_init =
  (Ok ([], []), set_field_max_line_len 0 OutputManager_init, []).
Proof.
  apply (nothing_retained_prints_nothing (Example.world Example.spec_conns)
           "Port" false false false (Some "firefox")
           (Some (Example.contains "firefox")) OutputManager_init).
  - reflexivity.
  - repeat constructor; intros _; discriminate.
  - reflexivity.
Defined.

(** X17.  After a malformed filter expression the tick does complete
    when the loop examines no connection (there is none, or none is
    listening under listening-only): the error message is all that is
    printed and both mappings are empty. *)
Theorem malformed_filter_nothing_examined :
  forall env sort_by bare lo dns regex s,
    malformed env regex ->
    existsb (observed lo) (net_connections env) = false ->
    exists msg,
      get_port_program_mapping env sort_by bare lo dns regex s =
      (Ok ([], []), set_field_max_line_len 0 (set_field_bare bare s),
       [PrintError ("Error: " ++ msg)]).
Proof.
  intros env sort_by bare lo dns regex s Hmal Hobs.
  destruct (compile_pattern_run env regex (set_field_bare bare s))
    as (t & Hc & Hunb & Ht).
  pose proof (proj2 Hunb Hmal) as Hpv.
  destruct Hmal as (r & msg & Er & Nr & Ec).
  exists msg. unfold get_port_program_mapping, set_bare.
  rewrite run_modify, (run_bind_ok _ _ _ _ _ _ Hc), Hpv.
  unfold classify.
  rewrite (run_bind_ok _ _ _ _ _ _
             (eq_trans (classify_unbound env lo (net_connections env) _ _)
                       ltac:(rewrite Hobs; reflexivity))).
  cbn [fst snd]. rewrite sort_mapping_empty, !run_lift_ok.
  rewrite (Ht r msg Er Nr Ec). destruct lo; reflexivity.
Qed.

(** The theorem at the filter ["("] under listening-only, with only
    the connection of curl in the world. *)
Lemma malformed_filter_nothing_examined_witness :
  exists msg,
    get_port_program_mapping
      (Example.world
         [Example.conn 51000 (Some 200%Z) "ESTABLISHED"
            (Example.peer "93.184.216.34" 80)])
      "Port" false true false (Some "(") OutputManager_init =
    (Ok ([], []), set_field_max_line_len 0 OutputManager_init,
     [PrintError ("Error: " ++ msg)]).
Proof.
  apply (malformed_filter_nothing_examined
           (Example.world
              [Example.conn 51000 (Some 200%Z) "ESTABLISHED"
                 (Example.peer "93.184.216.34" 80)])
           "Port" false true false (Some "(") OutputManager_init).
  - exists "(", "missing ), unterminated subpattern at position 0".
    repeat split; [discriminate].
  - reflexivity.
Defined.

(** ** The loop and its timed wait *)


